(** * The QuickJS / JVM method-binding bridge (quickjs_bridge.cpp)

    A shallow embedding of the native bridge that lets script code running
    in QuickJS call host methods through JNI, and of the properties its
    design document states about it.

    The bridge sits between two runtimes whose code is not part of the
    translation unit.  Their API calls are modelled by their documented
    contracts:
    - JNI: local and global references are handles in two tables; class
      objects are identified by name; allocation never fails.
    - QuickJS: values are the ECMAScript primitives plus heap objects; a
      Number is an IEEE-754 binary64; reference counts are not modelled, so
      an object that is dropped stays in the heap but is unreachable from
      the global object.  Coercions that would run script code or parse
      text are a parameter ([Engine]); engine calls that can fail for lack
      of resources, or be refused by the object they act on, take their
      outcome from a parameter ([EngineFaults]).  [currentException]
      records the errors the bridge itself throws; the exception a failing
      engine call leaves pending is not recorded.
    The mutex of [QuickJsContext] is modelled by making every locked block
    one atomic state transformation. *)

From stdpp Require Import gmap strings list fin_maps.
From Stdlib Require Import ZArith Lia SpecFloat.
Local Open Scope Z_scope.

(** ** IEEE-754 binary64, as far as the bridge needs it *)

Module Binary64.

Abbreviation prec := 53 (only parsing).
Abbreviation emax := 1024 (only parsing).

(** [(double) z]: conversion of an integer to binary64, round to nearest
    even, as a C cast from [int32_t] or [int64_t] does. *)
Definition of_Z (z : Z) : spec_float := binary_normalize prec emax z 0 false.

(** The integer a double denotes, when it denotes one. *)
Definition to_Z (d : spec_float) : option Z :=
  match d with
  | S754_zero _ => Some 0
  | S754_finite s m e =>
      if 0 <=? e then Some (cond_Zopp s (Z.pos m * 2 ^ e))
      else if Z.pos m mod 2 ^ (- e) =? 0 then Some (cond_Zopp s (Z.pos m / 2 ^ (- e)))
      else None
  | _ => None
  end.

(** Integer part, rounding toward zero; NaN and the infinities give 0. *)
Definition trunc (d : spec_float) : Z :=
  match d with
  | S754_finite s m e =>
      if 0 <=? e then cond_Zopp s (Z.pos m * 2 ^ e)
      else cond_Zopp s (Z.pos m / 2 ^ (- e))
  | _ => 0
  end.

(** An integer is representable when it is a 53-bit integer scaled by a
    power of two (below the overflow threshold). *)
Definition representable (z : Z) : Prop :=
  ∃ m e, 0 <= e ∧ Z.abs m < 2 ^ prec ∧ z = m * 2 ^ e ∧ Z.abs z < 2 ^ emax.

End Binary64.

(** ** Fixed-width integers and C strings *)

(** Two's-complement wrap-around of [z] to a signed [w]-bit integer. *)
Definition wrap (w : Z) (z : Z) : Z := (z + 2 ^ (w - 1)) mod 2 ^ w - 2 ^ (w - 1).

Definition INT_MAX : Z := 2 ^ 31 - 1.
Definition in_int32 (z : Z) : Prop := - 2 ^ 31 <= z < 2 ^ 31.
Definition in_int64 (z : Z) : Prop := - 2 ^ 63 <= z < 2 ^ 63.

(** What a consumer of a NUL-terminated [const char*] sees of a string:
    the characters before the first NUL. *)
Fixpoint c_str (s : string) : string :=
  match s with
  | EmptyString => EmptyString
  | String c rest => if Ascii.eqb c Ascii.zero then EmptyString else String c (c_str rest)
  end.

(** No character of the string is U+0000. *)
Fixpoint NUL_free (s : string) : bool :=
  match s with
  | EmptyString => true
  | String c rest => negb (Ascii.eqb c Ascii.zero) && NUL_free rest
  end.

(** ** The host side: JNI *)

(** Outcome of [Throwable.getMessage()]: a null reference, a string, or an
    exception raised by an overriding implementation. *)
Inductive MessageResult :=
| MsgNull
| MsgText (s : string)
| MsgThrows.

(** Exception objects.  [InvocationTargetException target] is what
    [java.lang.reflect.Method.invoke] raises when the invoked method itself
    throws [target]: it is built from the target alone, so it has no detail
    message and keeps the original exception as its cause. *)
Inductive Throwable :=
| Raised (className : string) (message : MessageResult)
| InvocationTargetException (target : Throwable).

Definition Throwable_getMessage (t : Throwable) : MessageResult :=
  match t with
  | Raised _ m => m
  | InvocationTargetException _ => MsgNull
  end.

(** Host objects the bridge handles. *)
Inductive JObject :=
| JString (s : string)
| JBoolean (b : bool)
| JInteger (i : Z)
| JLong (l : Z)
| JDouble (d : spec_float)
| JClass (name : string)          (* java.lang.Class, by binary name *)
| JMethod (m : nat)               (* java.lang.reflect.Method *)
| JInstance (o : nat)             (* any other object, e.g. a receiver *)
| JThrowable (t : Throwable)
| JObjectArray.

(** A JNI reference: a handle in the local or global table, and the object
    it designates.  [jobject] is a possibly-null reference. *)
Record jref := { handle : nat; target : JObject }.
Abbreviation jobject := (option jref).
Abbreviation jclass := (option jref).

(** Outcome of [GetEnv] for the calling thread. *)
Inductive EnvStatus :=
| JNI_OK
| JNI_EDETACHED (attachSucceeds : bool)
| JNI_ERR.

Record JavaVM := {
  localRefs : gset nat;
  globalRefs : gset nat;
  pendingException : option Throwable;
  envStatus : EnvStatus;
}.

Definition set_localRefs (X : gset nat) (vm : JavaVM) : JavaVM :=
  {| localRefs := X; globalRefs := globalRefs vm;
     pendingException := pendingException vm; envStatus := envStatus vm |}.

Definition set_globalRefs (X : gset nat) (vm : JavaVM) : JavaVM :=
  {| localRefs := localRefs vm; globalRefs := X;
     pendingException := pendingException vm; envStatus := envStatus vm |}.

Definition set_pendingException (e : option Throwable) (vm : JavaVM) : JavaVM :=
  {| localRefs := localRefs vm; globalRefs := globalRefs vm;
     pendingException := e; envStatus := envStatus vm |}.

(** A JNI call that returns a new local reference to [o]. *)
Definition NewLocalRef (o : JObject) (vm : JavaVM) : jobject * JavaVM :=
  let h := fresh (localRefs vm) in
  (Some {| handle := h; target := o |}, set_localRefs ({[h]} ∪ localRefs vm) vm).

Definition DeleteLocalRef (obj : jobject) (vm : JavaVM) : JavaVM :=
  match obj with
  | None => vm
  | Some r => set_localRefs (localRefs vm ∖ {[handle r]}) vm
  end.

Definition NewGlobalRef (obj : jobject) (vm : JavaVM) : jobject * JavaVM :=
  match obj with
  | None => (None, vm)
  | Some r =>
      let h := fresh (globalRefs vm) in
      (Some {| handle := h; target := target r |},
       set_globalRefs ({[h]} ∪ globalRefs vm) vm)
  end.

Definition DeleteGlobalRef (obj : jobject) (vm : JavaVM) : JavaVM :=
  match obj with
  | None => vm
  | Some r => set_globalRefs (globalRefs vm ∖ {[handle r]}) vm
  end.

(** Object identity.  The bridge only compares a reference against a
    cached class object, and a class is identified by its name. *)
Definition IsSameObject (a b : jobject) : bool :=
  match a, b with
  | None, None => true
  | Some x, Some y =>
      match target x, target y with
      | JClass c1, JClass c2 => String.eqb c1 c2
      | _, _ => false
      end
  | _, _ => false
  end.

(** [ThrowNew(clazz, message)]: raises a new exception of the given class
    in the calling thread; nothing is raised when [clazz] is no class. *)
Definition ThrowNew (clazz : jclass) (message : string) (vm : JavaVM) : JavaVM :=
  match clazz with
  | Some {| target := JClass name |} =>
      set_pendingException (Some (Raised name (MsgText message))) vm
  | _ => vm
  end.

(** Outcome of [Method.invoke(receiver, args)]. *)
Inductive HostOutcome :=
| Returns (result : option JObject)     (* normal return, boxed *)
| Throws (t : Throwable)                (* the invoked method threw [t] *)
| InvokeFails (t : Throwable).          (* reflection itself rejected the call *)

(** The host program: what each registered method does. *)
Definition Host := nat → option JObject → list (option JObject) → HostOutcome.

(** ** The script side: QuickJS *)

Inductive JSValue :=
| JS_UNDEFINED
| JS_NULL
| JS_EXCEPTION
| JS_Bool (b : bool)
| JS_Number (d : spec_float)
| JS_String (s : string)
| JS_Symbol (description : string)
| JS_Object (ref : nat).

Definition JS_FALSE : JSValue := JS_Bool false.

Inductive JSErrorClass := TypeError | InternalError.

Record JSError := { errorClass : JSErrorClass; errorMessage : string }.

(** What [JS_NewCFunctionMagic] was given: the engine calls the C function
    back with [fnMagic] whenever a script calls the function object. *)
Record NativeFunction := { fnName : string; fnLength : Z; fnMagic : Z }.

(** Objects live in [heap], which gives each one its properties; the
    objects that are functions made by [JS_NewCFunctionMagic] are listed
    in [functions]. *)
Record JSContext := {
  globalObject : gmap string JSValue;
  heap : gmap nat (gmap string JSValue);
  functions : gmap nat NativeFunction;
  currentException : option JSError;
}.

Definition set_globalObject (g : gmap string JSValue) (ctx : JSContext) : JSContext :=
  {| globalObject := g; heap := heap ctx; functions := functions ctx;
     currentException := currentException ctx |}.

Definition set_heap (h : gmap nat (gmap string JSValue)) (ctx : JSContext) : JSContext :=
  {| globalObject := globalObject ctx; heap := h; functions := functions ctx;
     currentException := currentException ctx |}.

Definition set_functions (fs : gmap nat NativeFunction) (ctx : JSContext) : JSContext :=
  {| globalObject := globalObject ctx; heap := heap ctx; functions := fs;
     currentException := currentException ctx |}.

Definition set_currentException (e : option JSError) (ctx : JSContext) : JSContext :=
  {| globalObject := globalObject ctx; heap := heap ctx; functions := functions ctx;
     currentException := e |}.

(** The coercions of values that are not primitives of the requested type
    run script code ([valueOf], [toString]) or parse text; their outcome
    is left to the engine.  [None] is an exception raised by the engine. *)
Record Engine := {
  slowToNumber : JSValue → option spec_float;
  slowToString : JSValue → option string;
}.

(** Which of the engine calls made while wiring a function fail.
    [refuseDefineProperty]: the target object does not take the property
    (it is not extensible, or holds the property as non-configurable);
    without [JS_PROP_THROW] the engine then answers FALSE and raises
    nothing. *)
Record EngineFaults := {
  failNewObject : bool;
  failSetProperty : bool;
  failNewCFunction : bool;
  failDefineProperty : bool;
  refuseDefineProperty : bool;
}.

Definition noFaults : EngineFaults :=
  {| failNewObject := false; failSetProperty := false;
     failNewCFunction := false; failDefineProperty := false;
     refuseDefineProperty := false |}.

Definition JS_IsNull (v : JSValue) : bool :=
  match v with JS_NULL => true | _ => false end.
Definition JS_IsUndefined (v : JSValue) : bool :=
  match v with JS_UNDEFINED => true | _ => false end.
Definition JS_IsException (v : JSValue) : bool :=
  match v with JS_EXCEPTION => true | _ => false end.

Definition JS_NewBool (b : bool) : JSValue := JS_Bool b.
Definition JS_NewFloat64 (d : spec_float) : JSValue := JS_Number d.
Definition JS_NewInt32 (i : Z) : JSValue := JS_Number (Binary64.of_Z i).
(** [JS_NewInt64] keeps the value as an integer when it fits 32 bits and
    otherwise stores [(double) val]; either way the Number is the double
    nearest to [val]. *)
Definition JS_NewInt64 (l : Z) : JSValue := JS_Number (Binary64.of_Z l).
Definition JS_NewString (chars : string) : JSValue := JS_String chars.

(** ECMAScript [ToNumber]. *)
Definition JS_ToNumber (E : Engine) (v : JSValue) : option spec_float :=
  match v with
  | JS_UNDEFINED => Some S754_nan
  | JS_NULL => Some (S754_zero false)
  | JS_Bool b => Some (Binary64.of_Z (if b then 1 else 0))
  | JS_Number d => Some d
  | JS_Symbol _ => None
  | _ => slowToNumber E v
  end.

(** [JS_ToBool]: 1 or 0, or -1 when the value is the exception marker. *)
Definition JS_ToBool (v : JSValue) : Z :=
  match v with
  | JS_EXCEPTION => -1
  | JS_UNDEFINED | JS_NULL => 0
  | JS_Bool b => if b then 1 else 0
  | JS_Number (S754_nan | S754_zero _) => 0
  | JS_String EmptyString => 0
  | _ => 1
  end.

Definition JS_ToInt32 (E : Engine) (v : JSValue) : option Z :=
  d ← JS_ToNumber E v; Some (wrap 32 (Binary64.trunc d)).

Definition JS_ToInt64 (E : Engine) (v : JSValue) : option Z :=
  d ← JS_ToNumber E v; Some (wrap 64 (Binary64.trunc d)).

Definition JS_ToFloat64 (E : Engine) (v : JSValue) : option spec_float :=
  JS_ToNumber E v.

(** [JS_ToCString]: the text of the value, [None] for a NULL result. *)
Definition JS_ToCString (E : Engine) (v : JSValue) : option string :=
  match v with
  | JS_String s => Some s
  | JS_UNDEFINED => Some "undefined"%string
  | JS_NULL => Some "null"%string
  | JS_Bool b => Some (if b then "true" else "false")%string
  | JS_Symbol _ => None
  | _ => slowToString E v
  end.

Definition JS_Throw (c : JSErrorClass) (message : string) (ctx : JSContext)
  : JSValue * JSContext :=
  (JS_EXCEPTION, set_currentException (Some {| errorClass := c; errorMessage := message |}) ctx).

Definition JS_ThrowTypeError := JS_Throw TypeError.
Definition JS_ThrowInternalError := JS_Throw InternalError.

Definition JS_GetPropertyStr_global (ctx : JSContext) (name : string) : JSValue :=
  default JS_UNDEFINED (globalObject ctx !! name).

Definition JS_NewObject (f : EngineFaults) (ctx : JSContext) : JSValue * JSContext :=
  if failNewObject f then (JS_EXCEPTION, ctx)
  else
    let r := fresh (dom (heap ctx)) in
    (JS_Object r, set_heap (<[r := ∅]> (heap ctx)) ctx).

(** [JS_SetPropertyStr] on the global object: negative on failure. *)
Definition JS_SetPropertyStr_global (f : EngineFaults) (ctx : JSContext)
    (name : string) (v : JSValue) : Z * JSContext :=
  if failSetProperty f then (-1, ctx)
  else (1, set_globalObject (<[name := v]> (globalObject ctx)) ctx).

(** [JS_NewCFunctionMagic]: a new function object. *)
Definition JS_NewCFunctionMagic (f : EngineFaults) (ctx : JSContext) (name : string)
    (length : Z) (magic : Z) : JSValue * JSContext :=
  if failNewCFunction f then (JS_EXCEPTION, ctx)
  else
    let r := fresh (dom (heap ctx)) in
    (JS_Object r,
     set_functions (<[r := {| fnName := name; fnLength := length; fnMagic := magic |}]>
                      (functions ctx))
                   (set_heap (<[r := ∅]> (heap ctx)) ctx)).

(** [JS_DefinePropertyValueStr]: 1 when the property has been defined, 0
    when the object refuses it, negative with an exception, in particular
    when the target is not an object.  Any object is a target, functions
    included. *)
Definition JS_DefinePropertyValueStr (f : EngineFaults) (ctx : JSContext)
    (this_obj : JSValue) (prop : string) (val : JSValue) : Z * JSContext :=
  match this_obj with
  | JS_Object r =>
      match heap ctx !! r with
      | Some props =>
          if failDefineProperty f then (-1, ctx)
          else if refuseDefineProperty f then (0, ctx)
          else (1, set_heap (<[r := <[prop := val]> props]> (heap ctx)) ctx)
      | None => (-1, ctx)
      end
  | _ => (-1, ctx)
  end.

(** ** The bridge: data *)

Inductive ValueKind := kVoid | kString | kBoolean | kInt | kLong | kDouble.

#[global] Instance ValueKind_eq_dec : EqDecision ValueKind.
Proof. solve_decision. Defined.

(** Cached class references.  The cached method identifiers of the source
    ([valueOf], [booleanValue], [invoke], [getMessage], ...) designate
    fixed methods of these classes and need no state of their own. *)
Record JavaRefs := {
  methodClass : jclass;
  stringClass : jclass;
  booleanClass : jclass;
  booleanTypeClass : jclass;
  integerClass : jclass;
  integerTypeClass : jclass;
  longClass : jclass;
  longTypeClass : jclass;
  doubleClass : jclass;
  doubleTypeClass : jclass;
  voidTypeClass : jclass;
  objectClass : jclass;
  throwableClass : jclass;
  quickJsExceptionClass : jclass;
}.

Record MethodBinding := {
  id : Z;
  objectName : string;
  methodName : string;
  method : jobject;
  instance : jobject;
  parameterKinds : list ValueKind;
  returnKind : ValueKind;
}.

(** [assigned] is the history of the identifiers handed out, oldest first
    (each one is also what [nativeRegister] reports to the log as
    "assigned magic=%d"); it is not a field of the source. *)
Record QuickJsContext := {
  vm : JavaVM;
  context : JSContext;
  refs : JavaRefs;
  bindings : gmap Z MethodBinding;
  nextBindingId : Z;
  assigned : list Z;
}.

Definition set_vm (v : JavaVM) (q : QuickJsContext) : QuickJsContext :=
  {| vm := v; context := context q; refs := refs q; bindings := bindings q;
     nextBindingId := nextBindingId q; assigned := assigned q |}.

Definition set_context (c : JSContext) (q : QuickJsContext) : QuickJsContext :=
  {| vm := vm q; context := c; refs := refs q; bindings := bindings q;
     nextBindingId := nextBindingId q; assigned := assigned q |}.

Definition set_bindings (b : gmap Z MethodBinding) (q : QuickJsContext) : QuickJsContext :=
  {| vm := vm q; context := context q; refs := refs q; bindings := b;
     nextBindingId := nextBindingId q; assigned := assigned q |}.

Definition set_nextBindingId (n : Z) (q : QuickJsContext) : QuickJsContext :=
  {| vm := vm q; context := context q; refs := refs q; bindings := bindings q;
     nextBindingId := n; assigned := assigned q |}.

Definition set_assigned (l : list Z) (q : QuickJsContext) : QuickJsContext :=
  {| vm := vm q; context := context q; refs := refs q; bindings := bindings q;
     nextBindingId := nextBindingId q; assigned := l |}.

Definition set_id (n : Z) (b : MethodBinding) : MethodBinding :=
  {| id := n; objectName := objectName b; methodName := methodName b;
     method := method b; instance := instance b;
     parameterKinds := parameterKinds b; returnKind := returnKind b |}.

(** ** The bridge: helpers *)

Definition requireEnv (v : JavaVM) : bool :=
  match envStatus v with
  | JNI_OK => true
  | JNI_EDETACHED attachSucceeds => attachSucceeds
  | JNI_ERR => false
  end.

Definition throwQuickJsException (r : JavaRefs) (message : string) (v : JavaVM) : JavaVM :=
  match quickJsExceptionClass r with
  | None =>
      let '(cls, v1) := NewLocalRef (JClass "java/lang/RuntimeException") v in
      ThrowNew cls message v1
  | Some _ => ThrowNew (quickJsExceptionClass r) message v
  end.

(** [toUtfString]: the text of a possibly-null [jstring]. *)
Definition toUtfString (value : option string) : string :=
  match value with
  | None => ""
  | Some chars => chars
  end.

(** ** Value kind classifier *)

Definition classifyParameter (r : JavaRefs) (clazzObj : jobject) : ValueKind :=
  match clazzObj with
  | None => kVoid
  | Some _ =>
      let clazz := clazzObj in
      if IsSameObject clazz (stringClass r) then kString
      else if IsSameObject clazz (booleanClass r) || IsSameObject clazz (booleanTypeClass r)
      then kBoolean
      else if IsSameObject clazz (integerClass r) || IsSameObject clazz (integerTypeClass r)
      then kInt
      else if IsSameObject clazz (longClass r) || IsSameObject clazz (longTypeClass r)
      then kLong
      else if IsSameObject clazz (doubleClass r) || IsSameObject clazz (doubleTypeClass r)
      then kDouble
      else kVoid
  end.

(** ** Value converters *)

(** [convertJsToJava]: a null reference when the coercion fails.  For kind
    String a null reference is also what a script [null] or [undefined]
    gives, and the dispatcher takes either for a null argument. *)
Definition convertJsToJava (E : Engine) (kind : ValueKind) (value : JSValue) (v : JavaVM)
  : jobject * JavaVM :=
  match kind with
  | kString =>
      if JS_IsNull value || JS_IsUndefined value then (None, v)
      else
        match JS_ToCString E value with
        | None => (None, v)
        | Some chars => NewLocalRef (JString (c_str chars)) v     (* NewStringUTF *)
        end
  | kBoolean =>
      let boolValue := JS_ToBool value in
      if boolValue <? 0 then (None, v)
      else NewLocalRef (JBoolean (negb (boolValue =? 0))) v       (* Boolean.valueOf *)
  | kInt =>
      match JS_ToInt32 E value with
      | None => (None, v)
      | Some intValue => NewLocalRef (JInteger intValue) v        (* Integer.valueOf *)
      end
  | kLong =>
      match JS_ToInt64 E value with
      | None => (None, v)
      | Some longValue => NewLocalRef (JLong longValue) v         (* Long.valueOf *)
      end
  | kDouble =>
      match JS_ToFloat64 E value with
      | None => (None, v)
      | Some doubleValue => NewLocalRef (JDouble doubleValue) v   (* Double.valueOf *)
      end
  | kVoid => (None, v)
  end.

(** The result is [None] where the JNI call made on [value] would be
    applied to an object of another class (undefined behaviour). *)
Definition convertJavaToJs (kind : ValueKind) (value : jobject) : option JSValue :=
  match kind with
  | kString =>
      match value with
      | None => Some JS_NULL
      | Some r =>
          match target r with
          | JString chars => Some (JS_NewString chars)
          | _ => None
          end
      end
  | kBoolean =>
      match value with
      | None => Some JS_FALSE
      | Some r =>
          match target r with
          | JBoolean boolValue => Some (JS_NewBool boolValue)
          | _ => None
          end
      end
  | kInt =>
      match value with
      | None => Some (JS_NewInt32 0)
      | Some r =>
          match target r with
          | JInteger intValue => Some (JS_NewInt32 intValue)
          | _ => None
          end
      end
  | kLong =>
      match value with
      | None => Some (JS_NewInt32 0)
      | Some r =>
          match target r with
          | JLong longValue => Some (JS_NewInt64 longValue)
          | _ => None
          end
      end
  | kDouble =>
      match value with
      | None => Some (JS_NewFloat64 (S754_zero false))
      | Some r =>
          match target r with
          | JDouble doubleValue => Some (JS_NewFloat64 doubleValue)
          | _ => None
          end
      end
  | kVoid => Some JS_UNDEFINED
  end.

(** ** Dispatcher *)

Definition throwTypeError (message : string) (q : QuickJsContext)
  : JSValue * QuickJsContext :=
  let '(e, c) := JS_ThrowTypeError message (context q) in (e, set_context c q).

Definition throwInternalError (message : string) (q : QuickJsContext)
  : JSValue * QuickJsContext :=
  let '(e, c) := JS_ThrowInternalError message (context q) in (e, set_context c q).

Definition genericThrowableMessage : string := "Host method threw an exception".

(** [describeThrowable].  The local reference to the message object is
    deleted, and an exception raised by [getMessage] is cleared, before
    the function returns, so the reference tables are left as they were. *)
Definition describeThrowable (throwable : option Throwable) : string :=
  match throwable with
  | None => genericThrowableMessage
  | Some t =>
      match Throwable_getMessage t with
      | MsgThrows => genericThrowableMessage
      | messageObject =>
          let message :=
            toUtfString (match messageObject with MsgText chars => Some chars | _ => None end) in
          if decide (message = "") then genericThrowableMessage else message
      end
  end.

(** The argument loop of [invokeBinding].  [inl] is the early return with
    the raised error, [inr] the converted arguments. *)
Fixpoint convertArguments (E : Engine) (binding : MethodBinding) (argsArray : jobject)
    (kinds : list ValueKind) (index : nat) (argv : list JSValue)
    (localArgs : list jobject) (q : QuickJsContext)
  : (JSValue + list jobject) * QuickJsContext :=
  match kinds with
  | [] => (inr localArgs, q)
  | kind :: rest =>
      let argument := default JS_UNDEFINED (argv !! index) in
      let '(converted, v1) := convertJsToJava E kind argument (vm q) in
      match converted with
      | None =>
          if decide (kind ≠ kString) then
            let v2 := DeleteLocalRef argsArray v1 in
            let v3 := foldl (λ v item, DeleteLocalRef item v) v2 localArgs in
            let '(e, q') :=
              throwTypeError ("Unable to convert argument for method "
                              +:+ objectName binding +:+ "." +:+ methodName binding)
                             (set_vm v3 q) in
            (inl e, q')
          else
            convertArguments E binding argsArray rest (S index) argv
                             (localArgs ++ [converted]) (set_vm v1 q)
      | Some _ =>
          convertArguments E binding argsArray rest (S index) argv
                           (localArgs ++ [converted]) (set_vm v1 q)
      end
  end.

(** [CallObjectMethod(method, Method.invoke, instance, args)]: the result
    reference, with the exception the call leaves pending, if any. *)
Definition CallObjectMethod_invoke (H : Host) (m : nat) (receiver : jobject)
    (args : list jobject) (v : JavaVM) : jobject * JavaVM :=
  match H m (target <$> receiver) (map (fmap target) args) with
  | Returns (Some o) => NewLocalRef o v
  | Returns None => (None, v)
  | Throws t => (None, set_pendingException (Some (InvocationTargetException t)) v)
  | InvokeFails t => (None, set_pendingException (Some t) v)
  end.

(** [None]: the stored method reference is no [Method], or the host
    returned an object that does not match the declared return kind. *)
Definition invokeBinding (E : Engine) (H : Host) (binding : MethodBinding)
    (argv : list JSValue) (q : QuickJsContext) : option (JSValue * QuickJsContext) :=
  if negb (requireEnv (vm q)) then
    Some (throwInternalError "Failed to obtain JNI environment" q)
  else
    let paramCount := length (parameterKinds binding) in
    let '(argsArray, v0) :=
      if decide (0 < paramCount)%nat then NewLocalRef JObjectArray (vm q)
      else (None, vm q) in
    match convertArguments E binding argsArray (parameterKinds binding) 0 argv []
                           (set_vm v0 q) with
    | (inl e, q') => Some (e, q')
    | (inr localArgs, q1) =>
        match method binding with
        | Some {| target := JMethod m |} =>
            let '(invocationResult, v2) :=
              CallObjectMethod_invoke H m (instance binding) localArgs (vm q1) in
            let v3 := foldl (λ v localRef, DeleteLocalRef localRef v) v2 localArgs in
            let v4 := DeleteLocalRef argsArray v3 in
            match pendingException v4 with
            | Some t =>
                let '(throwable, v5) := NewLocalRef (JThrowable t) v4 in  (* ExceptionOccurred *)
                let v6 := set_pendingException None v5 in                 (* ExceptionClear *)
                let message := describeThrowable (Some t) in
                let v7 := DeleteLocalRef throwable v6 in
                Some (throwInternalError message (set_vm v7 q1))
            | None =>
                jsResult ←
                  (if decide (returnKind binding ≠ kVoid)
                   then convertJavaToJs (returnKind binding) invocationResult
                   else Some JS_UNDEFINED);
                Some (jsResult, set_vm (DeleteLocalRef invocationResult v4) q1)
            end
        | _ => None
        end
    end.

(** [methodDispatcher]: the function the engine calls for every bound
    script function; [magic] is the tag the function was created with. *)
Definition methodDispatcher (E : Engine) (H : Host) (argv : list JSValue) (magic : Z)
    (q : QuickJsContext) : option (JSValue * QuickJsContext) :=
  match bindings q !! magic with
  | None => Some (throwInternalError "Host binding not found" q)
  | Some binding => invokeBinding E H binding argv q
  end.

(** ** Namespace binder *)

(** [ensureGlobalObject]: [Some objectValue] for [true], [None] for [false]. *)
Definition ensureGlobalObject (f : EngineFaults) (name : string) (ctx : JSContext)
  : option JSValue * JSContext :=
  let existing := JS_GetPropertyStr_global ctx name in
  if JS_IsUndefined existing || JS_IsNull existing then
    let '(existing, ctx1) := JS_NewObject f ctx in
    if JS_IsException existing then (None, ctx1)
    else
      let '(status, ctx2) := JS_SetPropertyStr_global f ctx1 name existing in
      if status <? 0 then (None, ctx2) else (Some existing, ctx2)
  else (Some existing, ctx).

(** ** Lifecycle *)

Definition makeGlobal (name : string) (v : JavaVM) : jclass * JavaVM :=
  let '(local, v1) := NewLocalRef (JClass name) v in      (* FindClass *)
  let '(global, v2) := NewGlobalRef local v1 in
  (global, DeleteLocalRef local v2).

(** [NewGlobalRef(GetStaticObjectField(box, TYPE))]: the class object of a
    primitive type.  The local reference that [GetStaticObjectField]
    returns is not deleted. *)
Definition typeGlobal (name : string) (v : JavaVM) : jclass * JavaVM :=
  let '(local, v1) := NewLocalRef (JClass name) v in      (* GetStaticObjectField *)
  NewGlobalRef local v1.

(** The class object of [void]: here both local references are deleted. *)
Definition voidGlobal (v : JavaVM) : jclass * JavaVM :=
  let '(voidClass, v1) := NewLocalRef (JClass "java/lang/Void") v in   (* FindClass *)
  let '(voidType, v2) := NewLocalRef (JClass "void") v1 in  (* GetStaticObjectField *)
  let v3 := DeleteLocalRef voidClass v2 in
  let '(global, v4) := NewGlobalRef voidType v3 in
  (global, DeleteLocalRef voidType v4).

(** [cacheJavaReferences], every lookup succeeding.  The primitive types
    are the [TYPE] fields of their boxes. *)
Definition cacheJavaReferences (v : JavaVM) : JavaRefs * JavaVM :=
  let '(cObject, v) := makeGlobal "java/lang/Object" v in
  let '(cMethod, v) := makeGlobal "java/lang/reflect/Method" v in
  let '(cString, v) := makeGlobal "java/lang/String" v in
  let '(cBoolean, v) := makeGlobal "java/lang/Boolean" v in
  let '(cInteger, v) := makeGlobal "java/lang/Integer" v in
  let '(cLong, v) := makeGlobal "java/lang/Long" v in
  let '(cDouble, v) := makeGlobal "java/lang/Double" v in
  let '(cThrowable, v) := makeGlobal "java/lang/Throwable" v in
  let '(cException, v) := makeGlobal "io/ton/walletkit/quickjs/QuickJsException" v in
  let '(tBoolean, v) := typeGlobal "boolean" v in
  let '(tInteger, v) := typeGlobal "int" v in
  let '(tLong, v) := typeGlobal "long" v in
  let '(tDouble, v) := typeGlobal "double" v in
  let '(tVoid, v) := voidGlobal v in
  ({| methodClass := cMethod; stringClass := cString;
      booleanClass := cBoolean; booleanTypeClass := tBoolean;
      integerClass := cInteger; integerTypeClass := tInteger;
      longClass := cLong; longTypeClass := tLong;
      doubleClass := cDouble; doubleTypeClass := tDouble;
      voidTypeClass := tVoid; objectClass := cObject;
      throwableClass := cThrowable; quickJsExceptionClass := cException |}, v).

Definition emptyContext : JSContext :=
  {| globalObject := ∅; heap := ∅; functions := ∅; currentException := None |}.

(** [nativeCreate], every allocation succeeding. *)
Definition Java_io_ton_walletkit_quickjs_QuickJs_nativeCreate (v : JavaVM) : QuickJsContext :=
  let '(r, v1) := cacheJavaReferences v in
  {| vm := v1; context := emptyContext; refs := r; bindings := ∅;
     nextBindingId := 1; assigned := [] |}.

Definition releaseJavaReferences (r : JavaRefs) (v : JavaVM) : JavaVM :=
  foldl (λ v clazz, DeleteGlobalRef clazz v) v
    [methodClass r; stringClass r; booleanClass r; booleanTypeClass r;
     integerClass r; integerTypeClass r; longClass r; longTypeClass r;
     doubleClass r; doubleTypeClass r; voidTypeClass r; objectClass r;
     throwableClass r; quickJsExceptionClass r].

(** The locked block of [nativeDestroy]: every binding's host references
    are deleted and the registry is cleared. *)
Definition releaseBindings (q : QuickJsContext) : QuickJsContext :=
  let v :=
    map_fold (λ _ binding v, DeleteGlobalRef (instance binding)
                               (DeleteGlobalRef (method binding) v))
             (vm q) (bindings q) in
  set_bindings ∅ (set_vm v q).

(** [nativeDestroy]: the context is freed; what remains is the JVM. *)
Definition Java_io_ton_walletkit_quickjs_QuickJs_nativeDestroy (q : QuickJsContext) : JavaVM :=
  let q1 := releaseBindings q in
  releaseJavaReferences (refs q1) (vm q1).

(** ** Registration *)

(** The parameter loop of [nativeRegister]: [None] when a descriptor is
    rejected. *)
Fixpoint classifyParameters (r : JavaRefs) (parameterTypes : list jobject)
    (kinds : list ValueKind) : option (list ValueKind) :=
  match parameterTypes with
  | [] => Some kinds
  | parameterType :: rest =>
      let kind := classifyParameter r parameterType in
      if decide (kind = kVoid) then None
      else classifyParameters r rest (kinds ++ [kind])
  end.

(** Classification of the return descriptor: [None] when it is rejected. *)
Definition classifyReturn (r : JavaRefs) (returnType : jobject) : option ValueKind :=
  if negb (bool_decide (returnType = None)) && negb (IsSameObject returnType (voidTypeClass r))
  then
    let returnKind := classifyParameter r returnType in
    if bool_decide (returnKind = kVoid) && negb (IsSameObject returnType (stringClass r))
    then None
    else if bool_decide (returnKind = kVoid) && IsSameObject returnType (stringClass r)
    then Some kString
    else Some returnKind
  else Some kVoid.

(** The locked block that assigns the identifier and stores the binding.
    [emplace] leaves the map alone when the key is present. *)
Definition allocateBinding (binding : MethodBinding) (q : QuickJsContext)
  : Z * QuickJsContext :=
  let bindingId := nextBindingId q in
  let q1 := set_nextBindingId (wrap 32 (bindingId + 1)) q in
  let stored := set_id bindingId binding in
  let q2 :=
    match bindings q1 !! bindingId with
    | Some _ => q1
    | None => set_bindings (<[bindingId := stored]> (bindings q1)) q1
    end in
  (bindingId, set_assigned (assigned q2 ++ [bindingId]) q2).

(** The locked block each wiring failure runs before it returns. *)
Definition rollbackBinding (bindingId : Z) (q : QuickJsContext) : QuickJsContext :=
  match bindings q !! bindingId with
  | Some stored =>
      let v := DeleteGlobalRef (instance stored) (DeleteGlobalRef (method stored) (vm q)) in
      set_bindings (delete bindingId (bindings q)) (set_vm v q)
  | None => q
  end.

Definition failRegistration (message : string) (q : QuickJsContext) : QuickJsContext :=
  set_vm (throwQuickJsException (refs q) message (vm q)) q.

Definition Java_io_ton_walletkit_quickjs_QuickJs_nativeRegister (f : EngineFaults)
    (objectName methodName : option string) (method instance : jobject)
    (parameterTypes : option (list jobject)) (returnType : jobject)
    (q : QuickJsContext) : QuickJsContext :=
  let objectNameUtf := toUtfString objectName in
  let methodNameUtf := toUtfString methodName in
  if bool_decide (objectNameUtf = "") || bool_decide (methodNameUtf = "") then
    failRegistration "Object or method name cannot be empty" q
  else
    let types := default [] parameterTypes in
    let parameterCount := length types in
    let '(bindingMethod, v1) := NewGlobalRef method (vm q) in
    let '(bindingInstance, v2) := NewGlobalRef instance v1 in
    let q0 := set_vm v2 q in
    match classifyParameters (refs q) types [] with
    | None =>
        let q1 := failRegistration ("Unsupported parameter type for method "
                                    +:+ objectNameUtf +:+ "." +:+ methodNameUtf) q0 in
        set_vm (DeleteGlobalRef bindingInstance (DeleteGlobalRef bindingMethod (vm q1))) q1
    | Some kinds =>
        match classifyReturn (refs q) returnType with
        | None =>
            let q1 := failRegistration ("Unsupported return type for method "
                                        +:+ objectNameUtf +:+ "." +:+ methodNameUtf) q0 in
            set_vm (DeleteGlobalRef bindingInstance (DeleteGlobalRef bindingMethod (vm q1))) q1
        | Some kind =>
            let binding :=
              {| id := 0; objectName := objectNameUtf; methodName := methodNameUtf;
                 method := bindingMethod; instance := bindingInstance;
                 parameterKinds := kinds; returnKind := kind |} in
            let '(bindingId, q2) := allocateBinding binding q0 in
            match ensureGlobalObject f objectNameUtf (context q2) with
            | (None, ctx1) =>
                failRegistration ("Failed to create host object " +:+ objectNameUtf)
                                 (rollbackBinding bindingId (set_context ctx1 q2))
            | (Some objectValue, ctx1) =>
                let '(function, ctx2) :=
                  JS_NewCFunctionMagic f ctx1 methodNameUtf (Z.of_nat parameterCount)
                                       bindingId in
                let q3 := set_context ctx2 q2 in
                if JS_IsException function then
                  failRegistration ("Failed to create native function for "
                                    +:+ objectNameUtf +:+ "." +:+ methodNameUtf)
                                   (rollbackBinding bindingId q3)
                else
                  let '(status, ctx3) :=
                    JS_DefinePropertyValueStr f (context q3) objectValue methodNameUtf function in
                  let q4 := set_context ctx3 q3 in
                  if status <? 0 then
                    failRegistration ("Failed to attach method "
                                      +:+ objectNameUtf +:+ "." +:+ methodNameUtf)
                                     (rollbackBinding bindingId q4)
                  else q4
            end
        end
    end.

(** ** Registration, block by block

    [nativeRegister] holds the context's mutex twice: in the block that
    assigns the identifier and stores the binding, and, when the wiring
    fails, in the block that removes the binding again.  The rest runs
    unlocked.  A thread inside [nativeRegister] is at one of these points:
    called; about to enter the first block; holding its identifier, with
    the wiring to do; about to enter the second block; returned. *)
Inductive RegisterState :=
| Called (f : EngineFaults) (objectName methodName : option string)
    (method instance : jobject) (parameterTypes : option (list jobject))
    (returnType : jobject)
| Prepared (f : EngineFaults) (binding : MethodBinding) (parameterCount : nat)
| Assigned (f : EngineFaults) (bindingId : Z) (objectNameUtf methodNameUtf : string)
    (parameterCount : nat)
| Failing (bindingId : Z) (message : string)
| Returned (bindingId : option Z).

(** One block of [nativeRegister], run without interruption. *)
Definition registerStep (s : RegisterState) (q : QuickJsContext)
  : RegisterState * QuickJsContext :=
  match s with
  | Called f objectName methodName method instance parameterTypes returnType =>
      let objectNameUtf := toUtfString objectName in
      let methodNameUtf := toUtfString methodName in
      if bool_decide (objectNameUtf = "") || bool_decide (methodNameUtf = "") then
        (Returned None, failRegistration "Object or method name cannot be empty" q)
      else
        let types := default [] parameterTypes in
        let parameterCount := length types in
        let '(bindingMethod, v1) := NewGlobalRef method (vm q) in
        let '(bindingInstance, v2) := NewGlobalRef instance v1 in
        let q0 := set_vm v2 q in
        match classifyParameters (refs q) types [] with
        | None =>
            let q1 := failRegistration ("Unsupported parameter type for method "
                                        +:+ objectNameUtf +:+ "." +:+ methodNameUtf) q0 in
            (Returned None,
             set_vm (DeleteGlobalRef bindingInstance (DeleteGlobalRef bindingMethod (vm q1))) q1)
        | Some kinds =>
            match classifyReturn (refs q) returnType with
            | None =>
                let q1 := failRegistration ("Unsupported return type for method "
                                            +:+ objectNameUtf +:+ "." +:+ methodNameUtf) q0 in
                (Returned None,
                 set_vm (DeleteGlobalRef bindingInstance (DeleteGlobalRef bindingMethod (vm q1)))
                        q1)
            | Some kind =>
                (Prepared f
                   {| id := 0; objectName := objectNameUtf; methodName := methodNameUtf;
                      method := bindingMethod; instance := bindingInstance;
                      parameterKinds := kinds; returnKind := kind |}
                   parameterCount,
                 q0)
            end
        end
  | Prepared f binding parameterCount =>
      let '(bindingId, q2) := allocateBinding binding q in
      (Assigned f bindingId (objectName binding) (methodName binding) parameterCount, q2)
  | Assigned f bindingId objectNameUtf methodNameUtf parameterCount =>
      match ensureGlobalObject f objectNameUtf (context q) with
      | (None, ctx1) =>
          (Failing bindingId ("Failed to create host object " +:+ objectNameUtf),
           set_context ctx1 q)
      | (Some objectValue, ctx1) =>
          let '(function, ctx2) :=
            JS_NewCFunctionMagic f ctx1 methodNameUtf (Z.of_nat parameterCount) bindingId in
          let q3 := set_context ctx2 q in
          if JS_IsException function then
            (Failing bindingId ("Failed to create native function for "
                                +:+ objectNameUtf +:+ "." +:+ methodNameUtf),
             q3)
          else
            let '(status, ctx3) :=
              JS_DefinePropertyValueStr f (context q3) objectValue methodNameUtf function in
            let q4 := set_context ctx3 q3 in
            if status <? 0 then
              (Failing bindingId ("Failed to attach method "
                                  +:+ objectNameUtf +:+ "." +:+ methodNameUtf),
               q4)
            else (Returned (Some bindingId), q4)
      end
  | Failing bindingId message =>
      (Returned (Some bindingId), failRegistration message (rollbackBinding bindingId q))
  | Returned bindingId => (Returned bindingId, q)
  end.

(** The identifier a registering thread holds, once it has one. *)
Definition identifierOf (s : RegisterState) : option Z :=
  match s with
  | Called _ _ _ _ _ _ _ | Prepared _ _ _ => None
  | Assigned _ bindingId _ _ _ | Failing bindingId _ => Some bindingId
  | Returned bindingId => bindingId
  end.

(** A thread runs [nativeRegister] from call to return. *)
Definition registerAlone (s : RegisterState) (q : QuickJsContext)
  : RegisterState * QuickJsContext :=
  let '(s1, q1) := registerStep s q in
  let '(s2, q2) := registerStep s1 q1 in
  let '(s3, q3) := registerStep s2 q2 in
  registerStep s3 q3.

(** Two threads inside [nativeRegister] on the same context.  A thread
    has its own [JNIEnv] (local references, pending exception); the table
    of global references belongs to the process. *)
Record RegisterThread := { env : JavaVM; state : RegisterState }.

Record Machine := {
  shared : QuickJsContext;
  first : RegisterThread;
  second : RegisterThread;
}.

(** The context as a thread sees it: through its own [JNIEnv]. *)
Definition threadView (e : JavaVM) (q : QuickJsContext) : QuickJsContext :=
  set_vm (set_globalRefs (globalRefs (vm q)) e) q.

Definition threadStep (t : RegisterThread) (q : QuickJsContext)
  : RegisterThread * QuickJsContext :=
  let '(s, q') := registerStep (state t) (threadView (env t) q) in
  ({| env := vm q'; state := s |}, q').

(** The scheduler lets one thread run its next block: [false] the first
    thread, [true] the second.  The mutex makes the locked blocks
    exclusive; the unlocked stretches are taken as one step each. *)
Definition machineStep (M : Machine) (who : bool) : Machine :=
  if who then
    let '(t, q) := threadStep (second M) (shared M) in
    {| shared := q; first := first M; second := t |}
  else
    let '(t, q) := threadStep (first M) (shared M) in
    {| shared := q; first := t; second := second M |}.

Definition runSchedule (schedule : list bool) (M : Machine) : Machine :=
  foldl machineStep M schedule.

(** ** What the design document's words mean on this model *)

(** Script value to host value and back. *)
Definition roundTrip (E : Engine) (kind : ValueKind) (value : JSValue) (v : JavaVM)
  : option JSValue :=
  convertJavaToJs kind (fst (convertJsToJava E kind value v)).

(** The script values a kind can carry without loss: a string free of NUL
    characters or null; a boolean; a Number that denotes a 32-bit (64-bit)
    integer; any Number. *)
Definition in_range (kind : ValueKind) (value : JSValue) : Prop :=
  match kind, value with
  | kString, JS_NULL => True
  | kString, JS_String s => NUL_free s = true
  | kBoolean, JS_Bool _ => True
  | kInt, JS_Number d => ∃ z, Binary64.to_Z d = Some z ∧ in_int32 z
  | kLong, JS_Number d =>
      valid_binary 53 1024 d = true ∧ ∃ z, Binary64.to_Z d = Some z ∧ in_int64 z
  | kDouble, JS_Number _ => True
  | _, _ => False
  end.

(** Two script values carry the same value of a kind: the same integer for
    the integer kinds, the same value otherwise. *)
Definition same_value (kind : ValueKind) (a b : JSValue) : Prop :=
  match kind, a, b with
  | (kInt | kLong), JS_Number x, JS_Number y =>
      ∃ z, Binary64.to_Z x = Some z ∧ Binary64.to_Z y = Some z
  | _, _, _ => a = b
  end.


(** The classification of a class descriptor, as a table on class names. *)
Definition kindOfClassName (name : string) : ValueKind :=
  if String.eqb name "java/lang/String" then kString
  else if String.eqb name "java/lang/Boolean" || String.eqb name "boolean" then kBoolean
  else if String.eqb name "java/lang/Integer" || String.eqb name "int" then kInt
  else if String.eqb name "java/lang/Long" || String.eqb name "long" then kLong
  else if String.eqb name "java/lang/Double" || String.eqb name "double" then kDouble
  else kVoid.


(** The handles of the non-null references of a list. *)
Definition handlesOf (l : list jobject) : gset nat :=
  list_to_set (omap (fmap handle) l).

(** The value [fn] is what a script reads at [objectName.methodName]. *)
Definition scriptReads (ctx : JSContext) (objectName methodName : string) (fn : JSValue)
  : Prop :=
  ∃ r props, globalObject ctx !! objectName = Some (JS_Object r)
             ∧ heap ctx !! r = Some props ∧ props !! methodName = Some fn.

(** What a script reads at [objectName.methodName] is a function made by
    [JS_NewCFunctionMagic] with the data [fn]. *)
Definition scriptCalls (ctx : JSContext) (objectName methodName : string)
    (fn : NativeFunction) : Prop :=
  ∃ r, scriptReads ctx objectName methodName (JS_Object r) ∧ functions ctx !! r = Some fn.

(** The calls that reach the bridge: a registration from the host, and a
    call of a bound function from a script. *)
Inductive BridgeCall :=
| Register (f : EngineFaults) (objectName methodName : option string)
    (method instance : jobject) (parameterTypes : option (list jobject))
    (returnType : jobject)
| Invoke (argv : list JSValue) (magic : Z).

(** When a native method returns, the exception it left pending is
    delivered to its Java caller and is pending no more. *)
Definition returnToJava (q : QuickJsContext) : QuickJsContext :=
  set_vm (set_pendingException None (vm q)) q.

Definition perform (E : Engine) (H : Host) (c : BridgeCall) (q : QuickJsContext)
  : option QuickJsContext :=
  match c with
  | Register f objectName methodName method instance parameterTypes returnType =>
      Some (returnToJava
              (Java_io_ton_walletkit_quickjs_QuickJs_nativeRegister
                 f objectName methodName method instance parameterTypes returnType q))
  | Invoke argv magic => snd <$> methodDispatcher E H argv magic q
  end.

Fixpoint performAll (E : Engine) (H : Host) (cs : list BridgeCall) (q : QuickJsContext)
  : option QuickJsContext :=
  match cs with
  | [] => Some q
  | c :: rest => q' ← perform E H c q; performAll E H rest q'
  end.

(** Two states with the same registry, counter, history and cached
    classes. *)
Definition same_registry (q q' : QuickJsContext) : Prop :=
  bindings q' = bindings q ∧ nextBindingId q' = nextBindingId q
  ∧ assigned q' = assigned q ∧ refs q' = refs q.

(** While fewer than [INT_MAX] identifiers have been handed out, they are
    1, 2, ... in this order and the counter is the next one. *)
Definition counter_inv (q : QuickJsContext) : Prop :=
  Z.of_nat (length (assigned q)) < INT_MAX →
  nextBindingId q = 1 + Z.of_nat (length (assigned q))
  ∧ assigned q = seqZ 1 (Z.of_nat (length (assigned q))).

(** The registry invariant: identifiers in use lie between 1 and the
    counter. *)
Definition registry_wf (q : QuickJsContext) : Prop :=
  1 <= nextBindingId q ∧ ∀ k, is_Some (bindings q !! k) → 1 <= k < nextBindingId q.

(** The account of the identifiers two registering threads hold: the
    counter has advanced once for each, and they lie between its value
    [n0] at the start and its present value, and differ. *)
Definition identifier_inv (n0 : Z) (M : Machine) : Prop :=
  let n := nextBindingId (shared M) in
  let a := identifierOf (state (first M)) in
  let b := identifierOf (state (second M)) in
  n = n0 + match a with Some _ => 1 | None => 0 end
         + match b with Some _ => 1 | None => 0 end
  ∧ (∀ x, a = Some x → n0 <= x < n)
  ∧ (∀ y, b = Some y → n0 <= y < n)
  ∧ (∀ x y, a = Some x → b = Some y → x ≠ y).

(** Sample data for the worked examples. *)
Definition sampleVM : JavaVM :=
  {| localRefs := ∅; globalRefs := ∅; pendingException := None; envStatus := JNI_OK |}.

Definition sampleEngine : Engine :=
  {| slowToNumber := λ _, None; slowToString := λ _, None |}.

Definition classRef (name : string) : jobject :=
  Some {| handle := 100; target := JClass name |}.

Definition methodRef (m : nat) : jobject :=
  Some {| handle := 101; target := JMethod m |}.

(** Method 0 adds two ints, method 1 always throws "boom", method 2
    accepts one string and returns nothing. *)
Definition sampleHost : Host := λ m receiver args,
  match m, args with
  | 0%nat, [Some (JInteger a); Some (JInteger b)] =>
      Returns (Some (JInteger (wrap 32 (a + b))))
  | 1%nat, _ => Throws (Raised "java/lang/RuntimeException" (MsgText "boom"))
  | 2%nat, [_] => Returns None
  | _, _ =>
      InvokeFails (Raised "java/lang/IllegalArgumentException"
                          (MsgText "wrong number of arguments"))
  end.

Definition sampleContext : QuickJsContext :=
  Java_io_ton_walletkit_quickjs_QuickJs_nativeCreate sampleVM.

(** The bindings of the three sample methods. *)
Definition calculatorAdd : MethodBinding :=
  {| id := 1; objectName := "Calculator"; methodName := "add";
     method := methodRef 0; instance := None;
     parameterKinds := [kInt; kInt]; returnKind := kInt |}.

Definition svcFail : MethodBinding :=
  {| id := 2; objectName := "Svc"; methodName := "fail";
     method := methodRef 1; instance := None;
     parameterKinds := []; returnKind := kString |}.

Definition printerLog : MethodBinding :=
  {| id := 3; objectName := "Printer"; methodName := "log";
     method := methodRef 2; instance := None;
     parameterKinds := [kString]; returnKind := kVoid |}.

(** A sample session: two registrations that succeed, one that fails while
    the function is attached, and a script call. *)
Definition sampleCalls : list BridgeCall :=
  [ Register noFaults (Some "Calculator"%string) (Some "add"%string) (methodRef 0) None
      (Some [classRef "int"; classRef "int"]) (classRef "int");
    Register {| failNewObject := false; failSetProperty := false;
                failNewCFunction := false; failDefineProperty := true;
                refuseDefineProperty := false |}
      (Some "Svc"%string) (Some "fail"%string) (methodRef 1) None
      (Some []) (classRef "java/lang/String");
    Register noFaults (Some "Printer"%string) (Some "log"%string) (methodRef 2)
      (Some {| handle := 7; target := JInstance 1 |})
      (Some [classRef "java/lang/String"]) (classRef "void");
    Invoke [JS_NewInt32 2; JS_NewInt32 3] 1 ].

Definition sampleFinal : QuickJsContext :=
  default sampleContext (performAll sampleEngine sampleHost sampleCalls sampleContext).

(** The sample context after [Calculator.add] is registered and called. *)
Definition sampleMiddle : QuickJsContext :=
  default sampleContext
    (performAll sampleEngine sampleHost [Invoke [JS_NewInt32 2; JS_NewInt32 3] 1]
       (returnToJava
          (Java_io_ton_walletkit_quickjs_QuickJs_nativeRegister noFaults
             (Some "Calculator"%string) (Some "add"%string) (methodRef 0) None
             (Some [classRef "int"; classRef "int"]) (classRef "int") sampleContext))).

(** Two threads register [Calculator.add] and [Printer.log] on the
    sample context; the second thread is first in the locked block. *)
Definition sampleMachine : Machine :=
  {| shared := sampleMiddle;
     first := {| env := sampleVM;
                 state := Called noFaults (Some "Calculator"%string) (Some "add"%string)
                            (methodRef 0) None (Some [classRef "int"; classRef "int"])
                            (classRef "int") |};
     second := {| env := sampleVM;
                  state := Called noFaults (Some "Printer"%string) (Some "log"%string)
                             (methodRef 2) (Some {| handle := 7; target := JInstance 1 |})
                             (Some [classRef "java/lang/String"]) (classRef "void") |} |}.

Definition sampleSchedule : list bool :=
  [false; true; true; false; false; true].

(** ** Evaluation entry points *)

Definition JS_IsString (v : JSValue) : bool :=
  match v with JS_String _ => true | _ => false end.
Definition JS_IsNumber (v : JSValue) : bool :=
  match v with JS_Number _ => true | _ => false end.
Definition JS_IsBool (v : JSValue) : bool :=
  match v with JS_Bool _ => true | _ => false end.

(** [JS_GetPropertyStr] on an arbitrary value: an object gives its
    property or [undefined]; reading a property of [null] or [undefined]
    raises; the other values have no property of the names the bridge
    asks for. *)
Definition JS_GetPropertyStr (ctx : JSContext) (this_obj : JSValue) (prop : string)
  : JSValue :=
  match this_obj with
  | JS_Object r => default JS_UNDEFINED (heap ctx !! r ≫= λ props, props !! prop)
  | JS_NULL | JS_UNDEFINED | JS_EXCEPTION => JS_EXCEPTION
  | _ => JS_UNDEFINED
  end.

Definition evaluationFailedMessage : string := "QuickJS evaluation failed".

(** [jsExceptionToString].  The text is copied out of a NUL-terminated
    buffer ([message.assign(chars)]). *)
Definition jsExceptionToString (E : Engine) (ctx : JSContext) (exception : JSValue)
  : string :=
  let messageValue := JS_GetPropertyStr ctx exception "message" in
  let message :=
    if negb (JS_IsException messageValue) && negb (JS_IsUndefined messageValue) then
      match JS_ToCString E messageValue with
      | Some messageChars => c_str messageChars
      | None => ""
      end
    else "" in
  let message :=
    if bool_decide (message = "") then
      match JS_ToCString E exception with
      | Some fallback => c_str fallback
      | None => message
      end
    else message in
  if bool_decide (message = "") then evaluationFailedMessage else message.

(** The [jlong] the host keeps: 0 once the runtime is destroyed, else the
    address of the context.  With a null pointer only the calling
    thread's JNI state is at hand. *)
Inductive Pointer :=
| NullPointer (env : JavaVM)
| ContextPointer (q : QuickJsContext).

(** [JavaRefs{}]: nothing cached. *)
Definition noRefs : JavaRefs :=
  {| methodClass := None; stringClass := None; booleanClass := None;
     booleanTypeClass := None; integerClass := None; integerTypeClass := None;
     longClass := None; longTypeClass := None; doubleClass := None;
     doubleTypeClass := None; voidTypeClass := None; objectClass := None;
     throwableClass := None; quickJsExceptionClass := None |}.

Definition destroyedMessage : string := "QuickJs runtime has been destroyed".

(** What running a script does is the engine's business: [JS_Eval] yields
    a value, or the exception marker together with the exception that
    [JS_GetException] hands out, and the state the run leaves (it may
    have called bound functions). *)
Inductive EvalOutcome :=
| EvalValue (result : JSValue)
| EvalThrows (exception : JSValue).

Definition Script := QuickJsContext → EvalOutcome * QuickJsContext.

(** [nativeEvaluate], the script and file name being readable. *)
Definition Java_io_ton_walletkit_quickjs_QuickJs_nativeEvaluate (E : Engine)
    (script : Script) (pointer : Pointer) : jobject * Pointer :=
  match pointer with
  | NullPointer env =>
      (None, NullPointer (throwQuickJsException noRefs destroyedMessage env))
  | ContextPointer q =>
      let '(outcome, q1) := script q in
      match outcome with
      | EvalThrows exception =>
          let message := jsExceptionToString E (context q1) exception in
          (None, ContextPointer (set_vm (throwQuickJsException (refs q1) message (vm q1)) q1))
      | EvalValue result =>
          if negb (JS_IsUndefined result) && negb (JS_IsNull result) then
            if JS_IsString result then
              let '(javaResult, v) := convertJsToJava E kString result (vm q1) in
              (javaResult, ContextPointer (set_vm v q1))
            else if JS_IsNumber result then
              let '(javaResult, v) := convertJsToJava E kDouble result (vm q1) in
              (javaResult, ContextPointer (set_vm v q1))
            else if JS_IsBool result then
              let '(javaResult, v) := convertJsToJava E kBoolean result (vm q1) in
              (javaResult, ContextPointer (set_vm v q1))
            else (None, ContextPointer q1)
          else (None, ContextPointer q1)
      end
  end.

(** Outcome of [JS_ExecutePendingJob]: its return value and, when a job
    ran, the exception its context holds. *)
Definition PendingJob := QuickJsContext → (Z * option JSValue) * QuickJsContext.

Definition pendingJobFailedMessage : string := "JS_ExecutePendingJob failed".

(** [nativeExecutePendingJob], the runtime being initialised. *)
Definition Java_io_ton_walletkit_quickjs_QuickJs_nativeExecutePendingJob (E : Engine)
    (job : PendingJob) (pointer : Pointer) : Z * Pointer :=
  match pointer with
  | NullPointer env =>
      (-1, NullPointer (throwQuickJsException noRefs destroyedMessage env))
  | ContextPointer q =>
      let '((result, jobContext), q1) := job q in
      if result <? 0 then
        let message :=
          match jobContext with
          | Some exception => jsExceptionToString E (context q1) exception
          | None => pendingJobFailedMessage
          end in
        (-1, ContextPointer (set_vm (throwQuickJsException (refs q1) message (vm q1)) q1))
      else (result, ContextPointer q1)
  end.

(** ** Further notions used by the properties below *)

(** The handles of the cached class references. *)
Definition classHandles (r : JavaRefs) : gset nat :=
  handlesOf [methodClass r; stringClass r; booleanClass r; booleanTypeClass r;
             integerClass r; integerTypeClass r; longClass r; longTypeClass r;
             doubleClass r; doubleTypeClass r; voidTypeClass r; objectClass r;
             throwableClass r; quickJsExceptionClass r].

(** The handles of the host references the bindings of a registry own. *)
Definition bindingHandles (m : gmap Z MethodBinding) : gset nat :=
  ⋃ ((λ kb, handlesOf [method (snd kb); instance (snd kb)]) <$> map_to_list m).

(** The host values a kind carries to a script and back without loss. *)
Definition host_in_range (kind : ValueKind) (o : JObject) : Prop :=
  match kind, o with
  | kString, JString s => c_str s = s
  | kBoolean, JBoolean _ => True
  | kInt, JInteger i => in_int32 i
  | kLong, JLong l => in_int64 l ∧ Binary64.representable l
  | kDouble, JDouble _ => True
  | _, _ => False
  end.

(** The argument list a call really uses: cut or padded with [undefined]
    to the number of parameters. *)
Definition effectiveArguments (n : nat) (argv : list JSValue) : list JSValue :=
  take n (argv ++ replicate n JS_UNDEFINED).

(** Global references are accounted for: those present before the context
    was created ([G0]), and those the context owns. *)
Definition owned_inv (G0 : gset nat) (q : QuickJsContext) : Prop :=
  registry_wf q
  ∧ G0 ## classHandles (refs q) ∪ bindingHandles (bindings q)
  ∧ globalRefs (vm q) = G0 ∪ classHandles (refs q) ∪ bindingHandles (bindings q).

(** * Facts *)

(** ** Binary64: rounding an integer *)

Module Binary64Facts.
Import Binary64.

Lemma iter_pos_iter {A} (f : A → A) n x : iter_pos f n x = Pos.iter f x n.
Proof.
  revert x. induction n as [n IH|n IH|]; intros x; simpl; auto.
  - rewrite !IH. rewrite <- !Pos.iter_swap. reflexivity.
  - rewrite !IH. reflexivity.
Qed.

Lemma pos_iter_xO p k : Z.pos (Pos.iter xO p k) = Z.pos p * 2 ^ Z.pos k.
Proof.
  induction k as [|k IH] using Pos.peano_ind.
  - simpl. lia.
  - rewrite Pos.iter_succ. change (Z.pos (Pos.iter xO p k)~0) with (2 * Z.pos (Pos.iter xO p k)).
    rewrite IH, Pos2Z.inj_succ, Z.pow_succ_r by lia. ring.
Qed.

Lemma digits2_bounds p :
  2 ^ (Z.pos (digits2_pos p) - 1) <= Z.pos p < 2 ^ Z.pos (digits2_pos p).
Proof.
  induction p as [p IH|p IH|]; simpl digits2_pos.
  - rewrite Pos2Z.inj_succ. change (Z.pos p~1) with (2 * Z.pos p + 1).
    replace (Z.succ (Z.pos (digits2_pos p)) - 1) with (Z.succ (Z.pos (digits2_pos p) - 1)) by lia.
    rewrite !Z.pow_succ_r; [|lia..]. lia.
  - rewrite Pos2Z.inj_succ. change (Z.pos p~0) with (2 * Z.pos p).
    replace (Z.succ (Z.pos (digits2_pos p)) - 1) with (Z.succ (Z.pos (digits2_pos p) - 1)) by lia.
    rewrite !Z.pow_succ_r; [|lia..]. lia.
  - simpl. lia.
Qed.

Lemma digits2_unique p n :
  2 ^ (n - 1) <= Z.pos p < 2 ^ n → Z.pos (digits2_pos p) = n.
Proof.
  intros [Hl Hu]. destruct (digits2_bounds p) as [Hl' Hu'].
  assert (0 < n).
  { destruct (Z.lt_trichotomy n 0) as [?|[->|?]]; [|simpl in Hu; lia|lia].
    rewrite Z.pow_neg_r in Hu by lia. lia. }
  destruct (Z.lt_trichotomy (Z.pos (digits2_pos p)) n) as [Hlt|[?|Hgt]]; [|done|].
  - assert (2 ^ Z.pos (digits2_pos p) <= 2 ^ (n - 1)) by (apply Z.pow_le_mono_r; lia). lia.
  - assert (2 ^ n <= 2 ^ (Z.pos (digits2_pos p) - 1)) by (apply Z.pow_le_mono_r; lia). lia.
Qed.

Lemma shr_exact q k :
  Pos.iter shr_1 {| shr_m := Z.pos (Pos.iter xO q k); shr_r := false; shr_s := false |} k
  = {| shr_m := Z.pos q; shr_r := false; shr_s := false |}.
Proof.
  induction k as [|k IH] using Pos.peano_ind.
  - reflexivity.
  - rewrite Pos.iter_succ_r, Pos.iter_succ. simpl. exact IH.
Qed.


Lemma binary_round_aux_exact s m e :
  Z.pos (digits2_pos m) = prec → -1074 <= e <= emax - prec →
  binary_round_aux prec emax s (Z.pos m) e loc_Exact = S754_finite s m e.
Proof.
  intros Hm He.
  assert (Hsh : fexp 53 1024 (Z.pos (digits2_pos m) + e) - e = 0).
  { unfold fexp, emin. rewrite Hm. lia. }
  unfold binary_round_aux, shr_fexp. simpl Zdigits2. rewrite Hsh. simpl.
  rewrite Hsh. simpl.
  rewrite (proj2 (Z.leb_le e (1024 - 53))) by lia. reflexivity.
Qed.

(** Rounding a positive integer that fits the 53-bit significand is exact. *)
Lemma binary_round_small s p :
  Z.pos (digits2_pos p) <= prec →
  to_Z (binary_round prec emax s p 0) = Some (cond_Zopp s (Z.pos p)).
Proof.
  intros Hn. unfold binary_round, shl_align, fexp, emin in *.
  pose proof (digits2_bounds p) as [Hl Hu].
  remember (Z.pos (digits2_pos p)) as n eqn:En.
  assert (Hnpos : 0 < n) by lia.
  rewrite Z.add_0_r, Z.sub_0_r.
  rewrite Z.max_l by lia.
  destruct (n - 53) as [|d|d] eqn:Hd; [| lia |].
  - rewrite (binary_round_aux_exact s p 0) by lia.
    simpl. rewrite Z.mul_1_r. reflexivity.
  - assert (Hdig : Z.pos (digits2_pos (Pos.iter xO p d)) = 53).
    { apply digits2_unique. rewrite pos_iter_xO.
      assert (E1 : 2 ^ (53 - 1) = 2 ^ (n - 1) * 2 ^ Z.pos d)
        by (rewrite <- Z.pow_add_r by lia; f_equal; lia).
      assert (E2 : 2 ^ 53 = 2 ^ n * 2 ^ Z.pos d)
        by (rewrite <- Z.pow_add_r by lia; f_equal; lia).
      rewrite E1, E2.
      assert (0 < 2 ^ Z.pos d) by (apply Z.pow_pos_nonneg; lia). nia. }
    change (@PosDef.Pos.iter) with (@Pos.iter).
    rewrite binary_round_aux_exact; [|exact Hdig|lia].
    unfold to_Z. 
    change (0 <=? Z.neg d) with false. cbv iota.
    change (- Z.neg d) with (Z.pos d). rewrite pos_iter_xO.
    assert (0 < 2 ^ Z.pos d) by (apply Z.pow_pos_nonneg; lia).
    rewrite Z.mod_mul by lia. simpl. rewrite Z.div_mul by lia. reflexivity.
Qed.

(** Rounding a larger integer whose low bits are zero is exact as well. *)
Lemma binary_round_large s p k :
  Z.pos (digits2_pos p) = prec + Z.pos k → Z.pos k <= emax - prec →
  (2 ^ Z.pos k | Z.pos p) →
  to_Z (binary_round prec emax s p 0) = Some (cond_Zopp s (Z.pos p)).
Proof.
  intros Hn Hk [q Hq].
  assert (Hpow : 0 < 2 ^ Z.pos k) by (apply Z.pow_pos_nonneg; lia).
  assert (Hqpos : 0 < q) by nia.
  destruct q as [|q|q]; try lia.
  assert (Hp : p = Pos.iter xO q k).
  { apply Pos2Z.inj. rewrite pos_iter_xO. exact Hq. }
  assert (Hdq : Z.pos (digits2_pos q) = 53).
  { apply digits2_unique. destruct (digits2_bounds p) as [Hl Hu].
    rewrite Hn, Hq in Hl, Hu.
    replace (53 + Z.pos k - 1) with (52 + Z.pos k) in Hl by lia.
    rewrite Z.pow_add_r in Hl, Hu by lia. simpl (53 - 1). nia. }
  unfold binary_round, shl_align, fexp, emin.
  rewrite Z.add_0_r, Z.sub_0_r, Hn.
  rewrite Z.max_l by lia.
  replace (53 + Z.pos k - 53) with (Z.pos k) by lia.
  unfold binary_round_aux. unfold shr_fexp at 1. simpl Zdigits2.
  rewrite Hn. unfold fexp, emin. rewrite Z.add_0_r, Z.sub_0_r, Z.max_l by lia.
  replace (53 + Z.pos k - 53) with (Z.pos k) by lia.
  unfold shr, shr_record_of_loc. rewrite iter_pos_iter, Hp, shr_exact.
  simpl loc_of_shr_record. simpl round_nearest_even. rewrite Z.add_0_l.
  assert (Hsh : fexp 53 1024 (Z.pos (digits2_pos q) + Z.pos k) - Z.pos k = 0).
  { unfold fexp, emin. rewrite Hdq. lia. }
  unfold shr_fexp. simpl Zdigits2. rewrite Hsh. simpl shr. cbv iota. simpl shr_m.
  rewrite (proj2 (Z.leb_le (Z.pos k) (1024 - 53))) by lia.
  simpl to_Z. rewrite pos_iter_xO. reflexivity.
Qed.

Lemma of_Z_exact z : representable z → to_Z (of_Z z) = Some z.
Proof.
  intros (m & e & He & Hm & Hz & Hmax). unfold of_Z, binary_normalize.
  assert (Hgen : ∀ s p, Z.pos p = Z.abs z →
     to_Z (binary_round 53 1024 s p 0) = Some (cond_Zopp s (Z.pos p))).
  { intros s p Hp. pose proof (digits2_bounds p) as [Hl Hu].
    destruct (Z_le_gt_dec (Z.pos (digits2_pos p)) 53) as [Hs|Hb].
    - apply binary_round_small; assumption.
    - remember (Z.pos (digits2_pos p) - 53) as k eqn:Ek.
      destruct k as [|k|k]; try lia.
      assert (Hpe : 0 < 2 ^ e) by (apply Z.pow_pos_nonneg; lia).
      assert (Hke : Z.pos k <= e).
      { destruct (Z_le_gt_dec (Z.pos k) e) as [?|Hgt]; [assumption|exfalso].
        assert (Z.abs z < 2 ^ 53 * 2 ^ e).
        { rewrite Hz, Z.abs_mul, (Z.abs_eq (2 ^ e)) by lia. nia. }
        assert (2 ^ (53 + e) <= 2 ^ (Z.pos (digits2_pos p) - 1))
          by (apply Z.pow_le_mono_r; lia).
        rewrite Z.pow_add_r in * by lia. lia. }
      assert (Hdn : Z.pos (digits2_pos p) <= 1024).
      { destruct (Z_le_gt_dec (Z.pos (digits2_pos p)) 1024) as [?|Hgt]; [assumption|exfalso].
        assert (2 ^ 1024 <= 2 ^ (Z.pos (digits2_pos p) - 1))
          by (apply Z.pow_le_mono_r; lia).
        lia. }
      apply (binary_round_large s p k); [lia | lia |].
      rewrite Hp, Hz, Z.abs_mul, (Z.abs_eq (2 ^ e)) by lia.
      exists (Z.abs m * 2 ^ (e - Z.pos k)).
      rewrite <- Z.mul_assoc, <- Z.pow_add_r by lia. do 2 f_equal. lia. }
  destruct z as [|p|p].
  - reflexivity.
  - apply (Hgen false p). reflexivity.
  - apply (Hgen true p). reflexivity.
Qed.

Lemma small_representable z : Z.abs z <= 2 ^ 53 → representable z.
Proof.
  intros Hz. destruct (Z_lt_le_dec (Z.abs z) (2 ^ 53)) as [Hlt|Hge].
  - exists z, 0. repeat split; lia.
  - assert (Habs : Z.abs z = 2 ^ 53) by lia.
    exists (Z.sgn z * 2 ^ 52), 1. repeat split; lia.
Qed.

Lemma trunc_to_Z d z : to_Z d = Some z → trunc d = z.
Proof.
  destruct d as [s| | |s m e]; simpl; try congruence.
  destruct (0 <=? e); [congruence|].
  destruct (Z.pos m mod 2 ^ (- e) =? 0); congruence.
Qed.

(** A valid double that denotes an integer denotes a representable one. *)
Lemma valid_representable d z :
  valid_binary 53 1024 d = true → to_Z d = Some z → Z.abs z < 2 ^ 1024 → representable z.
Proof.
  destruct d as [s| | |s m e]; simpl; try congruence.
  - intros _ [= <-] _. exists 0, 0. repeat split; simpl; lia.
  - unfold bounded, canonical_mantissa, fexp, emin.
    intros Hv%andb_prop Hz Hmax. destruct Hv as [Hc%Z.eqb_eq _].
    pose proof (digits2_bounds m) as [_ Hu].
    assert (Hm : Z.pos m < 2 ^ 53).
    { assert (2 ^ Z.pos (digits2_pos m) <= 2 ^ 53) by (apply Z.pow_le_mono_r; lia). lia. }
    destruct (0 <=? e) eqn:He.
    + apply Z.leb_le in He. injection Hz as <-.
      exists (cond_Zopp s (Z.pos m)), e. repeat split; try assumption.
      * destruct s; simpl; lia.
      * destruct s; simpl; lia.
    + apply Z.leb_gt in He.
      destruct (Z.pos m mod 2 ^ (- e) =? 0) eqn:Hd; [|congruence]. injection Hz as <-.
      assert (0 < 2 ^ (- e)) by (apply Z.pow_pos_nonneg; lia).
      assert (0 <= Z.pos m / 2 ^ (- e) <= Z.pos m).
      { split; [apply Z.div_pos; lia|]. apply Z.div_le_upper_bound; nia. }
      exists (cond_Zopp s (Z.pos m / 2 ^ (- e))), 0. repeat split; try lia.
      * destruct s; simpl; lia.
Qed.

End Binary64Facts.

(** ** Binary64: rounding an integer that does not fit the significand *)

Module Binary64Rounding.
Import Binary64 Binary64Facts.

Lemma shr_1_nonneg m r s :
  0 <= m →
  shr_1 {| shr_m := m; shr_r := r; shr_s := s |}
  = {| shr_m := m / 2; shr_r := Z.odd m; shr_s := r || s |}.
Proof.
  intros Hm. rewrite <- Z.div2_div.
  destruct m as [|[p|p|]|p]; try reflexivity. lia.
Qed.

Lemma mod_pow2_succ m j :
  0 <= j → m mod 2 ^ (j + 1) = m mod 2 ^ j + 2 ^ j * ((m / 2 ^ j) mod 2).
Proof.
  intros Hj. rewrite Z.pow_add_r, Z.pow_1_r by lia.
  apply Z.rem_mul_r; [|lia].
  apply Z.pow_nonzero; lia.
Qed.

(** Shifting out [k] bits keeps the quotient, the last bit shifted out
    and whether any bit before it was set. *)
Lemma shr_iter m (k : nat) :
  0 <= m →
  Nat.iter (S k) shr_1 {| shr_m := m; shr_r := false; shr_s := false |}
  = {| shr_m := m / 2 ^ Z.of_nat (S k);
       shr_r := Z.odd (m / 2 ^ Z.of_nat k);
       shr_s := negb (m mod 2 ^ Z.of_nat k =? 0) |}.
Proof.
  intros Hm. induction k as [|k IH].
  - change (Nat.iter 1 shr_1 ?x) with (shr_1 x). rewrite shr_1_nonneg by assumption.
    change (Z.of_nat 1) with 1. change (Z.of_nat 0) with 0.
    rewrite Z.pow_1_r, Z.pow_0_r, Z.div_1_r, Z.mod_1_r. reflexivity.
  - change (Nat.iter (S (S k)) shr_1 ?x) with (shr_1 (Nat.iter (S k) shr_1 x)).
    rewrite IH.
    assert (Hp : 0 < 2 ^ Z.of_nat k) by (apply Z.pow_pos_nonneg; lia).
    assert (Hp' : 0 < 2 ^ Z.of_nat (S k)) by (apply Z.pow_pos_nonneg; lia).
    rewrite shr_1_nonneg by (apply Z.div_pos; lia).
    f_equal.
    + rewrite Z.div_div by lia. f_equal.
      rewrite (Nat2Z.inj_succ (S k)), Z.pow_succ_r by lia. lia.
    + rewrite (Nat2Z.inj_succ k). unfold Z.succ.
      rewrite mod_pow2_succ by lia.
      pose proof (Z.mod_pos_bound m (2 ^ Z.of_nat k) Hp) as Hb.
      rewrite Zmod_odd.
      destruct (Z.odd (m / 2 ^ Z.of_nat k)); simpl.
      * symmetry. apply negb_true_iff, Z.eqb_neq. lia.
      * rewrite Z.mul_0_r, Z.add_0_r. reflexivity.
Qed.

(** The second normalisation of [binary_round_aux]: a significand that
    the increment carried to 2^53 is shifted once more. *)
Lemma round_final s c k :
  2 ^ 52 <= c <= 2 ^ 53 → 0 < k → k + 1 <= emax - prec →
  to_Z (let '(mrs'', e'') := shr_fexp prec emax c k loc_Exact in
        match shr_m mrs'' with
        | Z0 => S754_zero s
        | Z.pos m => if e'' <=? emax - prec then S754_finite s m e'' else S754_infinity s
        | Z.neg _ => S754_nan
        end)
  = Some (cond_Zopp s (c * 2 ^ k)).
Proof.
  intros Hc Hk Hmax. destruct c as [|cp|cp]; try lia.
  destruct (Z_lt_le_dec (Z.pos cp) (2 ^ 53)) as [Hlt|Hge].
  - assert (Hd : Z.pos (digits2_pos cp) = 53) by (apply digits2_unique; simpl; lia).
    unfold shr_fexp. simpl Zdigits2. rewrite Hd. unfold fexp, emin.
    replace (Z.max (53 + k - 53) (3 - 1024 - 53) - k) with 0 by lia.
    simpl shr. cbv iota beta. simpl shr_m.
    rewrite (proj2 (Z.leb_le k (1024 - 53))) by lia.
    unfold to_Z. rewrite (proj2 (Z.leb_le 0 k)) by lia. reflexivity.
  - assert (Hcp : cp = 9007199254740992%positive) by lia.
    assert (Hd : Z.pos (digits2_pos cp) = 54) by (subst cp; reflexivity).
    unfold shr_fexp. unfold Zdigits2. rewrite Hd. unfold fexp, emin.
    replace (Z.max (54 + k - 53) (3 - 1024 - 53) - k) with 1 by lia.
    subst cp. simpl shr. cbv iota beta. simpl shr_m.
    rewrite (proj2 (Z.leb_le (k + 1) (1024 - 53))) by lia.
    unfold to_Z. rewrite (proj2 (Z.leb_le 0 (k + 1))) by lia.
    rewrite Z.pow_add_r, Z.pow_1_r by lia. do 2 f_equal. lia.
Qed.

(** Rounding a positive integer of [53 + k] bits: the result is a multiple
    of 2^k at most half of 2^k away, the even multiple on a tie. *)
Lemma binary_round_inexact s p k :
  Z.pos (digits2_pos p) = prec + Z.pos k → Z.pos k + 1 <= emax - prec →
  ∃ c, to_Z (binary_round prec emax s p 0) = Some (cond_Zopp s (c * 2 ^ Z.pos k))
       ∧ 2 ^ 52 <= c <= 2 ^ 53
       ∧ (c = Z.pos p / 2 ^ Z.pos k ∨ c = Z.pos p / 2 ^ Z.pos k + 1)
       ∧ 2 * Z.abs (c * 2 ^ Z.pos k - Z.pos p) <= 2 ^ Z.pos k
       ∧ (2 * Z.abs (c * 2 ^ Z.pos k - Z.pos p) = 2 ^ Z.pos k → Z.even c = true).
Proof.
  intros Hn Hk.
  destruct (Pos2Nat.is_succ k) as [k' Hk'].
  assert (HkZ : Z.pos k = Z.of_nat (S k')) by (rewrite <- Hk'; symmetry; apply positive_nat_Z).
  set (A := 2 ^ Z.of_nat k').
  assert (HA : 0 < A) by (apply Z.pow_pos_nonneg; lia).
  assert (HB : 2 ^ Z.pos k = 2 * A).
  { rewrite HkZ, Nat2Z.inj_succ, Z.pow_succ_r by lia. reflexivity. }
  destruct (digits2_bounds p) as [Hl Hu]. rewrite Hn in Hl, Hu.
  replace (53 + Z.pos k - 1) with (52 + Z.pos k) in Hl by lia.
  rewrite Z.pow_add_r, HB in Hl, Hu by lia.
  pose proof (Z.div_mod (Z.pos p) (2 * A) ltac:(lia)) as Hdm.
  pose proof (Z.mod_pos_bound (Z.pos p) (2 * A) ltac:(lia)) as Hrem.
  pose proof (mod_pow2_succ (Z.pos p) (Z.of_nat k') ltac:(lia)) as Hsplit.
  replace (Z.of_nat k' + 1) with (Z.pos k) in Hsplit by lia.
  rewrite HB in Hsplit. fold A in Hsplit.
  pose proof (Z.mod_pos_bound (Z.pos p) A HA) as Hlo.
  rewrite Zmod_odd in Hsplit.
  set (q := Z.pos p / (2 * A)) in *.
  assert (Hq : 2 ^ 52 <= q < 2 ^ 53) by (split; nia).
  unfold binary_round, shl_align, fexp, emin.
  rewrite Z.add_0_r, Z.sub_0_r, Hn.
  rewrite Z.max_l by lia.
  replace (53 + Z.pos k - 53) with (Z.pos k) by lia.
  unfold binary_round_aux. unfold shr_fexp at 1. simpl Zdigits2.
  rewrite Hn. unfold fexp, emin. rewrite Z.add_0_r, Z.sub_0_r, Z.max_l by lia.
  replace (53 + Z.pos k - 53) with (Z.pos k) by lia.
  unfold shr at 1, shr_record_of_loc.
  assert (Hiter : Pos.iter shr_1 {| shr_m := Z.pos p; shr_r := false; shr_s := false |} k
                  = {| shr_m := Z.pos p / 2 ^ Z.of_nat (S k');
                       shr_r := Z.odd (Z.pos p / 2 ^ Z.of_nat k');
                       shr_s := negb (Z.pos p mod 2 ^ Z.of_nat k' =? 0) |}).
  { rewrite Pos2Nat.inj_iter, Hk'. apply (shr_iter (Z.pos p) k'). lia. }
  rewrite iter_pos_iter, Hiter.
  rewrite <- HkZ, HB. fold A. fold q.
  cbv iota beta. simpl shr_m. rewrite Z.add_0_l.
  set (r := Z.odd (Z.pos p / A)) in *.
  set (st := negb (Z.pos p mod A =? 0)).
  assert (Hst : st = false ↔ Z.pos p mod A = 0).
  { unfold st. rewrite negb_false_iff. apply Z.eqb_eq. }
  exists (round_nearest_even q (loc_of_shr_record {| shr_m := q; shr_r := r; shr_s := st |})).
  assert (Hcases :
    let c := round_nearest_even q (loc_of_shr_record {| shr_m := q; shr_r := r; shr_s := st |}) in
    (c = q ∨ c = q + 1)
    ∧ 2 * Z.abs (c * (2 * A) - Z.pos p) <= 2 * A
    ∧ (2 * Z.abs (c * (2 * A) - Z.pos p) = 2 * A → Z.even c = true)).
  { destruct r, st; simpl.
    - assert (Z.pos p mod A ≠ 0) by (intros Hz; apply Hst in Hz; discriminate).
      split_and!; [right; reflexivity|lia|lia].
    - assert (Z.pos p mod A = 0) by (apply Hst; reflexivity).
      destruct (Z.even q) eqn:Hev.
      + split_and!; [left; reflexivity|lia|auto].
      + split_and!; [right; reflexivity|lia|].
        intros _. rewrite Z.even_add, Hev. reflexivity.
    - assert (Z.pos p mod A ≠ 0) by (intros Hz; apply Hst in Hz; discriminate).
      split_and!; [left; reflexivity|lia|lia].
    - assert (Z.pos p mod A = 0) by (apply Hst; reflexivity).
      split_and!; [left; reflexivity|lia|lia]. }
  cbv zeta in Hcases. destruct Hcases as (Hc & Hnear & Htie).
  split; [|split; [|split; [|split]]].
  - rewrite <- HB. apply round_final; [destruct Hc as [-> | ->]; lia|lia|lia].
  - destruct Hc as [-> | ->]; lia.
  - exact Hc.
  - exact Hnear.
  - exact Htie.
Qed.

End Binary64Rounding.

(** ** Binary64: the rounded integer is the nearest representable one *)

Module Binary64Nearest.
Import Binary64 Binary64Facts Binary64Rounding.

(** A representable integer of at least [53 + j] bits is a multiple of
    2^j. *)
Lemma representable_multiple z j :
  representable z → 0 <= j → 2 ^ 52 * 2 ^ j <= Z.abs z → ∃ t, z = t * 2 ^ j.
Proof.
  intros (m & e & He & Hm & Hz & _) Hj Hbig.
  assert (Hpe : 0 < 2 ^ e) by (apply Z.pow_pos_nonneg; lia).
  assert (Hpj : 0 < 2 ^ j) by (apply Z.pow_pos_nonneg; lia).
  destruct (Z_le_gt_dec j e) as [Hle|Hgt].
  - exists (m * 2 ^ (e - j)). rewrite <- Z.mul_assoc, <- Z.pow_add_r by lia.
    rewrite Hz. do 2 f_equal. lia.
  - exfalso.
    assert (Hsplit : 2 ^ j = 2 ^ e * 2 ^ (j - e)).
    { rewrite <- Z.pow_add_r by lia. f_equal. lia. }
    assert (Htwo : 2 <= 2 ^ (j - e)).
    { change 2 with (2 ^ 1) at 1. apply Z.pow_le_mono_r; lia. }
    rewrite Hz, Z.abs_mul, (Z.abs_eq (2 ^ e)) in Hbig by lia.
    rewrite Hsplit in Hbig. nia.
Qed.

Lemma representable_opp z : representable z → representable (- z).
Proof.
  intros (m & e & He & Hm & Hz & Hmax). exists (- m), e.
  rewrite Z.abs_opp. repeat split; try assumption; [lia|rewrite Z.abs_opp; assumption].
Qed.

(** Among the representable integers, the multiple of [2 * A] that the
    rounding picks is nearest to [P]; another one is as near only when
    [P] is half-way between two multiples. *)
Lemma nearest_multiple (k' : nat) P c z :
  let A := 2 ^ Z.of_nat k' in
  2 ^ 52 * (2 * A) <= P < 2 ^ 53 * (2 * A) →
  c = P / (2 * A) ∨ c = P / (2 * A) + 1 →
  2 * Z.abs (c * (2 * A) - P) <= 2 * A →
  representable z →
  Z.abs (c * (2 * A) - P) <= Z.abs (z - P)
  ∧ (z ≠ c * (2 * A) → Z.abs (z - P) = Z.abs (c * (2 * A) - P) →
     2 * Z.abs (c * (2 * A) - P) = 2 * A).
Proof.
  intros A HP Hc Hnear Hz.
  assert (HA : 0 < A) by (apply Z.pow_pos_nonneg; lia).
  pose proof (Z.div_mod P (2 * A) ltac:(lia)) as Hdm.
  pose proof (Z.mod_pos_bound P (2 * A) ltac:(lia)) as Hrem.
  set (q := P / (2 * A)) in *. set (rem := P mod (2 * A)) in *.
  destruct (Z_lt_le_dec A (Z.abs (z - P))) as [Hfar|Hclose].
  { split; [lia|]. intros _ Heq. lia. }
  destruct (Z_lt_le_dec z (2 ^ 52 * (2 * A))) as [Hlow|Hhigh].
  - destruct (representable_multiple z (Z.of_nat k') Hz ltac:(lia)) as [t Ht].
    { fold A. lia. }
    fold A in Ht. subst z.
    assert (Ht : t = 2 ^ 53 - 1) by nia. subst t.
    assert (HPeq : P = 2 ^ 53 * A) by lia.
    assert (Hq : q = 2 ^ 52).
    { destruct (Z.lt_trichotomy q (2 ^ 52)) as [Hlt|[Heq|Hgt]]; [exfalso|exact Heq|exfalso].
      - assert (2 * A * q + 2 * A <= 2 * A * 2 ^ 52) by nia. lia.
      - assert (2 * A * 2 ^ 52 + 2 * A <= 2 * A * q) by nia. lia. }
    assert (Hr0 : rem = 0) by lia.
    destruct Hc as [-> | ->]; [|exfalso; lia].
    split; [lia|]. intros _ Heq. lia.
  - destruct (representable_multiple z (Z.of_nat (S k')) Hz ltac:(lia)) as [t Ht].
    { rewrite Nat2Z.inj_succ, Z.pow_succ_r by lia. fold A. lia. }
    rewrite Nat2Z.inj_succ, Z.pow_succ_r in Ht by lia. fold A in Ht. subst z.
    destruct (Z_le_gt_dec t q) as [Htq|Htq].
    + assert (t * (2 * A) <= q * (2 * A)) by nia.
      destruct Hc as [-> | ->]; (split; [lia|]); intros Hne Heq.
      * assert (t ≠ q) by (intros ->; apply Hne; reflexivity).
        assert (t * (2 * A) + 2 * A <= q * (2 * A)) by nia. lia.
      * lia.
    + assert ((q + 1) * (2 * A) <= t * (2 * A)) by nia.
      destruct Hc as [-> | ->]; (split; [lia|]); intros Hne Heq.
      * lia.
      * assert (t ≠ q + 1) by (intros ->; apply Hne; reflexivity).
        assert ((q + 1) * (2 * A) + 2 * A <= t * (2 * A)) by nia. lia.
Qed.

(** [(double) l] for a 64-bit [l]: the nearest representable integer,
    the one with the even significand when two are equally near. *)
Lemma of_Z_nearest l :
  in_int64 l →
  ∃ n, to_Z (of_Z l) = Some n
       ∧ representable n
       ∧ (∀ z, representable z → Z.abs (n - l) <= Z.abs (z - l))
       ∧ (∀ z, representable z → z ≠ n → Z.abs (z - l) = Z.abs (n - l) →
               Z.even (n / 2 ^ (Z.log2 (Z.abs l) - 52)) = true).
Proof.
  intros Hl. unfold in_int64 in Hl.
  assert (Hgen : ∀ s p, Z.pos p = Z.abs l → l = cond_Zopp s (Z.pos p) →
     ∃ n, to_Z (binary_round 53 1024 s p 0) = Some n
          ∧ representable n
          ∧ (∀ z, representable z → Z.abs (n - l) <= Z.abs (z - l))
          ∧ (∀ z, representable z → z ≠ n → Z.abs (z - l) = Z.abs (n - l) →
                  Z.even (n / 2 ^ (Z.log2 (Z.abs l) - 52)) = true)).
  { intros s p Hp Hsign. pose proof (digits2_bounds p) as [Hlo Hhi].
    destruct (Z_le_gt_dec (Z.pos (digits2_pos p)) 53) as [Hs|Hb].
    - exists l. rewrite Hsign at 1. split; [apply binary_round_small; assumption|].
      assert (Z.abs l < 2 ^ 53).
      { rewrite <- Hp.
        assert (2 ^ Z.pos (digits2_pos p) <= 2 ^ 53) by (apply Z.pow_le_mono_r; lia). lia. }
      split; [apply small_representable; lia|]. split; [intros z _; lia|].
      intros z _ Hne Heq. lia.
    - remember (Z.pos (digits2_pos p) - 53) as k eqn:Ek.
      destruct k as [|k|k]; try lia.
      assert (Hk : Z.pos k <= 11).
      { destruct (Z_le_gt_dec (Z.pos k) 11) as [?|Hgt]; [assumption|exfalso].
        assert (2 ^ 64 <= 2 ^ (Z.pos (digits2_pos p) - 1)) by (apply Z.pow_le_mono_r; lia).
        lia. }
      destruct (binary_round_inexact s p k ltac:(lia) ltac:(lia))
        as (c & Hres & Hc & Hcq & Hnear & Htie).
      destruct (Pos2Nat.is_succ k) as [k' Hk'].
      assert (HkZ : Z.pos k = Z.of_nat (S k'))
        by (rewrite <- Hk'; symmetry; apply positive_nat_Z).
      assert (HB : 2 ^ Z.pos k = 2 * 2 ^ Z.of_nat k').
      { rewrite HkZ, Nat2Z.inj_succ, Z.pow_succ_r by lia. reflexivity. }
      assert (HA : 0 < 2 ^ Z.of_nat k') by (apply Z.pow_pos_nonneg; lia).
      assert (HP : 2 ^ 52 * (2 * 2 ^ Z.of_nat k') <= Z.pos p
                   < 2 ^ 53 * (2 * 2 ^ Z.of_nat k')).
      { rewrite <- HB, <- !Z.pow_add_r by lia.
        replace (52 + Z.pos k) with (Z.pos (digits2_pos p) - 1) by lia.
        replace (53 + Z.pos k) with (Z.pos (digits2_pos p)) by lia. lia. }
      rewrite HB in Hcq, Hnear, Htie.
      assert (Hdist : ∀ z, Z.abs (cond_Zopp s z - l) = Z.abs (z - Z.pos p)).
      { intros z. rewrite Hsign. destruct s; simpl; lia. }
      exists (cond_Zopp s (c * 2 ^ Z.pos k)). split; [exact Hres|].
      rewrite HB. split; [|split].
      + assert (Hrep : representable (c * (2 * 2 ^ Z.of_nat k'))).
        { destruct (Z_lt_le_dec c (2 ^ 53)) as [Hlt|Hge].
          - assert (Hsmall : c * (2 * 2 ^ Z.of_nat k') < 2 ^ 53 * 2 ^ 11).
            { assert (2 ^ Z.pos k <= 2 ^ 11) by (apply Z.pow_le_mono_r; lia). nia. }
            assert (Hbound : 2 ^ 53 * 2 ^ 11 < 2 ^ 1024) by (vm_compute; reflexivity).
            exists c, (Z.pos k). rewrite HB.
            split; [lia|split; [lia|split; [reflexivity|]]]. lia.
          - assert (Hc53 : c = 2 ^ 53) by lia.
            assert (Hsmall : 2 ^ Z.pos k <= 2 ^ 11) by (apply Z.pow_le_mono_r; lia).
            assert (Hbound : 2 ^ 53 * 2 ^ 11 < 2 ^ 1024) by (vm_compute; reflexivity).
            exists (2 ^ 52), (Z.pos k + 1). rewrite Z.pow_add_r, HB by lia.
            rewrite HB in Hsmall.
            split; [lia|split; [lia|split; [lia|]]]. lia. }
        destruct s; simpl; [apply representable_opp|]; exact Hrep.
      + intros z Hz. rewrite Hdist.
        replace (Z.abs (z - l)) with (Z.abs (cond_Zopp s z - Z.pos p))
          by (rewrite Hsign; destruct s; simpl; lia).
        apply (nearest_multiple k' (Z.pos p) c (cond_Zopp s z) HP Hcq Hnear).
        destruct s; simpl; [apply representable_opp|]; exact Hz.
      + intros z Hz Hne Heq. rewrite Hdist in Heq.
        replace (Z.abs (z - l)) with (Z.abs (cond_Zopp s z - Z.pos p)) in Heq
          by (rewrite Hsign; destruct s; simpl; lia).
        assert (Hzrep : representable (cond_Zopp s z))
          by (destruct s; simpl; [apply representable_opp|]; exact Hz).
        destruct (nearest_multiple k' (Z.pos p) c (cond_Zopp s z) HP Hcq Hnear Hzrep)
          as [_ Hhalf].
        specialize (Htie (Hhalf ltac:(destruct s; simpl in *; lia) Heq)).
        assert (Hlog : Z.log2 (Z.abs l) = Z.pos (digits2_pos p) - 1).
        { rewrite <- Hp. apply Z.log2_unique; [lia|].
          replace (Z.succ (Z.pos (digits2_pos p) - 1)) with (Z.pos (digits2_pos p)) by lia.
          lia. }
        rewrite Hlog. replace (Z.pos (digits2_pos p) - 1 - 52) with (Z.pos k) by lia.
        rewrite HB.
        destruct s; simpl.
        * replace (- (c * (2 * 2 ^ Z.of_nat k'))) with ((- c) * (2 * 2 ^ Z.of_nat k')) by lia.
          rewrite Z.div_mul by lia. rewrite Z.even_opp. exact Htie.
        * rewrite Z.div_mul by lia. exact Htie. }
  unfold of_Z, binary_normalize. destruct l as [|p|p].
  - exists 0. split; [reflexivity|]. split; [apply small_representable; simpl; lia|].
    split; [intros z _; lia|]. intros z _ Hne Heq. lia.
  - apply (Hgen false p); reflexivity.
  - apply (Hgen true p); reflexivity.
Qed.

End Binary64Nearest.

Lemma wrap_id w z : 0 < w → - 2 ^ (w - 1) <= z < 2 ^ (w - 1) → wrap w z = z.
Proof.
  intros Hw Hz. unfold wrap.
  assert (E : 2 ^ w = 2 * 2 ^ (w - 1)).
  { rewrite <- Z.pow_succ_r by lia. f_equal. lia. }
  rewrite Z.mod_small by lia. lia.
Qed.

(** * The claims *)

(** ** Value kind classifier *)

(** The class objects cached at context creation designate the expected
    classes, whatever handles they receive. *)
Lemma cached_targets v :
  let r := fst (cacheJavaReferences v) in
  (target <$> stringClass r) = Some (JClass "java/lang/String")
  ∧ (target <$> booleanClass r) = Some (JClass "java/lang/Boolean")
  ∧ (target <$> booleanTypeClass r) = Some (JClass "boolean")
  ∧ (target <$> integerClass r) = Some (JClass "java/lang/Integer")
  ∧ (target <$> integerTypeClass r) = Some (JClass "int")
  ∧ (target <$> longClass r) = Some (JClass "java/lang/Long")
  ∧ (target <$> longTypeClass r) = Some (JClass "long")
  ∧ (target <$> doubleClass r) = Some (JClass "java/lang/Double")
  ∧ (target <$> doubleTypeClass r) = Some (JClass "double")
  ∧ (target <$> voidTypeClass r) = Some (JClass "void").
Proof. cbv zeta. split_and!; reflexivity. Qed.

Lemma IsSameObject_class h name (c : jclass) cname :
  (target <$> c) = Some (JClass cname) →
  IsSameObject (Some {| handle := h; target := JClass name |}) c = String.eqb name cname.
Proof. destruct c as [[h' t]|]; simpl; [|discriminate]. intros [= ->]. reflexivity. Qed.

Lemma classifyParameter_class v h name :
  classifyParameter (fst (cacheJavaReferences v)) (Some {| handle := h; target := JClass name |})
  = kindOfClassName name.
Proof.
  destruct (cached_targets v) as (Hs & Hb & Hbt & Hi & Hit & Hl & Hlt & Hd & Hdt & _).
  unfold classifyParameter, kindOfClassName.
  rewrite (IsSameObject_class _ _ _ _ Hs), (IsSameObject_class _ _ _ _ Hb),
    (IsSameObject_class _ _ _ _ Hbt), (IsSameObject_class _ _ _ _ Hi),
    (IsSameObject_class _ _ _ _ Hit), (IsSameObject_class _ _ _ _ Hl),
    (IsSameObject_class _ _ _ _ Hlt), (IsSameObject_class _ _ _ _ Hd),
    (IsSameObject_class _ _ _ _ Hdt).
  reflexivity.
Qed.

(** C4, as stated, fails: a descriptor outside the closed set (here
    [java.lang.Object]) is classified as [kVoid], the very value an absent
    descriptor gets, so "unsupported" is not distinct from Void. *)
Lemma C4_unsupported_is_void :
  let r := refs sampleContext in
  classifyParameter r (classRef "java/lang/Object") = kVoid
  ∧ classifyParameter r None = kVoid.
Proof. split; reflexivity. Qed.

(** C4 (amended): with the class references cached at creation,
    [classifyParameter] depends on its descriptor only; String maps to
    [kString], boxed and primitive boolean, int, long and double to their
    kinds, and an absent descriptor as well as every other descriptor to
    [kVoid], which callers read as "unsupported" for a parameter. *)
Theorem C4_classifier_table (v : JavaVM) :
  let r := fst (cacheJavaReferences v) in
  let descriptor h name := Some {| handle := h; target := JClass name |} in
  (∀ h, classifyParameter r (descriptor h "java/lang/String") = kString)
  ∧ (∀ h, classifyParameter r (descriptor h "java/lang/Boolean") = kBoolean
          ∧ classifyParameter r (descriptor h "boolean") = kBoolean)
  ∧ (∀ h, classifyParameter r (descriptor h "java/lang/Integer") = kInt
          ∧ classifyParameter r (descriptor h "int") = kInt)
  ∧ (∀ h, classifyParameter r (descriptor h "java/lang/Long") = kLong
          ∧ classifyParameter r (descriptor h "long") = kLong)
  ∧ (∀ h, classifyParameter r (descriptor h "java/lang/Double") = kDouble
          ∧ classifyParameter r (descriptor h "double") = kDouble)
  ∧ classifyParameter r None = kVoid
  ∧ (∀ h name,
        name ∉ ["java/lang/String"; "java/lang/Boolean"; "boolean"; "java/lang/Integer";
                "int"; "java/lang/Long"; "long"; "java/lang/Double"; "double"]%string →
        classifyParameter r (descriptor h name) = kVoid)
  ∧ (∀ h h' name,
        classifyParameter r (descriptor h name) = classifyParameter r (descriptor h' name)).
Proof.
  intros r descriptor. subst r descriptor. cbv beta.
  split_and!; try (intros h; split_and?); intros;
    rewrite ?classifyParameter_class; try reflexivity.
  unfold kindOfClassName.
  repeat match goal with
  | |- context [String.eqb name ?c] =>
      destruct (String.eqb_spec name c) as [->|_];
        [exfalso; set_solver | simpl]
  end.
  reflexivity.
Qed.

Lemma C4_classifier_table_witness :
  classifyParameter (fst (cacheJavaReferences sampleVM))
    (Some {| handle := 3; target := JClass "java/util/List" |}) = kVoid.
Proof.
  apply (C4_classifier_table sampleVM). set_solver.
Defined.

(** ** Host-to-script converter *)

(** C7: a null host value becomes the kind's default (script null for
    String, [false] for Boolean, numeric zero for Int32 and Int64, 0.0 for
    Double), and kind Void gives [undefined] whatever the host value. *)
Theorem C7_null_defaults :
  convertJavaToJs kString None = Some JS_NULL
  ∧ convertJavaToJs kBoolean None = Some (JS_Bool false)
  ∧ convertJavaToJs kInt None = Some (JS_Number (S754_zero false))
  ∧ convertJavaToJs kLong None = Some (JS_Number (S754_zero false))
  ∧ convertJavaToJs kDouble None = Some (JS_Number (S754_zero false))
  ∧ (∀ value, convertJavaToJs kVoid value = Some JS_UNDEFINED).
Proof. repeat split. Qed.

(** C8, as stated, fails: the long 2^53 + 1 becomes the Number 2^53. *)
Lemma C8_precision_lost :
  convertJavaToJs kLong (Some {| handle := 0; target := JLong 9007199254740993 |})
  = Some (JS_Number (S754_finite false 4503599627370496 1))
  ∧ Binary64.to_Z (S754_finite false 4503599627370496 1) = Some 9007199254740992.
Proof. split; reflexivity. Qed.

(** C8 (amended): a non-null long becomes the Number [(double) l], which
    denotes the integer nearest to the long among those a binary64
    represents, the one with the even significand when two are equally
    near; it is the long itself when a binary64 represents the long, in
    particular whenever the magnitude of the long is at most 2^53. *)
Theorem C8_long_rounds_to_nearest (h : nat) (l : Z) :
  in_int64 l →
  ∃ d n, convertJavaToJs kLong (Some {| handle := h; target := JLong l |})
         = Some (JS_Number d)
         ∧ Binary64.to_Z d = Some n
         ∧ Binary64.representable n
         ∧ (∀ z, Binary64.representable z → Z.abs (n - l) <= Z.abs (z - l))
         ∧ (∀ z, Binary64.representable z → z ≠ n → Z.abs (z - l) = Z.abs (n - l) →
                 Z.even (n / 2 ^ (Z.log2 (Z.abs l) - 52)) = true)
         ∧ (Binary64.representable l → n = l)
         ∧ (Z.abs l <= 2 ^ 53 → n = l).
Proof.
  intros Hl.
  destruct (Binary64Nearest.of_Z_nearest l Hl) as (n & Hn & Hrep & Hnear & Htie).
  exists (Binary64.of_Z l), n.
  assert (Hexact : Binary64.representable l → n = l).
  { intros Hr. specialize (Hnear l Hr). lia. }
  split_and!; try assumption; [reflexivity|].
  intros Hsmall. apply Hexact, Binary64Facts.small_representable, Hsmall.
Qed.

Lemma C8_long_rounds_to_nearest_witness :
  ∃ d n, convertJavaToJs kLong (Some {| handle := 0; target := JLong 9007199254740995 |})
         = Some (JS_Number d)
         ∧ Binary64.to_Z d = Some n
         ∧ Z.abs (n - 9007199254740995) <= Z.abs (9007199254740994 - 9007199254740995).
Proof.
  destruct (C8_long_rounds_to_nearest 0 9007199254740995) as (d & n & Hd & Hn & _ & Hnear & _).
  - unfold in_int64. lia.
  - exists d, n. split_and!; [exact Hd|exact Hn|].
    apply Hnear. exists 4503599627370497, 1. split_and!; lia.
Defined.

(** The long 2^53 + 3 lies between the representable 2^53 + 2 and
    2^53 + 4, and becomes 2^53 + 4, whose significand is even. *)
Example long_tie_to_even :
  convertJavaToJs kLong (Some {| handle := 0; target := JLong 9007199254740995 |})
  = Some (JS_Number (S754_finite false 4503599627370498 1))
  ∧ Binary64.to_Z (S754_finite false 4503599627370498 1) = Some 9007199254740996.
Proof. split; reflexivity. Qed.

(** ** Round trip *)

Lemma c_str_NUL_free s : NUL_free s = true → c_str s = s.
Proof.
  induction s as [|c rest IH]; simpl; [reflexivity|].
  destruct (Ascii.eqb c Ascii.zero); simpl; [discriminate|].
  intros Hrest. rewrite IH by assumption. reflexivity.
Qed.

Lemma c_str_fixed s : c_str s = s → NUL_free s = true.
Proof.
  induction s as [|c rest IH]; simpl; [reflexivity|].
  destruct (Ascii.eqb c Ascii.zero); simpl; [discriminate|].
  intros [= Hrest]. auto.
Qed.

(** C1, as stated, fails for kind String: the script string "a", U+0000,
    "b" reaches the host as "a" and comes back as "a". *)
Lemma C1_string_cut_at_NUL :
  roundTrip sampleEngine kString
    (JS_String ("a" +:+ String Ascii.zero "b")) sampleVM
  = Some (JS_String "a")
  ∧ ¬ same_value kString
        (JS_String ("a" +:+ String Ascii.zero "b"))
        (JS_String "a").
Proof. split; [reflexivity|]. simpl. discriminate. Qed.

(** C1 (amended): for every kind that can carry a value and every
    in-range script value, a String being in range when it holds no
    U+0000, converting to the host and back gives a script value that
    carries the same value; a script null of kind String passes through a
    host null and comes back as script null; and any script string comes
    back as its part before the first U+0000. *)
Theorem C1_round_trip (E : Engine) (v : JavaVM) (kind : ValueKind) (value : JSValue) :
  in_range kind value →
  (∃ result, roundTrip E kind value v = Some result ∧ same_value kind value result)
  ∧ (kind = kString → value = JS_NULL →
     fst (convertJsToJava E kind value v) = None ∧ roundTrip E kind value v = Some JS_NULL)
  ∧ (∀ s, roundTrip E kString (JS_String s) v = Some (JS_String (c_str s))).
Proof.
  intros Hr. split_and!.
  - destruct kind, value; simpl in Hr; try contradiction.
    + exists JS_NULL. split; reflexivity.
    + exists (JS_String s). unfold roundTrip. simpl. rewrite (c_str_NUL_free s Hr).
      split; reflexivity.
    + exists (JS_Bool b). unfold roundTrip. destruct b; split; reflexivity.
    + destruct Hr as (z & Hz & Hin). exists (JS_Number (Binary64.of_Z z)).
      unfold roundTrip, convertJsToJava, JS_ToInt32. simpl.
      rewrite (Binary64Facts.trunc_to_Z _ _ Hz).
      rewrite wrap_id by (unfold in_int32 in Hin; simpl; lia).
      split; [reflexivity|]. exists z. split; [assumption|].
      apply Binary64Facts.of_Z_exact, Binary64Facts.small_representable.
      unfold in_int32 in Hin. lia.
    + destruct Hr as (Hv & z & Hz & Hin). exists (JS_Number (Binary64.of_Z z)).
      unfold roundTrip, convertJsToJava, JS_ToInt64. simpl.
      rewrite (Binary64Facts.trunc_to_Z _ _ Hz).
      rewrite wrap_id by (unfold in_int64 in Hin; simpl; lia).
      split; [reflexivity|]. exists z. split; [assumption|].
      apply Binary64Facts.of_Z_exact.
      apply (Binary64Facts.valid_representable d); [assumption..|].
      unfold in_int64 in Hin. lia.
    + exists (JS_Number d). split; reflexivity.
  - intros -> ->. split; reflexivity.
  - intros s. reflexivity.
Qed.

Lemma C1_round_trip_witness :
  ∃ result,
    roundTrip sampleEngine kLong (JS_Number (S754_finite false 4503599627370497 10)) sampleVM
    = Some result
    ∧ same_value kLong (JS_Number (S754_finite false 4503599627370497 10)) result.
Proof.
  destruct (C1_round_trip sampleEngine sampleVM kLong
              (JS_Number (S754_finite false 4503599627370497 10))) as [Hsame _].
  - simpl. split; [reflexivity|]. eexists. split; [reflexivity|]. unfold in_int64. lia.
  - exact Hsame.
Defined.

(** ** Dispatcher: argument conversion *)

Lemma set_vm_same q : set_vm (vm q) q = q.
Proof. destruct q; reflexivity. Qed.

Lemma handlesOf_cons_None l : handlesOf (None :: l) = handlesOf l.
Proof. reflexivity. Qed.

Lemma handlesOf_cons_Some r l : handlesOf (Some r :: l) = {[handle r]} ∪ handlesOf l.
Proof. reflexivity. Qed.

Lemma handlesOf_app l1 l2 : handlesOf (l1 ++ l2) = handlesOf l1 ∪ handlesOf l2.
Proof.
  unfold handlesOf. rewrite omap_app. apply leibniz_equiv, list_to_set_app.
Qed.

Lemma DeleteLocalRef_localRefs obj v :
  localRefs (DeleteLocalRef obj v) = localRefs v ∖ handlesOf [obj].
Proof.
  destruct obj as [r|]; simpl.
  - rewrite handlesOf_cons_Some. set_solver.
  - set_solver.
Qed.

Lemma DeleteLocalRef_pending obj v :
  pendingException (DeleteLocalRef obj v) = pendingException v.
Proof. destruct obj; reflexivity. Qed.

Lemma foldl_DeleteLocalRef_localRefs l v :
  localRefs (foldl (λ v item, DeleteLocalRef item v) v l) = localRefs v ∖ handlesOf l.
Proof.
  revert v. induction l as [|item l IH]; intros v; simpl.
  - set_solver.
  - rewrite IH, DeleteLocalRef_localRefs.
    change (item :: l) with ([item] ++ l). rewrite handlesOf_app. set_solver.
Qed.

Lemma foldl_DeleteLocalRef_pending l v :
  pendingException (foldl (λ v item, DeleteLocalRef item v) v l) = pendingException v.
Proof.
  revert v. induction l as [|item l IH]; intros v; simpl; [reflexivity|].
  rewrite IH. apply DeleteLocalRef_pending.
Qed.

(** A conversion either yields null and leaves the tables alone, or
    yields a fresh local reference. *)
Lemma convertJsToJava_cases E kind value v :
  convertJsToJava E kind value v = (None, v)
  ∨ ∃ o, convertJsToJava E kind value v = NewLocalRef o v.
Proof.
  destruct kind; simpl; auto.
  - destruct (JS_IsNull value || JS_IsUndefined value); auto.
    destruct (JS_ToCString E value); eauto.
  - destruct (JS_ToBool value <? 0); eauto.
  - destruct (JS_ToInt32 E value); eauto.
  - destruct (JS_ToInt64 E value); eauto.
  - destruct (JS_ToFloat64 E value); eauto.
Qed.





(** End to end: [Printer.log(null)] reaches the host method with a null
    string and returns [undefined] without raising anything. *)
Example printer_log_null :
  (λ r, (fst r, currentException (context (snd r))))
    <$> invokeBinding sampleEngine sampleHost printerLog [JS_NULL] sampleContext
  = Some (JS_UNDEFINED, None).
Proof. vm_compute. reflexivity. Qed.

(** End to end: [Calculator.add(2, 3)] is 5. *)
Example calculator_add :
  fst <$> invokeBinding sampleEngine sampleHost calculatorAdd
            [JS_NewInt32 2; JS_NewInt32 3] sampleContext
  = Some (JS_NewInt32 5).
Proof. vm_compute. reflexivity. Qed.

(** ** Dispatcher: host exceptions *)

(** [describeThrowable] itself hands back the message of the throwable it
    is given, and the generic text when there is none. *)
Lemma describeThrowable_text className chars :
  chars ≠ ""%string → describeThrowable (Some (Raised className (MsgText chars))) = chars.
Proof.
  intros Hne. unfold describeThrowable. simpl.
  destruct (decide (chars = ""%string)); [contradiction|reflexivity].
Qed.

Lemma describeThrowable_generic t :
  Throwable_getMessage t ∈ [MsgNull; MsgThrows; MsgText ""] →
  describeThrowable (Some t) = genericThrowableMessage.
Proof.
  intros Hm. apply list_elem_of_In in Hm. unfold describeThrowable.
  destruct Hm as [<-|[<-|[<-|[]]]]; reflexivity.
Qed.

(** An exception pending after the call is always turned into a script
    error and cleared. *)
Lemma invoke_error_message E H binding m argv q t :
  requireEnv (vm q) = true → parameterKinds binding = [] →
  (target <$> method binding) = Some (JMethod m) →
  H m (target <$> instance binding) [] = InvokeFails t →
  ∃ q', invokeBinding E H binding argv q = Some (JS_EXCEPTION, q')
        ∧ currentException (context q')
          = Some {| errorClass := InternalError; errorMessage := describeThrowable (Some t) |}
        ∧ pendingException (vm q') = None.
Proof.
  intros Henv Hk Hm Hh. unfold invokeBinding. rewrite Henv, Hk. simpl.
  destruct (method binding) as [[hm tm]|]; simpl in Hm; [|discriminate].
  injection Hm as ->. unfold CallObjectMethod_invoke. simpl. rewrite Hh. simpl.
  eexists. split; [reflexivity|]. split; reflexivity.
Qed.

(** C6 at work: whatever exception the invoked host method throws, also
    one whose message is "boom", the script error carries the generic
    text.  [Method.invoke] delivers the exception wrapped in an
    [InvocationTargetException], which has no message of its own, and
    [describeThrowable] asks the wrapper, not its cause. *)
Theorem C6_host_exception_message (E : Engine) (H : Host) (binding : MethodBinding)
    (m : nat) (argv : list JSValue) (q : QuickJsContext) (t : Throwable) :
  requireEnv (vm q) = true → parameterKinds binding = [] →
  (target <$> method binding) = Some (JMethod m) →
  H m (target <$> instance binding) [] = Throws t →
  ∃ q', invokeBinding E H binding argv q = Some (JS_EXCEPTION, q')
        ∧ currentException (context q')
          = Some {| errorClass := InternalError; errorMessage := genericThrowableMessage |}
        ∧ pendingException (vm q') = None.
Proof.
  intros Henv Hk Hm Hh. unfold invokeBinding. rewrite Henv, Hk. simpl.
  destruct (method binding) as [[hm tm]|]; simpl in Hm; [|discriminate].
  injection Hm as ->. unfold CallObjectMethod_invoke. simpl. rewrite Hh. simpl.
  eexists. split; [reflexivity|]. split; reflexivity.
Qed.

Lemma C6_host_exception_message_witness :
  ∃ q', invokeBinding sampleEngine sampleHost svcFail [] sampleContext
        = Some (JS_EXCEPTION, q')
        ∧ currentException (context q')
          = Some {| errorClass := InternalError;
                    errorMessage := "Host method threw an exception" |}
        ∧ pendingException (vm q') = None.
Proof.
  apply (C6_host_exception_message sampleEngine sampleHost svcFail 1 [] sampleContext
           (Raised "java/lang/RuntimeException" (MsgText "boom")));
    reflexivity.
Defined.

(** ** Namespace binder *)

Lemma fresh_object_absent (ctx : JSContext) : heap ctx !! fresh (dom (heap ctx)) = None.
Proof. apply not_elem_of_dom, is_fresh. Qed.

(** C9: when the global property is absent or null (and the engine does
    not fail), [ensureGlobalObject] creates a fresh object, installs it
    under the name and returns it; otherwise it returns the existing value
    and changes nothing; hence a call that follows a successful one returns
    the same object and leaves the context as it is. *)
Theorem C9_ensureGlobalObject_idempotent (f : EngineFaults) (name : string) (ctx : JSContext) :
  let existing := JS_GetPropertyStr_global ctx name in
  (JS_IsUndefined existing || JS_IsNull existing = true →
   failNewObject f = false → failSetProperty f = false →
   ∃ r, heap ctx !! r = None
        ∧ ensureGlobalObject f name ctx
          = (Some (JS_Object r),
             set_globalObject (<[name := JS_Object r]> (globalObject ctx))
                              (set_heap (<[r := ∅]> (heap ctx)) ctx)))
  ∧ (JS_IsUndefined existing || JS_IsNull existing = false →
     ensureGlobalObject f name ctx = (Some existing, ctx))
  ∧ (∀ objectValue ctx' f',
       ensureGlobalObject f name ctx = (Some objectValue, ctx') →
       ensureGlobalObject f' name ctx' = (Some objectValue, ctx')).
Proof.
  intros existing. subst existing. unfold ensureGlobalObject, JS_NewObject,
    JS_SetPropertyStr_global.
  destruct (JS_IsUndefined (JS_GetPropertyStr_global ctx name)
            || JS_IsNull (JS_GetPropertyStr_global ctx name)) eqn:Hex.
  - split; [|split].
    + intros _ -> ->. exists (fresh (dom (heap ctx))). split; [apply fresh_object_absent|].
      reflexivity.
    + discriminate.
    + intros objectValue ctx' f'. destruct (failNewObject f); simpl; [discriminate|].
      destruct (failSetProperty f); simpl; [discriminate|].
      intros [= <- <-]. unfold JS_GetPropertyStr_global. simpl.
      rewrite lookup_insert_eq. reflexivity.
  - split; [|split].
    + discriminate.
    + reflexivity.
    + intros objectValue ctx' f' [= <- <-]. rewrite Hex. reflexivity.
Qed.

Lemma C9_ensureGlobalObject_idempotent_witness :
  ∃ r, ensureGlobalObject noFaults "Calculator" emptyContext
       = (Some (JS_Object r),
          set_globalObject (<["Calculator"%string := JS_Object r]> ∅)
                           (set_heap (<[r := ∅]> ∅) emptyContext))
       ∧ ensureGlobalObject noFaults "Calculator"
           (set_globalObject (<["Calculator"%string := JS_Object r]> ∅)
                             (set_heap (<[r := ∅]> ∅) emptyContext))
         = (Some (JS_Object r),
            set_globalObject (<["Calculator"%string := JS_Object r]> ∅)
                             (set_heap (<[r := ∅]> ∅) emptyContext)).
Proof.
  destruct (C9_ensureGlobalObject_idempotent noFaults "Calculator" emptyContext)
    as (Hnew & _ & Hagain).
  destruct (Hnew eq_refl eq_refl eq_refl) as (r & _ & Hr).
  exists r. split; [exact Hr|]. exact (Hagain _ _ noFaults Hr).
Defined.

(** What a script reads after [ensureGlobalObject] it could read before:
    a namespace object that the call creates is empty. *)
Lemma ensureGlobalObject_reads f name ctx res ctx1 :
  ensureGlobalObject f name ctx = (res, ctx1) →
  ∀ o m fn, scriptReads ctx1 o m fn → scriptReads ctx o m fn.
Proof.
  unfold ensureGlobalObject, JS_NewObject, JS_SetPropertyStr_global.
  destruct (JS_IsUndefined (JS_GetPropertyStr_global ctx name)
            || JS_IsNull (JS_GetPropertyStr_global ctx name)).
  - pose proof (fresh_object_absent ctx) as Hfresh.
    destruct (failNewObject f); simpl; [intros [= <- <-]; auto|].
    destruct (failSetProperty f); simpl; intros [= <- <-] o m fn (r & props & Hg & Hh & Hp);
      simpl in Hg, Hh.
    + destruct (decide (r = fresh (dom (heap ctx)))) as [->|Hne].
      * rewrite lookup_insert_eq in Hh. injection Hh as <-. rewrite lookup_empty in Hp. discriminate.
      * rewrite lookup_insert_ne in Hh by congruence. exists r, props. auto.
    + destruct (decide (r = fresh (dom (heap ctx)))) as [->|Hne].
      * rewrite lookup_insert_eq in Hh. injection Hh as <-. rewrite lookup_empty in Hp. discriminate.
      * rewrite lookup_insert_ne in Hh by congruence.
        destruct (decide (name = o)) as [->|Hno].
        -- rewrite lookup_insert_eq in Hg. congruence.
        -- rewrite lookup_insert_ne in Hg by assumption. exists r, props. auto.
  - intros [= <- <-]. auto.
Qed.

(** What a script reads before a successful [ensureGlobalObject] it reads
    after it. *)
Lemma ensureGlobalObject_keeps f name ctx objectValue ctx1 :
  ensureGlobalObject f name ctx = (Some objectValue, ctx1) →
  ∀ o m fn, scriptReads ctx o m fn → scriptReads ctx1 o m fn.
Proof.
  unfold ensureGlobalObject, JS_NewObject, JS_SetPropertyStr_global.
  destruct (JS_IsUndefined (JS_GetPropertyStr_global ctx name)
            || JS_IsNull (JS_GetPropertyStr_global ctx name)) eqn:Hex.
  - pose proof (fresh_object_absent ctx) as Hfresh.
    destruct (failNewObject f); simpl; [discriminate|].
    destruct (failSetProperty f); simpl; [discriminate|].
    intros [= <- <-] o m fn (r & props & Hg & Hh & Hp).
    exists r, props. simpl. split_and!; [|rewrite lookup_insert_ne; [exact Hh|congruence]|exact Hp].
    rewrite lookup_insert_ne; [exact Hg|]. intros <-.
    unfold JS_GetPropertyStr_global in Hex. rewrite Hg in Hex. discriminate.
  - intros [= <- <-]. auto.
Qed.

Lemma JS_DefinePropertyValueStr_outcome f ctx this_obj prop val status ctx' :
  JS_DefinePropertyValueStr f ctx this_obj prop val = (status, ctx') →
  (status = -1 ∧ ctx' = ctx)
  ∨ (∃ r props,
       this_obj = JS_Object r ∧ heap ctx !! r = Some props ∧ failDefineProperty f = false
       ∧ if refuseDefineProperty f then status = 0 ∧ ctx' = ctx
         else status = 1
              ∧ ctx' = set_heap (<[r := <[prop := val]> props]> (heap ctx)) ctx).
Proof.
  unfold JS_DefinePropertyValueStr.
  destruct this_obj as [| | | | | | |r]; try (intros [= <- <-]; left; split; reflexivity).
  destruct (heap ctx !! r) as [props|] eqn:Hheap; [|intros [= <- <-]; left; split; reflexivity].
  destruct (failDefineProperty f) eqn:Hfail; [intros [= <- <-]; left; split; reflexivity|].
  intros Hdef. right. exists r, props.
  split; [reflexivity|]. split; [exact Hheap|]. split; [reflexivity|].
  destruct (refuseDefineProperty f); injection Hdef as <- <-; split; reflexivity.
Qed.

Lemma JS_DefinePropertyValueStr_fails f ctx this_obj prop val status ctx' :
  JS_DefinePropertyValueStr f ctx this_obj prop val = (status, ctx') →
  (status <? 0) = true → ctx' = ctx.
Proof.
  intros Hdef Hst. apply Z.ltb_lt in Hst.
  destruct (JS_DefinePropertyValueStr_outcome _ _ _ _ _ _ _ Hdef)
    as [[_ ->]|(r & props & _ & _ & _ & Hres)]; [reflexivity|].
  destruct (refuseDefineProperty f); destruct Hres as [-> ?]; [assumption|lia].
Qed.

(** A function object is new and has no property a script could read
    through a namespace. *)
Lemma JS_NewCFunctionMagic_reads f ctx name length magic function ctx' :
  JS_NewCFunctionMagic f ctx name length magic = (function, ctx') →
  globalObject ctx' = globalObject ctx
  ∧ (∀ r props, heap ctx !! r = Some props → heap ctx' !! r = Some props)
  ∧ (∀ o m fn, scriptReads ctx' o m fn ↔ scriptReads ctx o m fn).
Proof.
  unfold JS_NewCFunctionMagic. pose proof (fresh_object_absent ctx) as Hfresh.
  destruct (failNewCFunction f); intros [= <- <-]; [split_and!; auto; tauto|].
  simpl. split_and!; [reflexivity| |].
  - intros r props Hr. rewrite lookup_insert_ne; [exact Hr|congruence].
  - intros o m fn. split; intros (r & props & Hg & Hh & Hp); simpl in *.
    + destruct (decide (r = fresh (dom (heap ctx)))) as [->|Hne].
      * rewrite lookup_insert_eq in Hh. injection Hh as <-. rewrite lookup_empty in Hp.
        discriminate.
      * rewrite lookup_insert_ne in Hh by congruence. exists r, props. auto.
    + exists r, props. simpl. rewrite lookup_insert_ne by congruence. auto.
Qed.

Lemma JS_NewCFunctionMagic_spec f ctx name length magic function ctx' :
  JS_NewCFunctionMagic f ctx name length magic = (function, ctx') →
  JS_IsException function = false →
  ∃ r, function = JS_Object r ∧ heap ctx !! r = None
       ∧ heap ctx' = <[r := ∅]> (heap ctx)
       ∧ functions ctx'
         = <[r := {| fnName := name; fnLength := length; fnMagic := magic |}]> (functions ctx).
Proof.
  unfold JS_NewCFunctionMagic. pose proof (fresh_object_absent ctx) as Hfresh.
  destruct (failNewCFunction f); intros [= <- <-]; [discriminate|]. intros _.
  exists (fresh (dom (heap ctx))). split_and!; auto.
Qed.

(** ** Registration *)

Lemma NewGlobalRef_globalRefs obj v :
  globalRefs (snd (NewGlobalRef obj v)) = handlesOf [fst (NewGlobalRef obj v)] ∪ globalRefs v
  ∧ handlesOf [fst (NewGlobalRef obj v)] ## globalRefs v
  ∧ pendingException (snd (NewGlobalRef obj v)) = pendingException v.
Proof.
  destruct obj as [r|]; simpl.
  - rewrite handlesOf_cons_Some. simpl. pose proof (is_fresh (globalRefs v)).
    split; [|split]; [set_solver|set_solver|reflexivity].
  - split; [|split]; [set_solver|set_solver|reflexivity].
Qed.

Lemma DeleteGlobalRef_globalRefs obj v :
  globalRefs (DeleteGlobalRef obj v) = globalRefs v ∖ handlesOf [obj].
Proof.
  destruct obj as [r|]; simpl.
  - rewrite handlesOf_cons_Some. set_solver.
  - set_solver.
Qed.

Lemma throwQuickJsException_globalRefs r message v :
  globalRefs (throwQuickJsException r message v) = globalRefs v.
Proof.
  unfold throwQuickJsException, ThrowNew, NewLocalRef.
  destruct (quickJsExceptionClass r) as [[h t]|]; simpl; [destruct t; reflexivity|reflexivity].
Qed.

(** Releasing the two references a registration acquired restores the
    global reference table. *)
Lemma acquire_release method instance v v' :
  let bm := fst (NewGlobalRef method v) in
  let v1 := snd (NewGlobalRef method v) in
  let bi := fst (NewGlobalRef instance v1) in
  let v2 := snd (NewGlobalRef instance v1) in
  globalRefs v' = globalRefs v2 →
  globalRefs (DeleteGlobalRef bi (DeleteGlobalRef bm v')) = globalRefs v.
Proof.
  intros bm v1 bi v2 Hv'.
  destruct (NewGlobalRef_globalRefs method v) as (H1 & D1 & _).
  destruct (NewGlobalRef_globalRefs instance v1) as (H2 & D2 & _).
  rewrite !DeleteGlobalRef_globalRefs, Hv'. subst bm v1 bi v2.
  rewrite H2, H1 in *. set_solver.
Qed.

Lemma allocate_rollback binding q c :
  bindings q !! nextBindingId q = None →
  let bindingId := fst (allocateBinding binding q) in
  let q' := rollbackBinding bindingId (set_context c (snd (allocateBinding binding q))) in
  bindings q' = bindings q
  ∧ globalRefs (vm q')
    = globalRefs (vm q) ∖ handlesOf [method binding] ∖ handlesOf [instance binding]
  ∧ context q' = c
  ∧ pendingException (vm q') = pendingException (vm q)
  ∧ refs q' = refs q.
Proof.
  intros Hfresh. unfold allocateBinding, rollbackBinding. simpl. rewrite Hfresh. simpl.
  rewrite lookup_insert_eq. simpl. rewrite delete_insert_eq, delete_id by assumption.
  rewrite !DeleteGlobalRef_globalRefs.
  split; [reflexivity|]. split; [reflexivity|]. split; [reflexivity|].
  split; [|reflexivity].
  destruct (instance binding), (method binding); reflexivity.
Qed.

Lemma throwQuickJsException_pending r message v h name :
  quickJsExceptionClass r = Some {| handle := h; target := JClass name |} →
  pendingException (throwQuickJsException r message v) = Some (Raised name (MsgText message)).
Proof. unfold throwQuickJsException. intros ->. reflexivity. Qed.

Lemma DeleteGlobalRef_pending obj v :
  pendingException (DeleteGlobalRef obj v) = pendingException v.
Proof. destruct obj; reflexivity. Qed.

(** The two ways a registration ends, from a state whose counter value is
    not in use.  Either it has rolled
    back (registry and global references as before, nothing new readable
    by scripts, and the bridge exception raised when its class is cached),
    or it raises nothing, has advanced the counter, and has stored one
    binding under the counter's old value and, unless the engine refused
    the property without raising, attached the function. *)
Lemma register_outcome (f : EngineFaults)
    (oName mName : option string) (meth inst : jobject)
    (parameterTypes : option (list jobject)) (returnType : jobject) (q : QuickJsContext) :
  let q' := Java_io_ton_walletkit_quickjs_QuickJs_nativeRegister
              f oName mName meth inst parameterTypes returnType q in
  bindings q !! nextBindingId q = None →
  (bindings q' = bindings q
   ∧ globalRefs (vm q') = globalRefs (vm q)
   ∧ (∀ o m fn, scriptReads (context q') o m fn → scriptReads (context q) o m fn)
   ∧ (∀ h name, quickJsExceptionClass (refs q) = Some {| handle := h; target := JClass name |} →
                pendingException (vm q') ≠ None))
  ∨ (pendingException (vm q') = pendingException (vm q)
     ∧ nextBindingId q' = wrap 32 (nextBindingId q + 1)
     ∧ ∃ b r props,
         id b = nextBindingId q
         ∧ objectName b = toUtfString oName
         ∧ methodName b = toUtfString mName
         ∧ bindings q' = <[nextBindingId q := b]> (bindings q)
         ∧ globalObject (context q') !! toUtfString oName = Some (JS_Object r)
         ∧ heap (context q') !! r = Some props
         ∧ (if refuseDefineProperty f
            then ∀ o m fn, scriptReads (context q') o m fn → scriptReads (context q) o m fn
            else ∃ fn, props !! toUtfString mName = Some (JS_Object fn)
                       ∧ functions (context q') !! fn
                         = Some {| fnName := toUtfString mName;
                                   fnLength := Z.of_nat (length (default [] parameterTypes));
                                   fnMagic := nextBindingId q |})
         ∧ globalRefs (vm q') = handlesOf [method b; instance b] ∪ globalRefs (vm q)
         ∧ handlesOf [method b; instance b] ## globalRefs (vm q)
         ∧ localRefs (vm q') = localRefs (vm q)
         ∧ classifyParameters (refs q) (default [] parameterTypes) [] = Some (parameterKinds b)
         ∧ classifyReturn (refs q) returnType = Some (returnKind b)
         ∧ (∀ o' m' fn, m' ≠ toUtfString mName →
              scriptReads (context q) o' m' fn → scriptReads (context q') o' m' fn)).
Proof.
  intros q' Hfresh. subst q'.
  unfold Java_io_ton_walletkit_quickjs_QuickJs_nativeRegister.
  destruct (bool_decide (toUtfString oName = "") || bool_decide (toUtfString mName = "")).
  { left. unfold failRegistration. simpl. rewrite throwQuickJsException_globalRefs.
    split_and!; auto. intros h name Hc. rewrite (throwQuickJsException_pending _ _ _ _ _ Hc).
    discriminate. }
  pose proof (acquire_release meth inst (vm q)) as Hrel.
  pose proof (NewGlobalRef_globalRefs meth (vm q)) as (T1 & D1 & P1).
  destruct (NewGlobalRef meth (vm q)) as [bm v1] eqn:E1. simpl in Hrel, T1, D1, P1.
  pose proof (NewGlobalRef_globalRefs inst v1) as (T2 & D2 & P2).
  destruct (NewGlobalRef inst v1) as [bi v2] eqn:E2. simpl in Hrel, T2, D2, P2.
  destruct (classifyParameters (refs q) (default [] parameterTypes) []) as [kinds|].
  2: { left. simpl. split_and!; [reflexivity| |auto|].
       - apply Hrel, throwQuickJsException_globalRefs.
       - intros h name Hc. rewrite !DeleteGlobalRef_pending.
         rewrite (throwQuickJsException_pending _ _ _ _ _ Hc). discriminate. }
  destruct (classifyReturn (refs q) returnType) as [kind|].
  2: { left. simpl. split_and!; [reflexivity| |auto|].
       - apply Hrel, throwQuickJsException_globalRefs.
       - intros h name Hc. rewrite !DeleteGlobalRef_pending.
         rewrite (throwQuickJsException_pending _ _ _ _ _ Hc). discriminate. }
  match goal with |- context [allocateBinding ?b ?q0] =>
    pose proof (λ c, allocate_rollback b q0 c Hfresh) as Hroll;
    destruct (allocateBinding b q0) as [bindingId q2] eqn:Ealloc
  end.
  simpl in Hroll.
  unfold allocateBinding in Ealloc. simpl in Ealloc. rewrite Hfresh in Ealloc.
  injection Ealloc as <- <-. simpl context.
  assert (Hdone : ∀ message c q2',
            context q2' = c → refs q2' = refs q →
            bindings (rollbackBinding (nextBindingId q) q2') = bindings q →
            globalRefs (vm (rollbackBinding (nextBindingId q) q2'))
            = globalRefs v2 ∖ handlesOf [bm] ∖ handlesOf [bi] →
            context (rollbackBinding (nextBindingId q) q2') = c →
            refs (rollbackBinding (nextBindingId q) q2') = refs q →
            (∀ o m fn, scriptReads c o m fn → scriptReads (context q) o m fn) →
            let q' := failRegistration message (rollbackBinding (nextBindingId q) q2') in
            bindings q' = bindings q ∧ globalRefs (vm q') = globalRefs (vm q)
            ∧ (∀ o m fn, scriptReads (context q') o m fn → scriptReads (context q) o m fn)
            ∧ (∀ h name, quickJsExceptionClass (refs q)
                         = Some {| handle := h; target := JClass name |} →
                         pendingException (vm q') ≠ None)).
  { intros message c q2' _ _ Hb Hg Hctx Hr Hc.
    unfold failRegistration. simpl. rewrite throwQuickJsException_globalRefs.
    split_and!; [exact Hb| |rewrite Hctx; exact Hc|].
    - rewrite Hg, T2, T1. set_solver.
    - intros h name Hcls. rewrite Hr, (throwQuickJsException_pending _ _ _ _ _ Hcls).
      discriminate. }
  destruct (ensureGlobalObject f (toUtfString oName) (context q))
    as [[objectValue|] ctx1] eqn:Ens.
  2: { left. destruct (Hroll ctx1) as (Hb & Hg & Hctx & _ & Hr).
       apply (Hdone _ ctx1); try assumption; try reflexivity.
       eapply ensureGlobalObject_reads, Ens. }
  pose proof (λ o m fn, ensureGlobalObject_reads _ _ _ _ _ Ens o m fn) as Hens.
  assert (Hglobal : globalObject ctx1 !! toUtfString oName = Some objectValue
                    ∨ ∀ r, objectValue ≠ JS_Object r).
  { unfold ensureGlobalObject, JS_NewObject, JS_SetPropertyStr_global in Ens.
    destruct (JS_IsUndefined (JS_GetPropertyStr_global (context q) (toUtfString oName))
              || JS_IsNull (JS_GetPropertyStr_global (context q) (toUtfString oName)))
      eqn:Hex.
    - destruct (failNewObject f); simpl in Ens; [discriminate|].
      destruct (failSetProperty f); simpl in Ens; [discriminate|].
      injection Ens as <- <-. left. simpl. apply lookup_insert_eq.
    - injection Ens as Hov <-. unfold JS_GetPropertyStr_global in Hov, Hex.
      destruct (globalObject (context q) !! toUtfString oName) as [x|];
        simpl in Hov, Hex; [left; congruence|discriminate]. }
  match goal with |- context [JS_NewCFunctionMagic ?a ?b ?c ?d ?e] =>
    pose proof (JS_NewCFunctionMagic_reads a b c d e) as Hfn;
    pose proof (JS_NewCFunctionMagic_spec a b c d e) as Hfnspec;
    destruct (JS_NewCFunctionMagic a b c d e) as [function ctx2] eqn:Efn
  end.
  destruct (Hfn _ _ eq_refl) as (Hfg & Hfh & Hfreads). clear Hfn.
  specialize (Hfnspec _ _ eq_refl).
  destruct (JS_IsException function) eqn:Hexc.
  { left. destruct (Hroll ctx2) as (Hb & Hg & Hctx & _ & Hr).
    apply (Hdone _ ctx2); try assumption; try reflexivity.
    intros o m fn Hread. apply Hens, Hfreads, Hread. }
  destruct (Hfnspec eq_refl) as (fnr & -> & Hfnfresh & Hfnheap & Hfnfuns). clear Hfnspec.
  simpl context.
  match goal with |- context [JS_DefinePropertyValueStr ?a ?b ?c ?d ?e] =>
    pose proof (JS_DefinePropertyValueStr_outcome a b c d e) as Hdef;
    destruct (JS_DefinePropertyValueStr a b c d e) as [status ctx3] eqn:Edef
  end.
  specialize (Hdef _ _ eq_refl).
  destruct (status <? 0) eqn:Hst.
  - left. pose proof (JS_DefinePropertyValueStr_fails _ _ _ _ _ _ _ Edef Hst) as ->.
    destruct (Hroll ctx2) as (Hb & Hg & Hctx & _ & Hr).
    apply (Hdone _ ctx2); try assumption; try reflexivity.
    intros o m fn Hread. apply Hens, Hfreads, Hread.
  - apply Z.ltb_ge in Hst.
    destruct Hdef as [[-> _]|(r & props & -> & Hheap & _ & Hres)]; [lia|].
    destruct Hglobal as [Hglobal|Hno]; [|exfalso; exact (Hno r eq_refl)].
    right. simpl. split; [congruence|]. split; [reflexivity|].
    assert (Hrefs : globalRefs v2 = handlesOf [bm; bi] ∪ globalRefs (vm q)
                    ∧ handlesOf [bm; bi] ## globalRefs (vm q)).
    { change [bm; bi] with ([bm] ++ [bi]). rewrite handlesOf_app, T2, T1.
      rewrite T1 in D2. split; set_solver. }
    assert (Hlocal : localRefs v2 = localRefs (vm q)).
    { destruct meth, inst; simpl in E1, E2;
        repeat match goal with
        | Heq : (_, _) = (_, _) |- _ => injection Heq as <- <-
        end; reflexivity. }
    destruct Hrefs as [Hrefs Hdisj].
    destruct (refuseDefineProperty f) eqn:Hrefuse; destruct Hres as [-> ->].
    + eexists _, r, props. split_and!.
      4: reflexivity.
      all: try reflexivity; try assumption.
      * simpl. rewrite Hfg. exact Hglobal.
      * intros o m fn Hread. apply Hens, Hfreads, Hread.
      * intros o' m' fn _ Hread.
        apply Hfreads, (ensureGlobalObject_keeps _ _ _ _ _ Ens), Hread.
    + eexists _, r, _. split_and!.
      4: reflexivity.
      all: try reflexivity; try assumption.
      * simpl. rewrite Hfg. exact Hglobal.
      * simpl. apply lookup_insert_eq.
      * exists fnr. simpl. rewrite lookup_insert_eq, Hfnfuns, lookup_insert_eq. auto.
      * intros o' m' fn Hm' Hread.
        apply (ensureGlobalObject_keeps _ _ _ _ _ Ens), Hfreads in Hread
          as (r0 & props0 & Hg0 & Hh0 & Hp0).
        destruct (decide (r0 = r)) as [->|Hne].
        -- exists r, (<[toUtfString mName := JS_Object fnr]> props).
           simpl. rewrite lookup_insert_eq. split_and!; [exact Hg0|reflexivity|].
           rewrite lookup_insert_ne by congruence. congruence.
        -- exists r0, props0. simpl. rewrite lookup_insert_ne by congruence. auto.
Qed.

(** C2: a registration that fails, at whichever stage, leaves the registry
    as it was, has released the two global references it acquired, and has
    made nothing readable by scripts that was not readable before. *)
Theorem C2_registration_all_or_nothing (f : EngineFaults)
    (objectName methodName : option string) (method instance : jobject)
    (parameterTypes : option (list jobject)) (returnType : jobject) (q : QuickJsContext) :
  let q' := Java_io_ton_walletkit_quickjs_QuickJs_nativeRegister
              f objectName methodName method instance parameterTypes returnType q in
  pendingException (vm q) = None →
  bindings q !! nextBindingId q = None →
  pendingException (vm q') ≠ None →
  bindings q' = bindings q
  ∧ globalRefs (vm q') = globalRefs (vm q)
  ∧ (∀ o m fn, scriptReads (context q') o m fn → scriptReads (context q) o m fn).
Proof.
  intros q' Hpend Hfresh Hfail.
  destruct (register_outcome f objectName methodName method instance parameterTypes
              returnType q Hfresh) as [(Hb & Hg & Hs & _)|[Hok _]].
  - split_and!; assumption.
  - fold q' in Hok. congruence.
Qed.

Lemma C2_registration_all_or_nothing_witness :
  let q' := Java_io_ton_walletkit_quickjs_QuickJs_nativeRegister
              {| failNewObject := false; failSetProperty := false;
                 failNewCFunction := false; failDefineProperty := true;
                 refuseDefineProperty := false |}
              (Some "Printer"%string) (Some "log"%string) (methodRef 2)
              (Some {| handle := 7; target := JInstance 1 |})
              (Some [classRef "java/lang/String"]) (classRef "void") sampleContext in
  bindings q' = bindings sampleContext
  ∧ globalRefs (vm q') = globalRefs (vm sampleContext)
  ∧ (∀ o m fn, scriptReads (context q') o m fn → scriptReads (context sampleContext) o m fn).
Proof.
  apply (C2_registration_all_or_nothing
           {| failNewObject := false; failSetProperty := false;
              failNewCFunction := false; failDefineProperty := true;
                 refuseDefineProperty := false |}
           (Some "Printer"%string) (Some "log"%string) (methodRef 2)
           (Some {| handle := 7; target := JInstance 1 |})
           (Some [classRef "java/lang/String"]) (classRef "void") sampleContext).
  - reflexivity.
  - reflexivity.
  - vm_compute. discriminate.
Defined.

(** Each failure stage does raise the bridge exception. *)
Example unsupported_parameter_raises :
  pendingException (vm (Java_io_ton_walletkit_quickjs_QuickJs_nativeRegister noFaults
     (Some "Printer"%string) (Some "log"%string) (methodRef 2) None
     (Some [classRef "java/util/List"]) (classRef "void") sampleContext))
  = Some (Raised "io/ton/walletkit/quickjs/QuickJsException"
            (MsgText "Unsupported parameter type for method Printer.log")).
Proof. vm_compute. reflexivity. Qed.

Example namespace_failure_raises :
  pendingException (vm (Java_io_ton_walletkit_quickjs_QuickJs_nativeRegister
     {| failNewObject := true; failSetProperty := false;
        failNewCFunction := false; failDefineProperty := false;
                 refuseDefineProperty := false |}
     (Some "Printer"%string) (Some "log"%string) (methodRef 2) None
     (Some [classRef "java/lang/String"]) (classRef "void") sampleContext))
  = Some (Raised "io/ton/walletkit/quickjs/QuickJsException"
            (MsgText "Failed to create host object Printer")).
Proof. vm_compute. reflexivity. Qed.

Example function_failure_raises :
  pendingException (vm (Java_io_ton_walletkit_quickjs_QuickJs_nativeRegister
     {| failNewObject := false; failSetProperty := false;
        failNewCFunction := true; failDefineProperty := false;
                 refuseDefineProperty := false |}
     (Some "Printer"%string) (Some "log"%string) (methodRef 2) None
     (Some [classRef "java/lang/String"]) (classRef "void") sampleContext))
  = Some (Raised "io/ton/walletkit/quickjs/QuickJsException"
            (MsgText "Failed to create native function for Printer.log")).
Proof. vm_compute. reflexivity. Qed.

(** ** Registry: what each call does to it *)

Lemma same_registry_refl q : same_registry q q.
Proof. repeat split. Qed.

Lemma same_registry_trans q1 q2 q3 :
  same_registry q1 q2 → same_registry q2 q3 → same_registry q1 q3.
Proof. unfold same_registry. intros (?&?&?&?) (?&?&?&?). repeat split; congruence. Qed.

Lemma same_registry_set_vm v q : same_registry q (set_vm v q).
Proof. repeat split. Qed.

Lemma same_registry_set_context c q : same_registry q (set_context c q).
Proof. repeat split. Qed.

Lemma convertArguments_registry E binding argsArray kinds :
  ∀ index argv localArgs q res q',
    convertArguments E binding argsArray kinds index argv localArgs q = (res, q') →
    same_registry q q'.
Proof.
  induction kinds as [|kind rest IH]; intros index argv localArgs q res q'; simpl.
  - intros [= _ <-]. apply same_registry_refl.
  - destruct (convertJsToJava E kind (default JS_UNDEFINED (argv !! index)) (vm q))
      as [[r|] v1].
    + intros Hc. apply IH in Hc.
      eapply same_registry_trans; [apply (same_registry_set_vm v1)|exact Hc].
    + destruct (decide (kind ≠ kString)).
      * intros [= _ <-]. repeat split.
      * intros Hc. apply IH in Hc.
        eapply same_registry_trans; [apply (same_registry_set_vm v1)|exact Hc].
Qed.

Lemma invokeBinding_registry E H binding argv q res q' :
  invokeBinding E H binding argv q = Some (res, q') → same_registry q q'.
Proof.
  unfold invokeBinding. destruct (negb (requireEnv (vm q))).
  { intros [= _ <-]. repeat split. }
  destruct (if decide (0 < length (parameterKinds binding))%nat
            then NewLocalRef JObjectArray (vm q) else (None, vm q)) as [argsArray v0].
  pose proof (convertArguments_registry E binding argsArray (parameterKinds binding)
                0 argv [] (set_vm v0 q)) as Hconv.
  destruct (convertArguments E binding argsArray (parameterKinds binding) 0 argv []
              (set_vm v0 q)) as [[e0|localArgs] q1].
  - intros [= _ <-]. specialize (Hconv _ _ eq_refl).
    destruct Hconv as (?&?&?&?). repeat split; assumption.
  - assert (Hq1 : same_registry q q1).
    { specialize (Hconv _ _ eq_refl). destruct Hconv as (?&?&?&?). repeat split; assumption. }
    destruct (method binding) as [[hm tm]|]; [|discriminate].
    destruct tm; try discriminate.
    destruct (CallObjectMethod_invoke H m (instance binding) localArgs (vm q1))
      as [invocationResult v2].
    destruct (pendingException _).
    + intros [= _ <-]. destruct Hq1 as (?&?&?&?). repeat split; assumption.
    + destruct (decide (returnKind binding ≠ kVoid)).
      * destruct (convertJavaToJs (returnKind binding) invocationResult); simpl;
          [|discriminate].
        intros [= _ <-]. destruct Hq1 as (?&?&?&?). repeat split; assumption.
      * simpl. intros [= _ <-]. destruct Hq1 as (?&?&?&?). repeat split; assumption.
Qed.

Lemma methodDispatcher_registry E H argv magic q res q' :
  methodDispatcher E H argv magic q = Some (res, q') → same_registry q q'.
Proof.
  unfold methodDispatcher. destruct (bindings q !! magic).
  - apply invokeBinding_registry.
  - intros [= _ <-]. repeat split.
Qed.

Lemma rollbackBinding_counter bindingId q :
  nextBindingId (rollbackBinding bindingId q) = nextBindingId q
  ∧ assigned (rollbackBinding bindingId q) = assigned q
  ∧ refs (rollbackBinding bindingId q) = refs q.
Proof. unfold rollbackBinding. destruct (bindings q !! bindingId); repeat split. Qed.

(** A registration either leaves the counter and the history alone, or
    hands out the counter's value and advances the counter by one. *)
Lemma register_counter f objectName methodName method instance parameterTypes returnType q :
  let q' := Java_io_ton_walletkit_quickjs_QuickJs_nativeRegister
              f objectName methodName method instance parameterTypes returnType q in
  refs q' = refs q
  ∧ ((nextBindingId q' = nextBindingId q ∧ assigned q' = assigned q
      ∧ bindings q' = bindings q)
     ∨ (nextBindingId q' = wrap 32 (nextBindingId q + 1)
        ∧ assigned q' = assigned q ++ [nextBindingId q])).
Proof.
  intros q'. subst q'. unfold Java_io_ton_walletkit_quickjs_QuickJs_nativeRegister.
  destruct (bool_decide _ || bool_decide _); [split; [reflexivity|left; repeat split]|].
  destruct (NewGlobalRef method (vm q)) as [bm v1].
  destruct (NewGlobalRef instance v1) as [bi v2].
  destruct (classifyParameters _ _ _); [|split; [reflexivity|left; repeat split]].
  destruct (classifyReturn _ _); [|split; [reflexivity|left; repeat split]].
  match goal with |- context [allocateBinding ?b ?q0] =>
    assert (Ha : nextBindingId (snd (allocateBinding b q0)) = wrap 32 (nextBindingId q + 1)
                 ∧ assigned (snd (allocateBinding b q0)) = assigned q ++ [nextBindingId q]
                 ∧ fst (allocateBinding b q0) = nextBindingId q
                 ∧ refs (snd (allocateBinding b q0)) = refs q)
      by (unfold allocateBinding; simpl; destruct (bindings q !! nextBindingId q);
          repeat split);
    destruct (allocateBinding b q0) as [bindingId q2]
  end.
  simpl in Ha. destruct Ha as (Hn & Hl & -> & Hr).
  destruct (ensureGlobalObject _ _ _) as [[objectValue|] ctx1].
  2: { unfold failRegistration. simpl.
       destruct (rollbackBinding_counter (nextBindingId q) (set_context ctx1 q2)) as (-> & -> & ->).
       split; [exact Hr|right; split; assumption]. }
  destruct (JS_NewCFunctionMagic _ _ _ _ _) as [function ctx2].
  destruct (JS_IsException _).
  { unfold failRegistration. simpl.
    destruct (rollbackBinding_counter (nextBindingId q) (set_context ctx2 q2)) as (-> & -> & ->).
    split; [exact Hr|right; split; assumption]. }
  destruct (JS_DefinePropertyValueStr _ _ _ _ _) as [status ctx3].
  destruct (status <? 0).
  - unfold failRegistration. simpl.
    destruct (rollbackBinding_counter (nextBindingId q)
                (set_context ctx3 (set_context ctx2 q2))) as (-> & -> & ->).
    split; [exact Hr|right; split; assumption].
  - simpl. split; [exact Hr|right; split; assumption].
Qed.

(** ** Identifier assignment *)

Lemma counter_inv_create v :
  counter_inv (Java_io_ton_walletkit_quickjs_QuickJs_nativeCreate v).
Proof.
  unfold counter_inv, Java_io_ton_walletkit_quickjs_QuickJs_nativeCreate.
  destruct (cacheJavaReferences v). simpl. intros _. split; reflexivity.
Qed.

Lemma perform_counter_inv E H c q q' :
  counter_inv q → perform E H c q = Some q' → counter_inv q'.
Proof.
  intros Hinv. destruct c as [f o m me i p r|argv magic]; simpl.
  - intros [= <-].
    destruct (register_counter f o m me i p r q) as (_ & [(Hn & Hl & _)|(Hn & Hl)]).
    + unfold counter_inv. simpl. rewrite Hn, Hl. exact Hinv.
    + unfold counter_inv. simpl. rewrite Hn, Hl, length_app. simpl length.
      intros Hlen. destruct Hinv as [Hnext Hseq]; [unfold INT_MAX in *; lia|].
      split.
      * rewrite Hnext, wrap_id by (unfold INT_MAX in *; simpl; lia). lia.
      * rewrite Hnext. replace (length (assigned q) + 1)%nat with (S (length (assigned q))) by lia.
        rewrite seqZ_S. rewrite <- Hseq. reflexivity.
  - destruct (methodDispatcher E H argv magic q) as [[res q1]|] eqn:Hd; simpl; [|discriminate].
    intros [= <-]. apply methodDispatcher_registry in Hd as (_ & Hn & Hl & _).
    unfold counter_inv. rewrite Hn, Hl. exact Hinv.
Qed.

Lemma performAll_counter_inv E H calls :
  ∀ q q', counter_inv q → performAll E H calls q = Some q' → counter_inv q'.
Proof.
  induction calls as [|c rest IH]; intros q q' Hinv; simpl.
  - intros [= <-]. exact Hinv.
  - destruct (perform E H c q) as [q1|] eqn:Hp; simpl; [|discriminate].
    apply IH. eapply perform_counter_inv; eassumption.
Qed.

Lemma wrap_succ_ne n : wrap 32 (n + 1) ≠ n.
Proof.
  unfold wrap. intros Heq.
  assert (Hm : (n + 1 + 2 ^ (32 - 1)) mod 2 ^ 32 = n + 2 ^ (32 - 1)) by lia.
  pose proof (Z.div_mod (n + 1 + 2 ^ (32 - 1)) (2 ^ 32) ltac:(lia)) as Hd.
  rewrite Hm in Hd. lia.
Qed.


Example sample_identifiers : assigned sampleFinal = [1; 2; 3].
Proof. vm_compute. reflexivity. Qed.

Example sample_registry : fst <$> map_to_list (bindings sampleFinal) = [3; 1].
Proof. vm_compute. reflexivity. Qed.

(** ** Lifetime of a binding *)

Lemma registry_wf_fresh q : registry_wf q → bindings q !! nextBindingId q = None.
Proof.
  intros [_ Hk]. destruct (bindings q !! nextBindingId q) eqn:Hb; [|reflexivity].
  specialize (Hk (nextBindingId q) ltac:(rewrite Hb; eauto)). lia.
Qed.

(** A call never removes a binding that is in the registry, and keeps
    the registry well formed. *)
Lemma perform_keeps E H c q q' :
  registry_wf q → nextBindingId q < INT_MAX → perform E H c q = Some q' →
  registry_wf q'
  ∧ nextBindingId q' <= nextBindingId q + 1
  ∧ ∀ k b, bindings q !! k = Some b → bindings q' !! k = Some b.
Proof.
  intros Hwf Hmax. pose proof Hwf as [Hone Hkeys].
  destruct c as [f o m me i p r|argv magic]; simpl.
  - intros [= <-]. simpl.
    destruct (register_outcome f o m me i p r q (registry_wf_fresh q Hwf))
      as [(Hb & _)|(_ & Hn & b & _ & _ & _ & _ & _ & Hb & _)].
    + destruct (register_counter f o m me i p r q) as (_ & [(Hn & _)|(Hn & _)]).
      * unfold registry_wf. simpl. rewrite Hn, Hb. split_and!; [exact Hone|exact Hkeys|lia|auto].
      * rewrite wrap_id in Hn by (unfold INT_MAX in *; simpl; lia).
        unfold registry_wf. simpl. rewrite Hn, Hb. split_and!; [lia| |lia|auto].
        intros k Hk. specialize (Hkeys k Hk). lia.
    + rewrite wrap_id in Hn by (unfold INT_MAX in *; simpl; lia).
      unfold registry_wf. simpl. rewrite Hn, Hb. split_and!; [lia| |lia|].
      * intros k Hk. destruct (decide (k = nextBindingId q)) as [->|Hne]; [lia|].
        rewrite lookup_insert_ne in Hk by congruence. specialize (Hkeys k Hk). lia.
      * intros k b' Hk. rewrite lookup_insert_ne; [exact Hk|].
        intros <-. specialize (Hkeys (nextBindingId q) ltac:(rewrite Hk; eauto)). lia.
  - destruct (methodDispatcher E H argv magic q) as [[res q1]|] eqn:Hd; simpl; [|discriminate].
    intros [= <-]. apply methodDispatcher_registry in Hd as (Hb & Hn & _ & _).
    unfold registry_wf. rewrite Hn, Hb. split_and!; [exact Hone|exact Hkeys|lia|auto].
Qed.

Lemma performAll_keeps E H calls :
  ∀ q q', registry_wf q → nextBindingId q + Z.of_nat (length calls) <= INT_MAX →
          performAll E H calls q = Some q' →
          registry_wf q' ∧ ∀ k b, bindings q !! k = Some b → bindings q' !! k = Some b.
Proof.
  induction calls as [|c rest IH]; intros q q' Hwf Hlen; simpl.
  - intros [= <-]. auto.
  - destruct (perform E H c q) as [q1|] eqn:Hp; simpl; [|discriminate].
    simpl length in Hlen.
    destruct (perform_keeps E H c q q1 Hwf ltac:(lia) Hp) as (Hwf1 & Hn1 & Hk1).
    intros Hrest. destruct (IH q1 q' Hwf1 ltac:(lia) Hrest) as [Hwf' Hk'].
    split; [exact Hwf'|]. intros k b Hb. apply Hk', Hk1, Hb.
Qed.

Lemma foldl_DeleteGlobalRef_subset l v :
  globalRefs (foldl (λ v clazz, DeleteGlobalRef clazz v) v l) ⊆ globalRefs v.
Proof.
  revert v. induction l as [|c l IH]; intros v; simpl; [set_solver|].
  etransitivity; [apply IH|]. rewrite DeleteGlobalRef_globalRefs. set_solver.
Qed.

(** The locked block of [nativeDestroy] empties the registry and deletes
    the two global references of every binding. *)
Lemma releaseBindings_released q :
  bindings (releaseBindings q) = ∅
  ∧ globalRefs (vm (releaseBindings q)) ⊆ globalRefs (vm q)
  ∧ ∀ k b, bindings q !! k = Some b →
           handlesOf [method b; instance b] ## globalRefs (vm (releaseBindings q)).
Proof.
  unfold releaseBindings. simpl. split; [reflexivity|].
  apply (map_fold_weak_ind
           (λ r (m : gmap Z MethodBinding),
              globalRefs r ⊆ globalRefs (vm q)
              ∧ ∀ k b, m !! k = Some b → handlesOf [method b; instance b] ## globalRefs r)).
  - split; [set_solver|]. intros k b Hk. rewrite lookup_empty in Hk. discriminate.
  - intros i x m r Hi [Hsub Hdis]. rewrite !DeleteGlobalRef_globalRefs. split; [set_solver|].
    intros k b Hk. destruct (decide (i = k)) as [->|Hne].
    + rewrite lookup_insert_eq in Hk. injection Hk as <-.
      change [method x; instance x] with ([method x] ++ [instance x]).
      rewrite handlesOf_app. set_solver.
    + rewrite lookup_insert_ne in Hk by assumption. specialize (Hdis k b Hk). set_solver.
Qed.

(** C10: a registration that completes without raising stores its binding
    under the identifier it was assigned; no later call (registration,
    failed or not, or call of a bound function) removes it, so the
    dispatcher finds it at every invocation; [nativeDestroy] empties the
    registry and deletes the global references of every binding. *)
Theorem C10_binding_lifetime (E : Engine) (H : Host) (f : EngineFaults)
    (oName mName : option string) (meth inst : jobject)
    (parameterTypes : option (list jobject)) (returnType : jobject)
    (q0 : QuickJsContext) (calls : list BridgeCall) (q' : QuickJsContext)
    (h : nat) (name : string) :
  let q := Java_io_ton_walletkit_quickjs_QuickJs_nativeRegister
             f oName mName meth inst parameterTypes returnType q0 in
  registry_wf q0 →
  quickJsExceptionClass (refs q0) = Some {| handle := h; target := JClass name |} →
  pendingException (vm q0) = None →
  pendingException (vm q) = None →
  nextBindingId q0 + 1 + Z.of_nat (length calls) <= INT_MAX →
  performAll E H calls q = Some q' →
  ∃ b, id b = nextBindingId q0
       ∧ objectName b = toUtfString oName ∧ methodName b = toUtfString mName
       ∧ bindings q !! nextBindingId q0 = Some b
       ∧ bindings q' !! nextBindingId q0 = Some b
       ∧ (∀ argv, methodDispatcher E H argv (nextBindingId q0) q'
                  = invokeBinding E H b argv q')
       ∧ bindings (releaseBindings q') = ∅
       ∧ (∀ k b', bindings q' !! k = Some b' →
            handlesOf [method b'; instance b']
            ## globalRefs (Java_io_ton_walletkit_quickjs_QuickJs_nativeDestroy q')).
Proof.
  intros q Hwf Hcls Hp0 Hp Hlen Hrun. pose proof Hwf as [Hone Hkeys].
  destruct (register_outcome f oName mName meth inst parameterTypes returnType q0
              (registry_wf_fresh q0 Hwf))
    as [(_ & _ & _ & Hraise)|(_ & Hn & b & _ & _ & Hid & Ho & Hm & Hb & _)].
  { exfalso. exact (Hraise h name Hcls Hp). }
  fold q in Hn, Hb.
  rewrite wrap_id in Hn by (unfold INT_MAX in *; simpl; lia).
  assert (Hwfq : registry_wf q).
  { unfold registry_wf. rewrite Hn, Hb. split; [lia|]. intros k Hk.
    destruct (decide (k = nextBindingId q0)) as [->|Hne]; [lia|].
    rewrite lookup_insert_ne in Hk by congruence. specialize (Hkeys k Hk). lia. }
  destruct (performAll_keeps E H calls q q' Hwfq ltac:(lia) Hrun) as [_ Hkeep].
  assert (Hbq : bindings q !! nextBindingId q0 = Some b)
    by (rewrite Hb; apply lookup_insert_eq).
  exists b. split_and!; try assumption.
  - apply Hkeep, Hbq.
  - intros argv. unfold methodDispatcher. rewrite (Hkeep _ _ Hbq). reflexivity.
  - apply releaseBindings_released.
  - intros k b' Hk. unfold Java_io_ton_walletkit_quickjs_QuickJs_nativeDestroy.
    destruct (releaseBindings_released q') as (_ & _ & Hdis). specialize (Hdis k b' Hk).
    pose proof (foldl_DeleteGlobalRef_subset
                  [methodClass (refs (releaseBindings q')); stringClass (refs (releaseBindings q'));
                   booleanClass (refs (releaseBindings q'));
                   booleanTypeClass (refs (releaseBindings q'));
                   integerClass (refs (releaseBindings q'));
                   integerTypeClass (refs (releaseBindings q'));
                   longClass (refs (releaseBindings q')); longTypeClass (refs (releaseBindings q'));
                   doubleClass (refs (releaseBindings q'));
                   doubleTypeClass (refs (releaseBindings q'));
                   voidTypeClass (refs (releaseBindings q')); objectClass (refs (releaseBindings q'));
                   throwableClass (refs (releaseBindings q'));
                   quickJsExceptionClass (refs (releaseBindings q'))]
                  (vm (releaseBindings q'))) as Hsub.
    unfold releaseJavaReferences. set_solver.
Qed.

Lemma C10_binding_lifetime_witness :
  ∃ b, id b = 1
       ∧ objectName b = "Calculator"%string ∧ methodName b = "add"%string
       ∧ bindings sampleFinal !! 1 = Some b
       ∧ bindings (releaseBindings sampleFinal) = ∅.
Proof.
  destruct (C10_binding_lifetime sampleEngine sampleHost noFaults
              (Some "Calculator"%string) (Some "add"%string) (methodRef 0) None
              (Some [classRef "int"; classRef "int"]) (classRef "int")
              sampleContext (tail sampleCalls) sampleFinal
              8 "io/ton/walletkit/quickjs/QuickJsException")
    as (b & Hid & Ho & Hm & _ & Hb & _ & Hrel & _).
  - assert (Hb0 : bindings sampleContext = ∅) by (vm_compute; reflexivity).
    assert (Hn0 : nextBindingId sampleContext = 1) by (vm_compute; reflexivity).
    split; [rewrite Hn0; lia|]. intros k [x Hk].
    rewrite Hb0, lookup_empty in Hk. discriminate.
  - vm_compute. reflexivity.
  - reflexivity.
  - vm_compute. reflexivity.
  - vm_compute. discriminate.
  - vm_compute. reflexivity.
  - exists b. split_and!; assumption.
Defined.

(** * Further properties of the code *)

(** ** Dispatcher: references and arguments *)

Lemma foldl_DeleteLocalRef_other l v :
  globalRefs (foldl (λ v item, DeleteLocalRef item v) v l) = globalRefs v
  ∧ envStatus (foldl (λ v item, DeleteLocalRef item v) v l) = envStatus v.
Proof.
  revert v. induction l as [|item l IH]; intros v; simpl; [auto|].
  destruct (IH (DeleteLocalRef item v)) as [-> ->]. destruct item; auto.
Qed.

Lemma convertJsToJava_other E kind value v :
  globalRefs (snd (convertJsToJava E kind value v)) = globalRefs v
  ∧ pendingException (snd (convertJsToJava E kind value v)) = pendingException v
  ∧ envStatus (snd (convertJsToJava E kind value v)) = envStatus v.
Proof.
  destruct (convertJsToJava_cases E kind value v) as [->|[o ->]]; auto.
Qed.

(** The accounting of the argument loop: on the early return every
    reference made so far and the argument array are deleted; otherwise
    the converted arguments are fresh local references. *)
Lemma convertArguments_refs E binding argsArray kinds :
  ∀ index argv localArgs q res q',
    convertArguments E binding argsArray kinds index argv localArgs q = (res, q') →
    globalRefs (vm q') = globalRefs (vm q)
    ∧ pendingException (vm q') = pendingException (vm q)
    ∧ match res with
      | inl e =>
          e = JS_EXCEPTION
          ∧ localRefs (vm q') = localRefs (vm q) ∖ handlesOf (argsArray :: localArgs)
      | inr args =>
          ∃ new, args = localArgs ++ new
                 ∧ length new = length kinds
                 ∧ handlesOf new ## localRefs (vm q)
                 ∧ localRefs (vm q') = localRefs (vm q) ∪ handlesOf new
                 ∧ context q' = context q
      end.
Proof.
  induction kinds as [|kind rest IH]; intros index argv localArgs q res q'; simpl.
  - intros [= <- <-]. split_and!; try reflexivity.
    exists []. rewrite app_nil_r. split_and!; try reflexivity; set_solver.
  - pose proof (convertJsToJava_other E kind (default JS_UNDEFINED (argv !! index)) (vm q))
      as (Hg & Hp & _).
    destruct (convertJsToJava_cases E kind (default JS_UNDEFINED (argv !! index)) (vm q))
      as [Hc|[o Hc]]; rewrite Hc in *; simpl in Hg, Hp.
    + destruct (decide (kind ≠ kString)).
      * intros [= <- <-]. simpl.
        destruct (foldl_DeleteLocalRef_other localArgs (DeleteLocalRef argsArray (vm q)))
          as [Hg' _].
        rewrite foldl_DeleteLocalRef_pending, DeleteLocalRef_pending, Hg'.
        split_and!; try reflexivity; [destruct argsArray; reflexivity|].
        rewrite foldl_DeleteLocalRef_localRefs, DeleteLocalRef_localRefs.
        change (argsArray :: localArgs) with ([argsArray] ++ localArgs).
        rewrite handlesOf_app. set_solver.
      * rewrite set_vm_same. intros Hrec. apply IH in Hrec as (Hg' & Hp' & Hres).
        split_and!; [exact Hg'|exact Hp'|].
        destruct res as [e|args].
        -- destruct Hres as [-> ->]. split; [reflexivity|].
           change (argsArray :: localArgs ++ [None])
             with ([argsArray] ++ (localArgs ++ [None])).
           change (argsArray :: localArgs) with ([argsArray] ++ localArgs).
           rewrite !handlesOf_app. set_solver.
        -- destruct Hres as (new & -> & Hlen & Hdis & Hl & Hctx).
           exists (None :: new). rewrite <- app_assoc. simpl.
           split_and!; [reflexivity|lia|exact Hdis|exact Hl|exact Hctx].
    + unfold NewLocalRef. intros Hrec. apply IH in Hrec as (Hg' & Hp' & Hres).
      simpl in Hg', Hp', Hres.
      split_and!; [exact Hg'|exact Hp'|].
      pose proof (is_fresh (localRefs (vm q))) as Hfresh.
      destruct res as [e|args].
      * destruct Hres as [-> ->]. split; [reflexivity|].
        change (argsArray :: localArgs ++ [Some {| handle := fresh (localRefs (vm q)); target := o |}])
          with ([argsArray] ++ (localArgs ++ [Some {| handle := fresh (localRefs (vm q)); target := o |}])).
        change (argsArray :: localArgs) with ([argsArray] ++ localArgs).
        rewrite !handlesOf_app, handlesOf_cons_Some. simpl. set_solver.
      * destruct Hres as (new & -> & Hlen & Hdis & Hl & Hctx).
        exists (Some {| handle := fresh (localRefs (vm q)); target := o |} :: new).
        rewrite <- app_assoc. simpl. rewrite handlesOf_cons_Some. simpl.
        split_and!; [reflexivity|lia|set_solver|rewrite Hl; set_solver|exact Hctx].
Qed.

Lemma CallObjectMethod_invoke_refs H m receiver args v :
  pendingException v = None →
  let result := fst (CallObjectMethod_invoke H m receiver args v) in
  let v' := snd (CallObjectMethod_invoke H m receiver args v) in
  globalRefs v' = globalRefs v
  ∧ localRefs v' = localRefs v ∪ handlesOf [result]
  ∧ handlesOf [result] ## localRefs v
  ∧ (pendingException v' ≠ None → result = None).
Proof.
  intros Hp. unfold CallObjectMethod_invoke.
  destruct (H m (target <$> receiver) (map (fmap target) args)) as [[o|]|t|t]; simpl.
  - rewrite handlesOf_cons_Some. simpl. pose proof (is_fresh (localRefs v)).
    split_and!; [reflexivity|set_solver|set_solver|congruence].
  - split_and!; [reflexivity|set_solver|set_solver|auto].
  - split_and!; [reflexivity|set_solver|set_solver|auto].
  - split_and!; [reflexivity|set_solver|set_solver|auto].
Qed.

(** Whatever way a call of a bound function ends (conversion error, host
    exception, normal return), no local reference made for it survives,
    the global references are untouched and no host exception is left
    pending. *)
Theorem invokeBinding_releases_references (E : Engine) (H : Host) (binding : MethodBinding)
    (argv : list JSValue) (q : QuickJsContext) (res : JSValue) (q' : QuickJsContext) :
  pendingException (vm q) = None →
  invokeBinding E H binding argv q = Some (res, q') →
  localRefs (vm q') = localRefs (vm q)
  ∧ globalRefs (vm q') = globalRefs (vm q)
  ∧ pendingException (vm q') = None.
Proof.
  intros Hp. unfold invokeBinding. destruct (negb (requireEnv (vm q))).
  { intros [= _ <-]. simpl. auto. }
  assert (Harr : ∃ argsArray v0,
            (if decide (0 < length (parameterKinds binding))%nat
             then NewLocalRef JObjectArray (vm q) else (None, vm q)) = (argsArray, v0)
            ∧ globalRefs v0 = globalRefs (vm q) ∧ pendingException v0 = None
            ∧ localRefs v0 = localRefs (vm q) ∪ handlesOf [argsArray]
            ∧ handlesOf [argsArray] ## localRefs (vm q)).
  { destruct (decide (0 < length (parameterKinds binding))%nat).
    - eexists _, _. split; [reflexivity|]. simpl. rewrite handlesOf_cons_Some. simpl.
      pose proof (is_fresh (localRefs (vm q))). split_and!; [reflexivity|exact Hp|set_solver..].
    - eexists _, _. split; [reflexivity|]. split_and!; [reflexivity|exact Hp|set_solver..]. }
  destruct Harr as (argsArray & v0 & -> & Hg0 & Hp0 & Hl0 & Hd0).
  pose proof (convertArguments_refs E binding argsArray (parameterKinds binding)
                0 argv [] (set_vm v0 q)) as Hconv.
  destruct (convertArguments E binding argsArray (parameterKinds binding) 0 argv []
              (set_vm v0 q)) as [[e0|localArgs] q1].
  - specialize (Hconv _ _ eq_refl) as (Hg & Hpe & _ & Hl). simpl in Hg, Hpe, Hl.
    intros [= _ <-]. split_and!; [|congruence..]. rewrite Hl, Hl0. set_solver.
  - specialize (Hconv _ _ eq_refl) as (Hg & Hpe & new & Hnew & _ & Hdis & Hl & _).
    simpl in Hg, Hpe, Hl, Hdis, Hnew. subst localArgs.
    destruct (method binding) as [[hm tm]|]; [|discriminate].
    destruct tm; try discriminate.
    assert (Hp1 : pendingException (vm q1) = None) by congruence.
    pose proof (CallObjectMethod_invoke_refs H m (instance binding) new (vm q1) Hp1)
      as (Hg2 & Hl2 & Hd2 & Hnull).
    destruct (CallObjectMethod_invoke H m (instance binding) new (vm q1))
      as [invocationResult v2]. simpl in Hg2, Hl2, Hd2, Hnull.
    destruct (foldl_DeleteLocalRef_other new v2) as [Hg3 _].
    assert (Hl4 : localRefs (DeleteLocalRef argsArray
                     (foldl (λ v localRef, DeleteLocalRef localRef v) v2 new))
                  = localRefs (vm q) ∪ handlesOf [invocationResult]).
    { rewrite DeleteLocalRef_localRefs, foldl_DeleteLocalRef_localRefs, Hl2, Hl, Hl0.
      rewrite Hl, Hl0 in Hd2. set_solver. }
    assert (Hd4 : handlesOf [invocationResult] ## localRefs (vm q)).
    { rewrite Hl, Hl0 in Hd2. set_solver. }
    assert (Hg4 : globalRefs (DeleteLocalRef argsArray
                     (foldl (λ v localRef, DeleteLocalRef localRef v) v2 new))
                  = globalRefs (vm q)).
    { transitivity (globalRefs (foldl (λ v localRef, DeleteLocalRef localRef v) v2 new));
        [destruct argsArray; reflexivity|]. congruence. }
    assert (Hp4 : pendingException (DeleteLocalRef argsArray
                     (foldl (λ v localRef, DeleteLocalRef localRef v) v2 new))
                  = pendingException v2).
    { rewrite DeleteLocalRef_pending, foldl_DeleteLocalRef_pending. reflexivity. }
    destruct (pendingException (DeleteLocalRef argsArray
                (foldl (λ v localRef, DeleteLocalRef localRef v) v2 new))) as [t|] eqn:Hpend.
    + intros [= _ <-]. simpl.
      rewrite Hnull in Hl4 by congruence.
      pose proof (is_fresh (localRefs (DeleteLocalRef argsArray
                     (foldl (λ v localRef, DeleteLocalRef localRef v) v2 new)))) as Hf.
      split_and!; [|exact Hg4|reflexivity].
      rewrite Hl4 in *. set_solver.
    + destruct (decide (returnKind binding ≠ kVoid)).
      * destruct (convertJavaToJs (returnKind binding) invocationResult); simpl;
          [|discriminate].
        intros [= _ <-]. simpl. rewrite DeleteLocalRef_localRefs, DeleteLocalRef_pending.
        split_and!; [rewrite Hl4; set_solver| |exact Hpend].
        transitivity (globalRefs (DeleteLocalRef argsArray
                     (foldl (λ v localRef, DeleteLocalRef localRef v) v2 new)));
          [destruct invocationResult; reflexivity|exact Hg4].
      * simpl. intros [= _ <-]. simpl. rewrite DeleteLocalRef_localRefs, DeleteLocalRef_pending.
        split_and!; [rewrite Hl4; set_solver| |exact Hpend].
        transitivity (globalRefs (DeleteLocalRef argsArray
                     (foldl (λ v localRef, DeleteLocalRef localRef v) v2 new)));
          [destruct invocationResult; reflexivity|exact Hg4].
Qed.

Lemma invokeBinding_releases_references_witness :
  ∃ res q', invokeBinding sampleEngine sampleHost calculatorAdd
              [JS_NewInt32 2; JS_NewInt32 3] sampleContext = Some (res, q')
            ∧ localRefs (vm q') = localRefs (vm sampleContext)
            ∧ globalRefs (vm q') = globalRefs (vm sampleContext)
            ∧ pendingException (vm q') = None.
Proof.
  destruct (invokeBinding sampleEngine sampleHost calculatorAdd
              [JS_NewInt32 2; JS_NewInt32 3] sampleContext) as [[res q']|] eqn:Hrun.
  - exists res, q'. split; [reflexivity|].
    apply (invokeBinding_releases_references sampleEngine sampleHost calculatorAdd
             [JS_NewInt32 2; JS_NewInt32 3] sampleContext res q'); [reflexivity|exact Hrun].
  - vm_compute in Hrun. discriminate.
Defined.

(** The argument loop reads the call's arguments only at the positions of
    the declared parameters, a missing one as [undefined]. *)
Lemma convertArguments_ext E binding argsArray kinds :
  ∀ index argv argv' localArgs q,
    (∀ i, (i < length kinds)%nat →
          default JS_UNDEFINED (argv !! (index + i)%nat)
          = default JS_UNDEFINED (argv' !! (index + i)%nat)) →
    convertArguments E binding argsArray kinds index argv localArgs q
    = convertArguments E binding argsArray kinds index argv' localArgs q.
Proof.
  induction kinds as [|kind rest IH]; intros index argv argv' localArgs q Hext; simpl.
  - reflexivity.
  - pose proof (Hext 0%nat ltac:(simpl; lia)) as H0. rewrite Nat.add_0_r in H0. rewrite H0.
    assert (Hrest : ∀ i, (i < length rest)%nat →
              default JS_UNDEFINED (argv !! (S index + i)%nat)
              = default JS_UNDEFINED (argv' !! (S index + i)%nat)).
    { intros i Hi. specialize (Hext (S i) ltac:(simpl; lia)).
      replace (index + S i)%nat with (S index + i)%nat in Hext by lia. exact Hext. }
    destruct (convertJsToJava E kind (default JS_UNDEFINED (argv' !! index)) (vm q))
      as [[r|] v1].
    + apply IH, Hrest.
    + destruct (decide (kind ≠ kString)); [reflexivity|]. apply IH, Hrest.
Qed.

Lemma effectiveArguments_lookup n argv i :
  (i < n)%nat →
  default JS_UNDEFINED (effectiveArguments n argv !! i) = default JS_UNDEFINED (argv !! i).
Proof.
  intros Hi. unfold effectiveArguments. rewrite lookup_take_lt by assumption.
  destruct (argv !! i) as [x|] eqn:Hx.
  - rewrite (lookup_app_l_Some _ _ _ _ Hx). reflexivity.
  - apply lookup_ge_None in Hx. rewrite lookup_app_r by assumption.
    destruct (replicate n JS_UNDEFINED !! (i - length argv)%nat) as [y|] eqn:Hy;
      [|reflexivity].
    apply lookup_replicate in Hy as [-> _]. reflexivity.
Qed.

(** A call of a bound function depends on the script's arguments only
    through the first [paramCount] of them, a missing one being
    [undefined]: surplus arguments are ignored and trailing arguments may
    be left out. *)
Theorem invokeBinding_effective_arguments (E : Engine) (H : Host) (binding : MethodBinding)
    (argv : list JSValue) (q : QuickJsContext) :
  invokeBinding E H binding argv q
  = invokeBinding E H binding
      (effectiveArguments (length (parameterKinds binding)) argv) q.
Proof.
  unfold invokeBinding. destruct (negb (requireEnv (vm q))); [reflexivity|].
  destruct (if decide (0 < length (parameterKinds binding))%nat
            then NewLocalRef JObjectArray (vm q) else (None, vm q)) as [argsArray v0].
  rewrite (convertArguments_ext E binding argsArray (parameterKinds binding) 0 argv
             (effectiveArguments (length (parameterKinds binding)) argv) [] (set_vm v0 q)).
  - reflexivity.
  - intros i Hi. simpl. symmetry. apply effectiveArguments_lookup, Hi.
Qed.

(** End to end: [Calculator.add(2)] adds 2 and 0, and a third argument
    is not looked at. *)
Example calculator_add_missing_argument :
  fst <$> invokeBinding sampleEngine sampleHost calculatorAdd [JS_NewInt32 2] sampleContext
  = Some (JS_NewInt32 2).
Proof. vm_compute. reflexivity. Qed.

(** An identifier outside the range handed out so far is in no
    well-formed registry: the dispatcher raises "Host binding not found"
    and changes nothing else. *)
Theorem methodDispatcher_unknown_magic (E : Engine) (H : Host) (argv : list JSValue)
    (magic : Z) (q : QuickJsContext) :
  registry_wf q → magic < 1 ∨ nextBindingId q <= magic →
  methodDispatcher E H argv magic q
  = Some (JS_EXCEPTION,
          set_context (set_currentException
                         (Some {| errorClass := InternalError;
                                  errorMessage := "Host binding not found" |})
                         (context q)) q).
Proof.
  intros [_ Hkeys] Hm. unfold methodDispatcher.
  destruct (bindings q !! magic) as [b|] eqn:Hb; [|reflexivity].
  specialize (Hkeys magic ltac:(rewrite Hb; eauto)). lia.
Qed.

Lemma methodDispatcher_unknown_magic_witness :
  methodDispatcher sampleEngine sampleHost [] 4 sampleFinal
  = Some (JS_EXCEPTION,
          set_context (set_currentException
                         (Some {| errorClass := InternalError;
                                  errorMessage := "Host binding not found" |})
                         (context sampleFinal)) sampleFinal).
Proof.
  apply methodDispatcher_unknown_magic.
  - assert (Hn : nextBindingId sampleFinal = 4) by (vm_compute; reflexivity).
    split; [rewrite Hn; lia|]. intros k [b Hk]. rewrite Hn.
    assert (Hdom : dom (bindings sampleFinal) = {[1; 3]}) by (vm_compute; reflexivity).
    assert (Hin : k ∈ dom (bindings sampleFinal)) by (apply elem_of_dom; eauto).
    rewrite Hdom in Hin. clear Hdom Hk Hn.
    apply elem_of_union in Hin as [Hin|Hin]; apply elem_of_singleton in Hin; lia.
  - right. assert (Hn : nextBindingId sampleFinal = 4) by (vm_compute; reflexivity).
    rewrite Hn. lia.
Defined.

(** ** Registration: what is accepted and what is stored *)

Lemma classifyParameters_spec r parameterTypes :
  ∀ kinds,
    classifyParameters r parameterTypes kinds
    = if decide (kVoid ∈ map (classifyParameter r) parameterTypes) then None
      else Some (kinds ++ map (classifyParameter r) parameterTypes).
Proof.
  induction parameterTypes as [|t rest IH]; intros kinds; simpl.
  - destruct (decide (kVoid ∈ [])) as [Hin|_]; [set_solver|]. rewrite app_nil_r. reflexivity.
  - destruct (decide (classifyParameter r t = kVoid)) as [Hv|Hv].
    + destruct (decide (kVoid ∈ classifyParameter r t :: map (classifyParameter r) rest))
        as [_|Hn]; [reflexivity|]. rewrite Hv in Hn. set_solver.
    + rewrite IH.
      destruct (decide (kVoid ∈ map (classifyParameter r) rest)) as [Hin|Hin];
        destruct (decide (kVoid ∈ classifyParameter r t :: map (classifyParameter r) rest))
          as [Hin'|Hin']; try reflexivity.
      * set_solver.
      * apply elem_of_cons in Hin' as [Heq|?]; [congruence|contradiction].
      * rewrite <- app_assoc. reflexivity.
Qed.

(** The return descriptor of a registration: absent or [void] gives
    [kVoid]; a class of the closed set gives its kind; every other class,
    the boxed [java.lang.Void] included, is rejected.  The branch that
    falls back to String is never taken. *)
Theorem classifyReturn_closed_set (v : JavaVM) (h : nat) (name : string) :
  let r := fst (cacheJavaReferences v) in
  classifyReturn r None = Some kVoid
  ∧ classifyReturn r (Some {| handle := h; target := JClass "void" |}) = Some kVoid
  ∧ classifyReturn r (Some {| handle := h; target := JClass "java/lang/Void" |}) = None
  ∧ (name ≠ "void"%string →
     classifyReturn r (Some {| handle := h; target := JClass name |})
     = if decide (kindOfClassName name = kVoid) then None else Some (kindOfClassName name)).
Proof.
  intros r. subst r.
  destruct (cached_targets v) as (Hs & _ & _ & _ & _ & _ & _ & _ & _ & Hvoid).
  assert (Hgen : ∀ n, classifyReturn (fst (cacheJavaReferences v))
                        (Some {| handle := h; target := JClass n |})
                      = if String.eqb n "void" then Some kVoid
                        else if decide (kindOfClassName n = kVoid) then None
                             else Some (kindOfClassName n)).
  { intros n. unfold classifyReturn.
    rewrite classifyParameter_class, (IsSameObject_class _ _ _ _ Hvoid),
      (IsSameObject_class _ _ _ _ Hs).
    simpl bool_decide. simpl negb at 1. cbv beta iota. simpl andb at 1.
    destruct (String.eqb n "void"); simpl; [reflexivity|].
    destruct (decide (kindOfClassName n = kVoid)) as [Hk|Hk].
    - rewrite Hk. simpl.
      assert (Hns : String.eqb n "java/lang/String" = false).
      { destruct (String.eqb_spec n "java/lang/String") as [->|]; [discriminate|reflexivity]. }
      rewrite Hns. reflexivity.
    - rewrite bool_decide_eq_false_2 by assumption. reflexivity. }
  split_and!.
  - reflexivity.
  - apply (Hgen "void"%string).
  - apply (Hgen "java/lang/Void"%string).
  - intros Hne. rewrite Hgen.
    destruct (String.eqb_spec name "void"); [contradiction|reflexivity].
Qed.

Lemma classifyReturn_closed_set_witness :
  classifyReturn (fst (cacheJavaReferences sampleVM))
    (Some {| handle := 5; target := JClass "java/util/Map" |}) = None.
Proof.
  apply (classifyReturn_closed_set sampleVM 5 "java/util/Map"). discriminate.
Defined.

Lemma register_empty_name f oName mName meth inst parameterTypes returnType q :
  toUtfString oName = ""%string ∨ toUtfString mName = ""%string →
  Java_io_ton_walletkit_quickjs_QuickJs_nativeRegister
    f oName mName meth inst parameterTypes returnType q
  = failRegistration "Object or method name cannot be empty" q.
Proof.
  intros Hempty. unfold Java_io_ton_walletkit_quickjs_QuickJs_nativeRegister.
  destruct Hempty as [-> | ->]; simpl.
  - reflexivity.
  - rewrite orb_true_r. reflexivity.
Qed.

(** What a registration that raises nothing has stored: a binding under
    the old counter value whose names are not empty, whose parameter
    kinds are the classifications of the descriptors in order, none of
    them [kVoid], and whose return kind is the classification of the
    return descriptor. *)
Theorem register_stores_signature (f : EngineFaults) (oName mName : option string)
    (meth inst : jobject) (parameterTypes : option (list jobject)) (returnType : jobject)
    (q : QuickJsContext) (h : nat) (name : string) :
  let q' := Java_io_ton_walletkit_quickjs_QuickJs_nativeRegister
              f oName mName meth inst parameterTypes returnType q in
  registry_wf q →
  quickJsExceptionClass (refs q) = Some {| handle := h; target := JClass name |} →
  pendingException (vm q) = None →
  pendingException (vm q') = None →
  ∃ b, bindings q' !! nextBindingId q = Some b
       ∧ id b = nextBindingId q
       ∧ objectName b = toUtfString oName ∧ objectName b ≠ ""%string
       ∧ methodName b = toUtfString mName ∧ methodName b ≠ ""%string
       ∧ parameterKinds b = map (classifyParameter (refs q)) (default [] parameterTypes)
       ∧ kVoid ∉ parameterKinds b
       ∧ classifyReturn (refs q) returnType = Some (returnKind b).
Proof.
  intros q' Hwf Hcls Hp Hp'.
  assert (Hnames : toUtfString oName ≠ ""%string ∧ toUtfString mName ≠ ""%string).
  { split; intros Hempty;
      (assert (Hq : q' = failRegistration "Object or method name cannot be empty" q)
         by (apply register_empty_name; auto));
      rewrite Hq in Hp'; unfold failRegistration in Hp'; simpl in Hp';
      rewrite (throwQuickJsException_pending _ _ _ _ _ Hcls) in Hp'; discriminate. }
  destruct (register_outcome f oName mName meth inst parameterTypes returnType q
              (registry_wf_fresh q Hwf))
    as [(_ & _ & _ & Hraise)
       |(_ & _ & b & _ & _ & Hid & Ho & Hm & Hb & _ & _ & _ & _ & _ & _ & Hkinds & Hret & _)].
  { exfalso. exact (Hraise h name Hcls Hp'). }
  fold q' in Hb. exists b. destruct Hnames as [Hon Hmn].
  rewrite classifyParameters_spec in Hkinds.
  destruct (decide (kVoid ∈ map (classifyParameter (refs q)) (default [] parameterTypes)))
    as [|Hnv]; [discriminate|].
  injection Hkinds as Hkinds. simpl in Hkinds.
  split_and!; try assumption; try congruence.
  rewrite Hb. apply lookup_insert_eq.
Qed.

Lemma register_stores_signature_witness :
  ∃ b, bindings (Java_io_ton_walletkit_quickjs_QuickJs_nativeRegister noFaults
                   (Some "Calculator"%string) (Some "add"%string) (methodRef 0) None
                   (Some [classRef "int"; classRef "java/lang/Integer"]) (classRef "int")
                   sampleContext) !! 1 = Some b
       ∧ parameterKinds b = [kInt; kInt] ∧ returnKind b = kInt.
Proof.
  destruct (register_stores_signature noFaults
              (Some "Calculator"%string) (Some "add"%string) (methodRef 0) None
              (Some [classRef "int"; classRef "java/lang/Integer"]) (classRef "int")
              sampleContext 8 "io/ton/walletkit/quickjs/QuickJsException")
    as (b & Hb & _ & _ & _ & _ & _ & Hk & _ & Hr).
  - assert (Hb0 : bindings sampleContext = ∅) by (vm_compute; reflexivity).
    assert (Hn0 : nextBindingId sampleContext = 1) by (vm_compute; reflexivity).
    split; [rewrite Hn0; lia|]. intros k [x Hk].
    rewrite Hb0, lookup_empty in Hk. discriminate.
  - vm_compute. reflexivity.
  - reflexivity.
  - vm_compute. reflexivity.
  - exists b. split_and!.
    + exact Hb.
    + rewrite Hk. vm_compute. reflexivity.
    + assert (Hc : classifyReturn (refs sampleContext) (classRef "int") = Some kInt)
        by (vm_compute; reflexivity).
      rewrite Hc in Hr. congruence.
Defined.

(** A registration that raises nothing has made the function readable by
    scripts at [objectName.methodName], named after the method, with the
    number of parameters as its length and the assigned identifier as its
    magic, provided the engine defined the property.  When the engine
    refuses the property without raising (the call answers 0, and the
    bridge only tests for a negative answer), the registration raises
    nothing either: the binding is stored and the identifier is spent, but
    scripts read nothing they could not read before.  In both cases
    whatever scripts read under another method name, also in the same
    namespace object, they still read. *)
Theorem register_attaches_function (f : EngineFaults) (oName mName : option string)
    (meth inst : jobject) (parameterTypes : option (list jobject)) (returnType : jobject)
    (q : QuickJsContext) (h : nat) (name : string) :
  let q' := Java_io_ton_walletkit_quickjs_QuickJs_nativeRegister
              f oName mName meth inst parameterTypes returnType q in
  registry_wf q →
  quickJsExceptionClass (refs q) = Some {| handle := h; target := JClass name |} →
  pendingException (vm q') = None →
  (refuseDefineProperty f = false →
   scriptCalls (context q') (toUtfString oName) (toUtfString mName)
     {| fnName := toUtfString mName;
        fnLength := Z.of_nat (length (default [] parameterTypes));
        fnMagic := nextBindingId q |})
  ∧ (refuseDefineProperty f = true →
     is_Some (bindings q' !! nextBindingId q)
     ∧ nextBindingId q' = wrap 32 (nextBindingId q + 1)
     ∧ ∀ o m fn, scriptReads (context q') o m fn → scriptReads (context q) o m fn)
  ∧ (∀ o' m' fn, m' ≠ toUtfString mName →
       scriptReads (context q) o' m' fn → scriptReads (context q') o' m' fn).
Proof.
  intros q' Hwf Hcls Hp'.
  destruct (register_outcome f oName mName meth inst parameterTypes returnType q
              (registry_wf_fresh q Hwf))
    as [(_ & _ & _ & Hraise)
       |(_ & Hn & b & r & props & _ & _ & _ & Hb & Hg & Hh & Hpr & _ & _ & _ & _ & _ & Hkeep)].
  { exfalso. exact (Hraise h name Hcls Hp'). }
  fold q' in Hb, Hn, Hg, Hh, Hpr, Hkeep.
  split_and!; [| |exact Hkeep].
  - intros Hrefuse. rewrite Hrefuse in Hpr. destruct Hpr as (fn & Hfn & Hfun).
    exists fn. split; [|exact Hfun]. exists r, props. auto.
  - intros Hrefuse. rewrite Hrefuse in Hpr. split_and!; [|exact Hn|exact Hpr].
    rewrite Hb, lookup_insert_eq. eauto.
Qed.

Lemma register_attaches_function_witness :
  scriptCalls
    (context (Java_io_ton_walletkit_quickjs_QuickJs_nativeRegister noFaults
                (Some "Calculator"%string) (Some "add"%string) (methodRef 0) None
                (Some [classRef "int"; classRef "int"]) (classRef "int") sampleContext))
    "Calculator" "add" {| fnName := "add"; fnLength := 2; fnMagic := 1 |}.
Proof.
  assert (Hn0 : nextBindingId sampleContext = 1) by (vm_compute; reflexivity).
  pose proof (register_attaches_function noFaults
                (Some "Calculator"%string) (Some "add"%string) (methodRef 0) None
                (Some [classRef "int"; classRef "int"]) (classRef "int")
                sampleContext 8 "io/ton/walletkit/quickjs/QuickJsException") as Hreg.
  rewrite Hn0 in Hreg. destruct Hreg as [Hread _].
  - assert (Hb0 : bindings sampleContext = ∅) by (vm_compute; reflexivity).
    split; [rewrite Hn0; lia|]. intros k [x Hk].
    rewrite Hb0, lookup_empty in Hk. discriminate.
  - vm_compute. reflexivity.
  - vm_compute. reflexivity.
  - apply Hread. reflexivity.
Defined.

(** The silent case on the sample context: the engine refuses the
    property, nothing is raised, identifier 1 is taken, and [Calculator]
    is an empty object. *)
Example refused_property_is_silent :
  let q' := Java_io_ton_walletkit_quickjs_QuickJs_nativeRegister
              {| failNewObject := false; failSetProperty := false;
                 failNewCFunction := false; failDefineProperty := false;
                 refuseDefineProperty := true |}
              (Some "Calculator"%string) (Some "add"%string) (methodRef 0) None
              (Some [classRef "int"; classRef "int"]) (classRef "int") sampleContext in
  pendingException (vm q') = None
  ∧ nextBindingId q' = 2
  ∧ id <$> bindings q' !! 1 = Some 1
  ∧ ∃ r, globalObject (context q') !! "Calculator"%string = Some (JS_Object r)
         ∧ heap (context q') !! r = Some ∅.
Proof.
  cbv zeta. split_and!; [vm_compute; reflexivity..|].
  eexists. split; vm_compute; reflexivity.
Qed.

(** ** Converters: host value to script and back *)

(** For every kind and every in-range host value (a NUL-free string, a
    boolean, a 32-bit integer, a long that a binary64 represents, a
    double), converting to a script value and back gives a reference to
    an equal host value. *)
Theorem host_round_trip (E : Engine) (v : JavaVM) (h : nat) (kind : ValueKind) (o : JObject) :
  host_in_range kind o →
  ∃ js r, convertJavaToJs kind (Some {| handle := h; target := o |}) = Some js
          ∧ fst (convertJsToJava E kind js v) = Some r
          ∧ target r = o.
Proof.
  intros Hr. destruct kind, o; simpl in Hr; try contradiction.
  - exists (JS_String s). eexists. split; [reflexivity|]. simpl. rewrite Hr.
    split; reflexivity.
  - destruct b; eexists (JS_Bool _), _; (split; [reflexivity|]); split; reflexivity.
  - exists (JS_Number (Binary64.of_Z i)). eexists. split; [reflexivity|].
    unfold convertJsToJava, JS_ToInt32. simpl.
    rewrite (Binary64Facts.trunc_to_Z _ i).
    + rewrite wrap_id by (unfold in_int32 in Hr; simpl; lia). split; reflexivity.
    + apply Binary64Facts.of_Z_exact, Binary64Facts.small_representable.
      unfold in_int32 in Hr. lia.
  - destruct Hr as [Hin Hrep].
    exists (JS_Number (Binary64.of_Z l)). eexists. split; [reflexivity|].
    unfold convertJsToJava, JS_ToInt64. simpl.
    rewrite (Binary64Facts.trunc_to_Z _ l) by (apply Binary64Facts.of_Z_exact, Hrep).
    rewrite wrap_id by (unfold in_int64 in Hin; simpl; lia). split; reflexivity.
  - exists (JS_Number d). eexists. split; [reflexivity|]. split; reflexivity.
Qed.

Lemma host_round_trip_witness :
  ∃ js r, convertJavaToJs kLong (Some {| handle := 0; target := JLong (-4611686018427387904) |})
          = Some js
          ∧ fst (convertJsToJava sampleEngine kLong js sampleVM) = Some r
          ∧ target r = JLong (-4611686018427387904).
Proof.
  apply (host_round_trip sampleEngine sampleVM 0 kLong (JLong (-4611686018427387904))).
  simpl. split; [unfold in_int64; lia|].
  exists (-1), 62. split_and!; simpl; lia.
Defined.

(** ** Lifetime: global references *)

Lemma elem_of_bindingHandles x (m : gmap Z MethodBinding) :
  x ∈ bindingHandles m
  ↔ ∃ k b, m !! k = Some b ∧ x ∈ handlesOf [method b; instance b].
Proof.
  unfold bindingHandles. rewrite elem_of_union_list. split.
  - intros (X & HX & Hx). apply list_elem_of_fmap in HX as ([k b] & -> & Hkb).
    apply elem_of_map_to_list in Hkb. exists k, b. auto.
  - intros (k & b & Hkb & Hx). exists (handlesOf [method b; instance b]). split; [|exact Hx].
    apply list_elem_of_fmap. exists (k, b). split; [reflexivity|].
    apply elem_of_map_to_list, Hkb.
Qed.

Lemma bindingHandles_empty : bindingHandles ∅ = ∅.
Proof. unfold bindingHandles. rewrite map_to_list_empty. reflexivity. Qed.

Lemma bindingHandles_insert k b (m : gmap Z MethodBinding) :
  m !! k = None →
  bindingHandles (<[k := b]> m) = handlesOf [method b; instance b] ∪ bindingHandles m.
Proof.
  intros Hk. apply set_eq. intros x. rewrite elem_of_union, !elem_of_bindingHandles. split.
  - intros (k' & b' & Hkb & Hx). destruct (decide (k = k')) as [->|Hne].
    + rewrite lookup_insert_eq in Hkb. injection Hkb as <-. auto.
    + rewrite lookup_insert_ne in Hkb by assumption. right. eauto.
  - intros [Hx|(k' & b' & Hkb & Hx)].
    + exists k, b. rewrite lookup_insert_eq. auto.
    + exists k', b'. rewrite lookup_insert_ne; [auto|]. intros <-. congruence.
Qed.

Lemma handlesOf_pair a b : handlesOf [a; b] = handlesOf [a] ∪ handlesOf [b].
Proof. change [a; b] with ([a] ++ [b]). apply handlesOf_app. Qed.

Lemma foldl_DeleteGlobalRef_globalRefs l v :
  globalRefs (foldl (λ v clazz, DeleteGlobalRef clazz v) v l) = globalRefs v ∖ handlesOf l.
Proof.
  revert v. induction l as [|c l IH]; intros v; simpl.
  - set_solver.
  - rewrite IH, DeleteGlobalRef_globalRefs.
    change (c :: l) with ([c] ++ l). rewrite handlesOf_app. set_solver.
Qed.

Lemma releaseBindings_globalRefs q :
  globalRefs (vm (releaseBindings q)) = globalRefs (vm q) ∖ bindingHandles (bindings q).
Proof.
  unfold releaseBindings. simpl. apply set_eq. intros x.
  rewrite elem_of_difference, elem_of_bindingHandles.
  apply (map_fold_weak_ind
           (λ r (m : gmap Z MethodBinding),
              x ∈ globalRefs r
              ↔ x ∈ globalRefs (vm q)
                ∧ ¬ ∃ k b, m !! k = Some b ∧ x ∈ handlesOf [method b; instance b])).
  - split; [|tauto]. intros Hx. split; [exact Hx|]. intros (k & b & Hk & _).
    rewrite lookup_empty in Hk. discriminate.
  - intros i b m r Hi IH. rewrite !DeleteGlobalRef_globalRefs, !elem_of_difference, IH.
    split.
    + intros [[[Hx Hno] Hm] Hin]. split; [exact Hx|].
      intros (k & b' & Hk & Hx'). destruct (decide (i = k)) as [->|Hne].
      * rewrite lookup_insert_eq in Hk. injection Hk as <-.
        rewrite handlesOf_pair in Hx'. set_solver.
      * rewrite lookup_insert_ne in Hk by assumption. apply Hno. eauto.
    + intros [Hx Hno]. split_and!; [exact Hx| | |].
      * intros (k & b' & Hk & Hx'). apply Hno. exists k, b'.
        rewrite lookup_insert_ne; [auto|]. intros <-. congruence.
      * intros Hm. apply Hno. exists i, b. rewrite lookup_insert_eq, handlesOf_pair.
        split; [reflexivity|set_solver].
      * intros Hin. apply Hno. exists i, b. rewrite lookup_insert_eq, handlesOf_pair.
        split; [reflexivity|set_solver].
Qed.

Lemma makeGlobal_spec name v :
  ∃ hg, fst (makeGlobal name v) = Some {| handle := hg; target := JClass name |}
        ∧ hg ∉ globalRefs v
        ∧ globalRefs (snd (makeGlobal name v)) = {[hg]} ∪ globalRefs v
        ∧ pendingException (snd (makeGlobal name v)) = pendingException v
        ∧ localRefs (snd (makeGlobal name v)) = localRefs v.
Proof.
  exists (fresh (globalRefs v)). unfold makeGlobal, NewLocalRef, NewGlobalRef. simpl.
  pose proof (is_fresh (globalRefs v)). pose proof (is_fresh (localRefs v)).
  split_and!; try reflexivity; [assumption|set_solver].
Qed.

(** The local reference to a primitive type's class object stays in the
    table. *)
Lemma typeGlobal_spec name v :
  ∃ hg, fst (typeGlobal name v) = Some {| handle := hg; target := JClass name |}
        ∧ hg ∉ globalRefs v
        ∧ globalRefs (snd (typeGlobal name v)) = {[hg]} ∪ globalRefs v
        ∧ pendingException (snd (typeGlobal name v)) = pendingException v
        ∧ localRefs (snd (typeGlobal name v)) = {[fresh (localRefs v)]} ∪ localRefs v.
Proof.
  exists (fresh (globalRefs v)). unfold typeGlobal, NewLocalRef, NewGlobalRef. simpl.
  pose proof (is_fresh (globalRefs v)).
  split_and!; try reflexivity; assumption.
Qed.

Lemma voidGlobal_spec v :
  ∃ hg, fst (voidGlobal v) = Some {| handle := hg; target := JClass "void" |}
        ∧ hg ∉ globalRefs v
        ∧ globalRefs (snd (voidGlobal v)) = {[hg]} ∪ globalRefs v
        ∧ pendingException (snd (voidGlobal v)) = pendingException v
        ∧ localRefs (snd (voidGlobal v)) = localRefs v.
Proof.
  exists (fresh (globalRefs v)). unfold voidGlobal, NewLocalRef, NewGlobalRef. simpl.
  pose proof (is_fresh (globalRefs v)). pose proof (is_fresh (localRefs v)).
  pose proof (is_fresh ({[fresh (localRefs v)]} ∪ localRefs v)).
  split_and!; try reflexivity; [assumption|set_solver].
Qed.

Lemma global_step (res : jclass * JavaVM) name v0 (Hs : gset nat) v (L : gset nat) :
  (∃ hg, fst res = Some {| handle := hg; target := JClass name |}
         ∧ hg ∉ globalRefs v
         ∧ globalRefs (snd res) = {[hg]} ∪ globalRefs v
         ∧ pendingException (snd res) = pendingException v
         ∧ localRefs (snd res) = L) →
  globalRefs v = Hs ∪ globalRefs v0 → Hs ## globalRefs v0 →
  pendingException v = pendingException v0 →
  ∃ hg, fst res = Some {| handle := hg; target := JClass name |}
        ∧ globalRefs (snd res) = ({[hg]} ∪ Hs) ∪ globalRefs v0
        ∧ ({[hg]} ∪ Hs) ## globalRefs v0
        ∧ pendingException (snd res) = pendingException v0.
Proof.
  intros (hg & Hf & Hn & Hg' & Hp' & _) Hg Hd Hp.
  exists hg. rewrite Hg', Hp', Hg. rewrite Hg in Hn.
  split_and!; [exact Hf|set_solver|set_solver|exact Hp].
Qed.

(** [cacheJavaReferences] creates fourteen global references, none of
    them among those present before, and raises nothing. *)
Lemma cacheJavaReferences_spec v :
  let r := fst (cacheJavaReferences v) in
  let v' := snd (cacheJavaReferences v) in
  globalRefs v' = classHandles r ∪ globalRefs v
  ∧ classHandles r ## globalRefs v
  ∧ pendingException v' = pendingException v
  ∧ ∃ hq, quickJsExceptionClass r
          = Some {| handle := hq; target := JClass "io/ton/walletkit/quickjs/QuickJsException" |}.
Proof.
  unfold cacheJavaReferences.
  assert (Hg : globalRefs v = ∅ ∪ globalRefs v) by set_solver.
  assert (Hd : (∅ : gset nat) ## globalRefs v) by set_solver.
  assert (Hp : pendingException v = pendingException v) by reflexivity.
  repeat match goal with
  | |- context [makeGlobal ?n ?w0] =>
      let hg := fresh "hg" in
      let Hf := fresh "Hf" in
      destruct (global_step _ n v _ w0 _ (makeGlobal_spec n w0) Hg Hd Hp)
        as (hg & Hf & Hg' & Hd' & Hp');
      clear Hg Hd Hp; rename Hg' into Hg, Hd' into Hd, Hp' into Hp;
      destruct (makeGlobal n w0) as [? ?]; simpl in Hf, Hg, Hd, Hp; subst
  | |- context [typeGlobal ?n ?w0] =>
      let hg := fresh "hg" in
      let Hf := fresh "Hf" in
      destruct (global_step _ n v _ w0 _ (typeGlobal_spec n w0) Hg Hd Hp)
        as (hg & Hf & Hg' & Hd' & Hp');
      clear Hg Hd Hp; rename Hg' into Hg, Hd' into Hd, Hp' into Hp;
      destruct (typeGlobal n w0) as [? ?]; simpl in Hf, Hg, Hd, Hp; subst
  | |- context [voidGlobal ?w0] =>
      let hg := fresh "hg" in
      let Hf := fresh "Hf" in
      destruct (global_step _ _ v _ w0 _ (voidGlobal_spec w0) Hg Hd Hp)
        as (hg & Hf & Hg' & Hd' & Hp');
      clear Hg Hd Hp; rename Hg' into Hg, Hd' into Hd, Hp' into Hp;
      destruct (voidGlobal w0) as [? ?]; simpl in Hf, Hg, Hd, Hp; subst
  end.
  simpl. unfold classHandles, handlesOf. simpl.
  split_and!.
  - rewrite Hg. clear. apply set_eq. intros x. set_unfold. tauto.
  - clear -Hd. set_unfold. intros x Hx Hv. apply (Hd x); tauto.
  - exact Hp.
  - eauto.
Qed.

(** [cacheJavaReferences] leaves four local references behind, those to
    the class objects of [boolean], [int], [long] and [double]. *)
Lemma cacheJavaReferences_local v :
  localRefs v ⊆ localRefs (snd (cacheJavaReferences v))
  ∧ size (localRefs (snd (cacheJavaReferences v)) ∖ localRefs v) = 4%nat.
Proof.
  unfold cacheJavaReferences.
  repeat match goal with
  | |- context [makeGlobal ?n ?w0] =>
      let Hl := fresh "Hl" in
      destruct (makeGlobal_spec n w0) as (? & _ & _ & _ & _ & Hl);
      destruct (makeGlobal n w0) as [? ?]; simpl in Hl
  | |- context [typeGlobal ?n ?w0] =>
      let Hl := fresh "Hl" in
      destruct (typeGlobal_spec n w0) as (? & _ & _ & _ & _ & Hl);
      destruct (typeGlobal n w0) as [? ?]; simpl in Hl
  | |- context [voidGlobal ?w0] =>
      let Hl := fresh "Hl" in
      destruct (voidGlobal_spec w0) as (? & _ & _ & _ & _ & Hl);
      destruct (voidGlobal w0) as [? ?]; simpl in Hl
  end.
  simpl.
  repeat match goal with Heq : localRefs ?a = localRefs ?b |- _ => rewrite Heq in *; clear Heq end.
  repeat match goal with Heq : localRefs ?a = _ ∪ localRefs ?b |- _ =>
    rewrite Heq in *; clear Heq end.
  generalize (localRefs v). intros L.
  set (a := fresh L). set (b := fresh ({[a]} ∪ L)). set (c := fresh ({[b]} ∪ ({[a]} ∪ L))).
  set (d := fresh ({[c]} ∪ ({[b]} ∪ ({[a]} ∪ L)))).
  pose proof (is_fresh L). pose proof (is_fresh ({[a]} ∪ L)).
  pose proof (is_fresh ({[b]} ∪ ({[a]} ∪ L))).
  pose proof (is_fresh ({[c]} ∪ ({[b]} ∪ ({[a]} ∪ L)))).
  fold a in H. fold b in H0. fold c in H1. fold d in H2.
  split; [set_solver|].
  assert (Heq : ({[d]} ∪ ({[c]} ∪ ({[b]} ∪ ({[a]} ∪ L)))) ∖ L = {[d; c; b; a]}) by set_solver.
  rewrite Heq.
  rewrite !size_union, !size_singleton by set_solver. reflexivity.
Qed.

Lemma owned_inv_create v :
  pendingException v = None →
  owned_inv (globalRefs v) (Java_io_ton_walletkit_quickjs_QuickJs_nativeCreate v)
  ∧ pendingException (vm (Java_io_ton_walletkit_quickjs_QuickJs_nativeCreate v)) = None
  ∧ nextBindingId (Java_io_ton_walletkit_quickjs_QuickJs_nativeCreate v) = 1.
Proof.
  intros Hp. pose proof (cacheJavaReferences_spec v) as Hspec. cbv zeta in Hspec.
  unfold Java_io_ton_walletkit_quickjs_QuickJs_nativeCreate, owned_inv, registry_wf.
  destruct (cacheJavaReferences v) as [r v1]. cbn [fst snd] in Hspec.
  destruct Hspec as (Hg & Hd & Hp' & _).
  cbn [vm refs bindings nextBindingId]. rewrite bindingHandles_empty.
  generalize dependent (classHandles r). intros X Hg Hd.
  split_and!; try lia; try congruence.
  - intros k [b Hk]. rewrite lookup_empty in Hk. discriminate.
  - set_solver.
  - rewrite Hg. set_solver.
Qed.

(** Every call keeps the account of the global references, and leaves no
    exception pending. *)
Lemma perform_owned_inv E H G0 c q q' :
  owned_inv G0 q → pendingException (vm q) = None → nextBindingId q < INT_MAX →
  perform E H c q = Some q' →
  owned_inv G0 q' ∧ pendingException (vm q') = None
  ∧ nextBindingId q' <= nextBindingId q + 1.
Proof.
  intros (Hwf & Hdis & Hacc) Hp Hmax Hperf.
  destruct (perform_keeps E H c q q' Hwf Hmax Hperf) as (Hwf' & Hn' & _).
  unfold owned_inv. split_and!; try assumption.
  - destruct c as [f o m me i p r|argv magic]; simpl in Hperf.
    + injection Hperf as <-. simpl.
      destruct (register_counter f o m me i p r q) as (Hrefs & _).
      destruct (register_outcome f o m me i p r q (registry_wf_fresh q Hwf))
        as [(Hb & Hg & _)|(_ & _ & b & _ & _ & _ & _ & _ & Hb & _ & _ & _ & Hg & Hd & _)].
      * rewrite Hrefs, Hb. exact Hdis.
      * rewrite Hrefs, Hb, bindingHandles_insert by (apply registry_wf_fresh, Hwf).
        rewrite Hacc in Hd. revert Hdis Hd.
        generalize (classHandles (refs q)), (bindingHandles (bindings q)),
          (handlesOf [method b; instance b]).
        clear. intros C B X Hdis Hd. set_solver.
    + destruct (methodDispatcher E H argv magic q) as [[res q1]|] eqn:Hd; simpl in Hperf;
        [|discriminate].
      injection Hperf as <-. apply methodDispatcher_registry in Hd as (-> & _ & _ & ->).
      exact Hdis.
  - destruct c as [f o m me i p r|argv magic]; simpl in Hperf.
    + injection Hperf as <-. simpl.
      destruct (register_counter f o m me i p r q) as (Hrefs & _).
      destruct (register_outcome f o m me i p r q (registry_wf_fresh q Hwf))
        as [(Hb & Hg & _)|(_ & _ & b & _ & _ & _ & _ & _ & Hb & _ & _ & _ & Hg & Hd & _)].
      * rewrite Hrefs, Hb, Hg. exact Hacc.
      * rewrite Hrefs, Hb, Hg, bindingHandles_insert by (apply registry_wf_fresh, Hwf).
        rewrite Hacc.
        generalize (classHandles (refs q)), (bindingHandles (bindings q)),
          (handlesOf [method b; instance b]).
        clear. intros C B X. set_solver.
    + destruct (methodDispatcher E H argv magic q) as [[res q1]|] eqn:Hd; simpl in Hperf;
        [|discriminate].
      injection Hperf as <-.
      pose proof (methodDispatcher_registry _ _ _ _ _ _ _ Hd) as (-> & _ & _ & ->).
      unfold methodDispatcher in Hd. destruct (bindings q !! magic) as [b|].
      * apply (invokeBinding_releases_references _ _ _ _ _ _ _ Hp) in Hd as (_ & -> & _).
        exact Hacc.
      * injection Hd as _ <-. exact Hacc.
  - destruct c as [f o m me i p r|argv magic]; simpl in Hperf.
    + injection Hperf as <-. reflexivity.
    + destruct (methodDispatcher E H argv magic q) as [[res q1]|] eqn:Hd; simpl in Hperf;
        [|discriminate].
      injection Hperf as <-.
      unfold methodDispatcher in Hd. destruct (bindings q !! magic) as [b|].
      * apply (invokeBinding_releases_references _ _ _ _ _ _ _ Hp) in Hd as (_ & _ & Hp1).
        exact Hp1.
      * injection Hd as _ <-. exact Hp.
Qed.

Lemma performAll_owned_inv E H G0 calls :
  ∀ q q', owned_inv G0 q → pendingException (vm q) = None →
          nextBindingId q + Z.of_nat (length calls) <= INT_MAX →
          performAll E H calls q = Some q' →
          owned_inv G0 q' ∧ pendingException (vm q') = None.
Proof.
  induction calls as [|c rest IH]; intros q q' Hinv Hp Hlen; simpl.
  - intros [= <-]. auto.
  - destruct (perform E H c q) as [q1|] eqn:Hperf; simpl; [|discriminate].
    simpl length in Hlen.
    destruct (perform_owned_inv E H G0 c q q1 Hinv Hp ltac:(lia) Hperf) as (Hinv1 & Hp1 & Hn1).
    apply IH; [assumption..|lia].
Qed.

(** From creation to destruction no global reference leaks: after any
    calls made on a context, [nativeDestroy] leaves the table of global
    references exactly as [nativeCreate] found it (while the 32-bit
    counter has not run out). *)
Theorem lifetime_releases_global_references (E : Engine) (H : Host) (v : JavaVM)
    (calls : list BridgeCall) (q : QuickJsContext) :
  pendingException v = None →
  1 + Z.of_nat (length calls) <= INT_MAX →
  performAll E H calls (Java_io_ton_walletkit_quickjs_QuickJs_nativeCreate v) = Some q →
  globalRefs (Java_io_ton_walletkit_quickjs_QuickJs_nativeDestroy q) = globalRefs v.
Proof.
  intros Hp Hlen Hrun.
  destruct (owned_inv_create v Hp) as (Hinv0 & Hp0 & Hn0).
  destruct (performAll_owned_inv E H (globalRefs v) calls _ q Hinv0 Hp0
              ltac:(rewrite Hn0; exact Hlen) Hrun) as [(_ & Hdis & Hacc) _].
  unfold Java_io_ton_walletkit_quickjs_QuickJs_nativeDestroy, releaseJavaReferences.
  rewrite foldl_DeleteGlobalRef_globalRefs, releaseBindings_globalRefs.
  change (handlesOf _) with (classHandles (refs q)).
  rewrite Hacc. revert Hdis.
  generalize (classHandles (refs q)), (bindingHandles (bindings q)).
  clear. intros C B Hdis. set_solver.
Qed.

Lemma lifetime_releases_global_references_witness :
  globalRefs (Java_io_ton_walletkit_quickjs_QuickJs_nativeDestroy sampleFinal)
  = globalRefs sampleVM.
Proof.
  apply (lifetime_releases_global_references sampleEngine sampleHost sampleVM sampleCalls).
  - reflexivity.
  - vm_compute. discriminate.
  - vm_compute. reflexivity.
Defined.

(** ** Evaluation entry points *)

(** The text extracted from a script exception is never empty. *)
Theorem jsExceptionToString_nonempty (E : Engine) (ctx : JSContext) (exception : JSValue) :
  jsExceptionToString E ctx exception ≠ ""%string.
Proof.
  unfold jsExceptionToString.
  match goal with |- (if bool_decide (?m = _) then _ else _) ≠ _ =>
    destruct (bool_decide_reflect (m = ""%string)) as [_|Hne]
  end.
  - discriminate.
  - exact Hne.
Qed.

(** Where the text comes from: the [message] property when it yields
    text; else the exception value converted to text (so a thrown string
    is its own message, and a thrown [undefined] reads "undefined"); else
    the fixed text, as for a symbol and for an object that has no
    [message] property and whose conversion to text fails. *)
Theorem jsExceptionToString_precedence (E : Engine) (ctx : JSContext) :
  (∀ r props s, heap ctx !! r = Some props → props !! "message"%string = Some (JS_String s) →
                c_str s ≠ ""%string →
                jsExceptionToString E ctx (JS_Object r) = c_str s)
  ∧ (∀ s, c_str s ≠ ""%string → jsExceptionToString E ctx (JS_String s) = c_str s)
  ∧ jsExceptionToString E ctx JS_UNDEFINED = "undefined"%string
  ∧ jsExceptionToString E ctx JS_NULL = "null"%string
  ∧ (∀ d, jsExceptionToString E ctx (JS_Symbol d) = evaluationFailedMessage)
  ∧ (∀ r, (∀ props, heap ctx !! r = Some props → props !! "message"%string = None) →
          slowToString E (JS_Object r) = None →
          jsExceptionToString E ctx (JS_Object r) = evaluationFailedMessage).
Proof.
  split_and!.
  - intros r props s Hh Hp Hs. unfold jsExceptionToString, JS_GetPropertyStr.
    rewrite Hh. simpl. rewrite Hp. simpl.
    rewrite !(bool_decide_eq_false_2 (c_str s = ""%string)) by assumption. reflexivity.
  - intros s Hs. unfold jsExceptionToString. simpl.
    rewrite !(bool_decide_eq_false_2 (c_str s = ""%string)) by assumption. reflexivity.
  - reflexivity.
  - reflexivity.
  - reflexivity.
  - intros r Hh Hs. unfold jsExceptionToString, JS_GetPropertyStr.
    destruct (heap ctx !! r) as [props|]; simpl; [rewrite (Hh props eq_refl); simpl|];
      rewrite Hs; reflexivity.
Qed.

Lemma jsExceptionToString_precedence_witness :
  jsExceptionToString sampleEngine
    {| globalObject := ∅;
       heap := {[ 0%nat := {[ "message"%string := JS_String "x is not defined" ]} ]};
       functions := ∅;
       currentException := None |} (JS_Object 0)
  = "x is not defined"%string.
Proof.
  destruct (jsExceptionToString_precedence sampleEngine
              {| globalObject := ∅;
                 heap := {[ 0%nat := {[ "message"%string := JS_String "x is not defined" ]} ]};
       functions := ∅;
                 currentException := None |}) as [Hmessage _].
  apply (Hmessage 0%nat {[ "message"%string := JS_String "x is not defined" ]}
           "x is not defined"%string).
  - vm_compute. reflexivity.
  - vm_compute. reflexivity.
  - vm_compute. discriminate.
Defined.

(** What [nativeEvaluate] hands back for the value of a script: a String
    for a string, a Double for every Number (also an integral one), a
    Boolean for a boolean, and null for everything else ([undefined],
    [null], objects, functions, symbols); nothing is raised. *)
Theorem nativeEvaluate_result (E : Engine) (script : Script) (q q1 : QuickJsContext)
    (result : JSValue) :
  script q = (EvalValue result, q1) →
  JS_IsException result = false →
  ∃ javaResult q',
    Java_io_ton_walletkit_quickjs_QuickJs_nativeEvaluate E script (ContextPointer q)
    = (javaResult, ContextPointer q')
    ∧ (target <$> javaResult)
      = match result with
        | JS_String s => Some (JString (c_str s))
        | JS_Number d => Some (JDouble d)
        | JS_Bool b => Some (JBoolean b)
        | _ => None
        end
    ∧ pendingException (vm q') = pendingException (vm q1)
    ∧ globalRefs (vm q') = globalRefs (vm q1)
    ∧ localRefs (vm q') = localRefs (vm q1) ∪ handlesOf [javaResult]
    ∧ same_registry q1 q' ∧ context q' = context q1.
Proof.
  intros Hs Hexc. unfold Java_io_ton_walletkit_quickjs_QuickJs_nativeEvaluate. rewrite Hs.
  destruct result as [| | |b|d|s|d|r]; simpl;
    try (eexists None, q1; split_and!; try reflexivity; [set_solver|repeat split]).
  - destruct b; eexists _, _; (split; [reflexivity|]); simpl;
      (split_and!; try reflexivity; [rewrite handlesOf_cons_Some; set_solver|repeat split]).
  - eexists _, _. split; [reflexivity|]. simpl.
    split_and!; try reflexivity; [rewrite handlesOf_cons_Some; set_solver|repeat split].
  - eexists _, _. split; [reflexivity|]. simpl.
    split_and!; try reflexivity; [rewrite handlesOf_cons_Some; set_solver|repeat split].
Qed.

Lemma nativeEvaluate_result_witness :
  ∃ javaResult q',
    Java_io_ton_walletkit_quickjs_QuickJs_nativeEvaluate sampleEngine
      (λ q, (EvalValue (JS_NewInt32 5), q)) (ContextPointer sampleContext)
    = (javaResult, ContextPointer q')
    ∧ (target <$> javaResult) = Some (JDouble (S754_finite false 5629499534213120 (-50))).
Proof.
  destruct (nativeEvaluate_result sampleEngine (λ q, (EvalValue (JS_NewInt32 5), q))
              sampleContext sampleContext (JS_NewInt32 5) eq_refl eq_refl)
    as (javaResult & q' & Hrun & Hres & _).
  exists javaResult, q'. split; [exact Hrun|exact Hres].
Defined.

(** A script that throws makes [nativeEvaluate] return null and raise the
    bridge exception with the text extracted from the script exception. *)
Theorem nativeEvaluate_failure (E : Engine) (script : Script) (q q1 : QuickJsContext)
    (exception : JSValue) (h : nat) (name : string) :
  script q = (EvalThrows exception, q1) →
  quickJsExceptionClass (refs q1) = Some {| handle := h; target := JClass name |} →
  ∃ q', Java_io_ton_walletkit_quickjs_QuickJs_nativeEvaluate E script (ContextPointer q)
        = (None, ContextPointer q')
        ∧ pendingException (vm q')
          = Some (Raised name (MsgText (jsExceptionToString E (context q1) exception)))
        ∧ localRefs (vm q') = localRefs (vm q1)
        ∧ globalRefs (vm q') = globalRefs (vm q1)
        ∧ same_registry q1 q'.
Proof.
  intros Hs Hcls. unfold Java_io_ton_walletkit_quickjs_QuickJs_nativeEvaluate. rewrite Hs.
  eexists. split; [reflexivity|]. simpl.
  rewrite (throwQuickJsException_pending _ _ _ _ _ Hcls), throwQuickJsException_globalRefs.
  unfold throwQuickJsException. rewrite Hcls. simpl.
  split_and!; try reflexivity. repeat split.
Qed.

Lemma nativeEvaluate_failure_witness :
  ∃ q', Java_io_ton_walletkit_quickjs_QuickJs_nativeEvaluate sampleEngine
          (λ q, (EvalThrows (JS_String "boom"), q)) (ContextPointer sampleContext)
        = (None, ContextPointer q')
        ∧ pendingException (vm q')
          = Some (Raised "io/ton/walletkit/quickjs/QuickJsException" (MsgText "boom")).
Proof.
  destruct (nativeEvaluate_failure sampleEngine (λ q, (EvalThrows (JS_String "boom"), q))
              sampleContext sampleContext (JS_String "boom")
              8 "io/ton/walletkit/quickjs/QuickJsException" eq_refl)
    as (q' & Hrun & Hp & _).
  - vm_compute. reflexivity.
  - exists q'. split; [exact Hrun|exact Hp].
Defined.

(** On a destroyed runtime (null pointer) the entry points run nothing
    and raise [java.lang.RuntimeException], not the bridge's own exception
    class: they are handed an empty set of cached classes. *)
Theorem destroyed_pointer_raises_RuntimeException (E : Engine) (script : Script)
    (job : PendingJob) (env : JavaVM) :
  let raised :=
    set_pendingException
      (Some (Raised "java/lang/RuntimeException" (MsgText "QuickJs runtime has been destroyed")))
      (set_localRefs ({[fresh (localRefs env)]} ∪ localRefs env) env) in
  Java_io_ton_walletkit_quickjs_QuickJs_nativeEvaluate E script (NullPointer env)
  = (None, NullPointer raised)
  ∧ Java_io_ton_walletkit_quickjs_QuickJs_nativeExecutePendingJob E job (NullPointer env)
    = (-1, NullPointer raised).
Proof. split; reflexivity. Qed.

(** [nativeExecutePendingJob] returns the engine's count when it is not
    negative and -1 otherwise, never less; with -1 it raises the bridge
    exception, whose text is never empty. *)
Theorem nativeExecutePendingJob_result (E : Engine) (job : PendingJob)
    (q q1 : QuickJsContext) (result : Z) (jobContext : option JSValue)
    (h : nat) (name : string) :
  job q = ((result, jobContext), q1) →
  quickJsExceptionClass (refs q1) = Some {| handle := h; target := JClass name |} →
  ∃ ret q',
    Java_io_ton_walletkit_quickjs_QuickJs_nativeExecutePendingJob E job (ContextPointer q)
    = (ret, ContextPointer q')
    ∧ -1 <= ret
    ∧ (0 <= result → ret = result ∧ q' = q1)
    ∧ (result < 0 →
       ret = -1
       ∧ ∃ message, message ≠ ""%string
                    ∧ pendingException (vm q') = Some (Raised name (MsgText message))
                    ∧ (jobContext = None → message = pendingJobFailedMessage)
                    ∧ same_registry q1 q').
Proof.
  intros Hj Hcls. unfold Java_io_ton_walletkit_quickjs_QuickJs_nativeExecutePendingJob.
  rewrite Hj. destruct (result <? 0) eqn:Hneg.
  - apply Z.ltb_lt in Hneg. eexists _, _. split; [reflexivity|].
    split_and!; [lia|lia|]. intros _. split; [reflexivity|].
    eexists. simpl. rewrite (throwQuickJsException_pending _ _ _ _ _ Hcls).
    split_and!; [|reflexivity| |repeat split].
    + destruct jobContext; [apply jsExceptionToString_nonempty|discriminate].
    + intros ->. reflexivity.
  - apply Z.ltb_ge in Hneg. eexists _, _. split; [reflexivity|].
    split_and!; [lia|auto|lia].
Qed.

Lemma nativeExecutePendingJob_result_witness :
  ∃ ret q',
    Java_io_ton_walletkit_quickjs_QuickJs_nativeExecutePendingJob sampleEngine
      (λ q, ((-7, None), q)) (ContextPointer sampleContext)
    = (ret, ContextPointer q') ∧ -1 <= ret.
Proof.
  destruct (nativeExecutePendingJob_result sampleEngine (λ q, ((-7, None), q))
              sampleContext sampleContext (-7) None
              8 "io/ton/walletkit/quickjs/QuickJsException" eq_refl)
    as (ret & q' & Hrun & Hret & _).
  - vm_compute. reflexivity.
  - exists ret, q'. split; [exact Hrun|exact Hret].
Defined.

(** ** From registration to dispatch *)

Lemma NewGlobalRef_target obj v :
  target <$> fst (NewGlobalRef obj v) = target <$> obj.
Proof. destruct obj; reflexivity. Qed.

Lemma register_binding_targets f oName mName meth inst parameterTypes returnType q b :
  let q' := Java_io_ton_walletkit_quickjs_QuickJs_nativeRegister
              f oName mName meth inst parameterTypes returnType q in
  bindings q !! nextBindingId q = None →
  bindings q' !! nextBindingId q = Some b →
  target <$> method b = target <$> meth ∧ target <$> instance b = target <$> inst.
Proof.
  intros q' Hfresh. subst q'.
  unfold Java_io_ton_walletkit_quickjs_QuickJs_nativeRegister.
  destruct (bool_decide (toUtfString oName = "") || bool_decide (toUtfString mName = "")).
  { unfold failRegistration. simpl. rewrite Hfresh. discriminate. }
  pose proof (NewGlobalRef_target meth (vm q)) as T1.
  destruct (NewGlobalRef meth (vm q)) as [bm v1] eqn:E1. simpl in T1.
  pose proof (NewGlobalRef_target inst v1) as T2.
  destruct (NewGlobalRef inst v1) as [bi v2] eqn:E2. simpl in T2.
  destruct (classifyParameters (refs q) (default [] parameterTypes) []) as [kinds|].
  2: { simpl. rewrite Hfresh. discriminate. }
  destruct (classifyReturn (refs q) returnType) as [kind|].
  2: { simpl. rewrite Hfresh. discriminate. }
  match goal with |- context [allocateBinding ?b ?q0] =>
    pose proof (λ c, allocate_rollback b q0 c Hfresh) as Hroll;
    destruct (allocateBinding b q0) as [bindingId q2] eqn:Ealloc
  end.
  simpl in Hroll.
  unfold allocateBinding in Ealloc. simpl in Ealloc. rewrite Hfresh in Ealloc.
  injection Ealloc as <- <-. simpl context.
  assert (Hfail : ∀ message q2',
            bindings (rollbackBinding (nextBindingId q) q2') = bindings q →
            bindings (failRegistration message (rollbackBinding (nextBindingId q) q2'))
              !! nextBindingId q = Some b →
            target <$> method b = target <$> meth ∧ target <$> instance b = target <$> inst).
  { intros message q2' Hb. unfold failRegistration. simpl. rewrite Hb, Hfresh. discriminate. }
  destruct (ensureGlobalObject f (toUtfString oName) (context q))
    as [[objectValue|] ctx1] eqn:Ens.
  2: { destruct (Hroll ctx1) as (Hb & _). apply Hfail, Hb. }
  destruct (JS_NewCFunctionMagic _ _ _ _ _) as [function ctx2].
  destruct (JS_IsException _) eqn:Hexc.
  { destruct (Hroll ctx2) as (Hb & _). apply Hfail, Hb. }
  match goal with |- context [JS_DefinePropertyValueStr ?a ?b ?c ?d ?e] =>
    destruct (JS_DefinePropertyValueStr a b c d e) as [status ctx3] eqn:Edef
  end.
  destruct (status <? 0) eqn:Hst.
  - pose proof (JS_DefinePropertyValueStr_fails _ _ _ _ _ _ _ Edef Hst) as ->.
    destruct (Hroll ctx2) as (Hb & _). apply Hfail, Hb.
  - simpl. rewrite lookup_insert_eq. intros [= <-]. simpl. split; assumption.
Qed.

(** Registration and dispatch fit together: after a registration that
    raises nothing, a call that carries the assigned identifier runs
    [invokeBinding] on a binding that designates the registered method
    and instance, with the parameter and return kinds classified at
    registration. *)
Theorem registered_function_reaches_host_method (E : Engine) (H : Host) (f : EngineFaults)
    (oName mName : option string) (meth inst : jobject)
    (parameterTypes : option (list jobject)) (returnType : jobject)
    (q : QuickJsContext) (h : nat) (name : string) :
  let q' := Java_io_ton_walletkit_quickjs_QuickJs_nativeRegister
              f oName mName meth inst parameterTypes returnType q in
  registry_wf q →
  quickJsExceptionClass (refs q) = Some {| handle := h; target := JClass name |} →
  pendingException (vm q') = None →
  ∃ b, (∀ argv, methodDispatcher E H argv (nextBindingId q) q'
                = invokeBinding E H b argv q')
       ∧ target <$> method b = target <$> meth
       ∧ target <$> instance b = target <$> inst
       ∧ parameterKinds b = map (classifyParameter (refs q)) (default [] parameterTypes)
       ∧ classifyReturn (refs q) returnType = Some (returnKind b).
Proof.
  intros q' Hwf Hcls Hp'.
  pose proof (registry_wf_fresh q Hwf) as Hfresh.
  destruct (register_outcome f oName mName meth inst parameterTypes returnType q Hfresh)
    as [(_ & _ & _ & Hraise)
       |(_ & _ & b & _ & _ & _ & _ & _ & Hb & _ & _ & _ & _ & _ & _ & Hkinds & Hret & _)].
  { exfalso. exact (Hraise h name Hcls Hp'). }
  fold q' in Hb.
  assert (Hlook : bindings q' !! nextBindingId q = Some b)
    by (rewrite Hb; apply lookup_insert_eq).
  destruct (register_binding_targets f oName mName meth inst parameterTypes returnType q b
              Hfresh Hlook) as [Hm Hi].
  rewrite classifyParameters_spec in Hkinds.
  destruct (decide (kVoid ∈ map (classifyParameter (refs q)) (default [] parameterTypes)))
    as [|Hnv]; [discriminate|].
  injection Hkinds as Hkinds. simpl in Hkinds.
  exists b. split_and!; try assumption; try congruence.
  intros argv. unfold methodDispatcher. rewrite Hlook. reflexivity.
Qed.

Lemma registered_function_reaches_host_method_witness :
  ∃ b, methodDispatcher sampleEngine sampleHost [JS_NewInt32 2; JS_NewInt32 3] 1
         (Java_io_ton_walletkit_quickjs_QuickJs_nativeRegister noFaults
            (Some "Calculator"%string) (Some "add"%string) (methodRef 0) None
            (Some [classRef "int"; classRef "int"]) (classRef "int") sampleContext)
       = invokeBinding sampleEngine sampleHost b [JS_NewInt32 2; JS_NewInt32 3]
           (Java_io_ton_walletkit_quickjs_QuickJs_nativeRegister noFaults
              (Some "Calculator"%string) (Some "add"%string) (methodRef 0) None
              (Some [classRef "int"; classRef "int"]) (classRef "int") sampleContext)
       ∧ target <$> method b = Some (JMethod 0).
Proof.
  assert (Hn0 : nextBindingId sampleContext = 1) by (vm_compute; reflexivity).
  destruct (registered_function_reaches_host_method sampleEngine sampleHost noFaults
              (Some "Calculator"%string) (Some "add"%string) (methodRef 0) None
              (Some [classRef "int"; classRef "int"]) (classRef "int")
              sampleContext 8 "io/ton/walletkit/quickjs/QuickJsException")
    as (b & Hrun & Hm & _).
  - assert (Hb0 : bindings sampleContext = ∅) by (vm_compute; reflexivity).
    split; [rewrite Hn0; lia|]. intros k [x Hk].
    rewrite Hb0, lookup_empty in Hk. discriminate.
  - vm_compute. reflexivity.
  - vm_compute. reflexivity.
  - exists b. rewrite Hn0 in Hrun. split; [apply Hrun|exact Hm].
Defined.

(** ** Identifier assignment *)

(** Run from call to return by one thread, the blocks of the registration
    make up [nativeRegister]. *)
Lemma nativeRegister_blocks f oName mName meth inst parameterTypes returnType q :
  snd (registerAlone (Called f oName mName meth inst parameterTypes returnType) q)
  = Java_io_ton_walletkit_quickjs_QuickJs_nativeRegister
      f oName mName meth inst parameterTypes returnType q
  ∧ ∃ bindingId,
      fst (registerAlone (Called f oName mName meth inst parameterTypes returnType) q)
      = Returned bindingId.
Proof.
  unfold registerAlone, Java_io_ton_walletkit_quickjs_QuickJs_nativeRegister.
  cbn [registerStep].
  destruct (bool_decide (toUtfString oName = "") || bool_decide (toUtfString mName = ""));
    [simpl; eauto|].
  destruct (NewGlobalRef meth (vm q)) as [bm v1].
  destruct (NewGlobalRef inst v1) as [bi v2].
  destruct (classifyParameters (refs q) (default [] parameterTypes) []) as [kinds|];
    [|simpl; eauto].
  destruct (classifyReturn (refs q) returnType) as [kind|]; [|simpl; eauto].
  cbn [registerStep objectName methodName].
  destruct (allocateBinding _ _) as [bindingId q2].
  cbn [registerStep].
  destruct (ensureGlobalObject f (toUtfString oName) (context q2)) as [[objectValue|] ctx1];
    [|simpl; eauto].
  destruct (JS_NewCFunctionMagic _ _ _ _ _) as [function ctx2].
  destruct (JS_IsException function); [simpl; eauto|].
  destruct (JS_DefinePropertyValueStr _ _ _ _ _) as [status ctx3].
  destruct (status <? 0); simpl; eauto.
Qed.

(** Run alone, a registering thread returns holding the value the counter
    had, or it returns without an identifier and the counter is as it
    was. *)
Lemma registerAlone_identifier f oName mName meth inst parameterTypes returnType q :
  fst (registerAlone (Called f oName mName meth inst parameterTypes returnType) q)
  = Returned (Some (nextBindingId q))
  ∨ (fst (registerAlone (Called f oName mName meth inst parameterTypes returnType) q)
     = Returned None
     ∧ nextBindingId
         (snd (registerAlone (Called f oName mName meth inst parameterTypes returnType) q))
       = nextBindingId q).
Proof.
  unfold registerAlone. cbn [registerStep].
  destruct (bool_decide (toUtfString oName = "") || bool_decide (toUtfString mName = ""));
    [right; split; reflexivity|].
  destruct (NewGlobalRef meth (vm q)) as [bm v1].
  destruct (NewGlobalRef inst v1) as [bi v2].
  destruct (classifyParameters (refs q) (default [] parameterTypes) []) as [kinds|];
    [|right; split; reflexivity].
  destruct (classifyReturn (refs q) returnType) as [kind|]; [|right; split; reflexivity].
  cbn [registerStep objectName methodName].
  match goal with |- context [allocateBinding ?b ?q0] =>
    assert (Hid : fst (allocateBinding b q0) = nextBindingId q) by reflexivity;
    destruct (allocateBinding b q0) as [bindingId q2]
  end.
  simpl in Hid. subst bindingId. left.
  cbn [registerStep].
  destruct (ensureGlobalObject f (toUtfString oName) (context q2)) as [[objectValue|] ctx1];
    [|reflexivity].
  destruct (JS_NewCFunctionMagic _ _ _ _ _) as [function ctx2].
  destruct (JS_IsException function); [reflexivity|].
  destruct (JS_DefinePropertyValueStr _ _ _ _ _) as [status ctx3].
  destruct (status <? 0); reflexivity.
Qed.

(** A block either keeps the thread's identifier and the counter, or it is
    the first locked block: the thread had no identifier, receives the
    counter's value, and the counter advances. *)
Lemma registerStep_identifier s q :
  (identifierOf (fst (registerStep s q)) = identifierOf s
   ∧ nextBindingId (snd (registerStep s q)) = nextBindingId q)
  ∨ (identifierOf s = None
     ∧ identifierOf (fst (registerStep s q)) = Some (nextBindingId q)
     ∧ nextBindingId (snd (registerStep s q)) = wrap 32 (nextBindingId q + 1)).
Proof.
  destruct s as [f o m me i p r|f binding n|f bindingId o m n|bindingId message|bindingId];
    cbn [registerStep].
  - left. destruct (bool_decide _ || bool_decide _); [split; reflexivity|].
    destruct (NewGlobalRef me (vm q)) as [bm v1].
    destruct (NewGlobalRef i v1) as [bi v2].
    destruct (classifyParameters _ _ _); [|split; reflexivity].
    destruct (classifyReturn _ _); split; reflexivity.
  - right. unfold allocateBinding. simpl.
    destruct (bindings q !! nextBindingId q); simpl; repeat split.
  - left. destruct (ensureGlobalObject _ _ _) as [[objectValue|] ctx1]; [|split; reflexivity].
    destruct (JS_NewCFunctionMagic _ _ _ _ _) as [function ctx2].
    destruct (JS_IsException function); [split; reflexivity|].
    destruct (JS_DefinePropertyValueStr _ _ _ _ _) as [status ctx3].
    destruct (status <? 0); split; reflexivity.
  - left. simpl. split; [reflexivity|].
    unfold failRegistration. simpl. apply rollbackBinding_counter.
  - left. split; reflexivity.
Qed.

Lemma machineStep_inv n0 M who :
  - 2 ^ 31 <= n0 → n0 + 2 <= INT_MAX →
  identifier_inv n0 M → identifier_inv n0 (machineStep M who).
Proof.
  intros Hmin Hmax (Hn & Ha & Hb & Hab). unfold identifier_inv, machineStep, threadStep.
  assert (Hwrap : ∀ n, n0 <= n <= n0 + 1 → wrap 32 (n + 1) = n + 1).
  { intros n Hr. apply wrap_id; [lia|]. unfold INT_MAX in Hmax. simpl. lia. }
  destruct who.
  - pose proof (registerStep_identifier (state (second M))
                  (threadView (env (second M)) (shared M))) as Hstep.
    destruct (registerStep (state (second M)) (threadView (env (second M)) (shared M)))
      as [s' q']. cbn [fst snd shared first second state] in *.
    change (nextBindingId (threadView (env (second M)) (shared M)))
      with (nextBindingId (shared M)) in Hstep.
    destruct Hstep as [[-> ->]|(Hnone & -> & ->)].
    + split_and!; assumption.
    + rewrite Hnone in Hn.
      destruct (identifierOf (state (first M))) as [x|] eqn:Hx.
      * specialize (Ha x eq_refl). rewrite Hwrap by lia.
        split_and!; [lia|intros ? [= <-]; lia|intros ? [= <-]; lia|].
        intros ? ? [= <-] [= <-]. lia.
      * rewrite Hwrap by lia.
        split_and!; [lia|discriminate|intros ? [= <-]; lia|discriminate].
  - pose proof (registerStep_identifier (state (first M))
                  (threadView (env (first M)) (shared M))) as Hstep.
    destruct (registerStep (state (first M)) (threadView (env (first M)) (shared M)))
      as [s' q']. cbn [fst snd shared first second state] in *.
    change (nextBindingId (threadView (env (first M)) (shared M)))
      with (nextBindingId (shared M)) in Hstep.
    destruct Hstep as [[-> ->]|(Hnone & -> & ->)].
    + split_and!; assumption.
    + rewrite Hnone in Hn.
      destruct (identifierOf (state (second M))) as [y|] eqn:Hy.
      * specialize (Hb y eq_refl). rewrite Hwrap by lia.
        split_and!; [lia|intros ? [= <-]; lia|intros ? [= <-]; lia|].
        intros ? ? [= <-] [= <-]. lia.
      * rewrite Hwrap by lia.
        split_and!; [lia|intros ? [= <-]; lia|discriminate|discriminate].
Qed.

Lemma runSchedule_inv n0 schedule :
  - 2 ^ 31 <= n0 → n0 + 2 <= INT_MAX →
  ∀ M, identifier_inv n0 M → identifier_inv n0 (runSchedule schedule M).
Proof.
  intros Hmin Hmax. unfold runSchedule.
  induction schedule as [|who rest IH]; intros M Hinv; simpl; [exact Hinv|].
  apply IH, machineStep_inv; assumption.
Qed.

(** A call keeps the registry well formed and the cached classes, and
    moves the counter up by at most one, never down. *)
Lemma perform_counter E H c q q' :
  registry_wf q → nextBindingId q < INT_MAX → perform E H c q = Some q' →
  registry_wf q'
  ∧ nextBindingId q <= nextBindingId q' <= nextBindingId q + 1
  ∧ refs q' = refs q.
Proof.
  intros Hwf Hmax Hp.
  destruct (perform_keeps E H c q q' Hwf Hmax Hp) as (Hwf' & Hup & _).
  split; [exact Hwf'|]. destruct Hwf as [Hone _].
  destruct c as [f o m me i p r|argv magic]; simpl in Hp.
  - injection Hp as <-. simpl.
    destruct (register_counter f o m me i p r q) as (Hr & [(Hn & _)|(Hn & _)]).
    + rewrite Hn. split; [lia|exact Hr].
    + rewrite Hn, wrap_id by (unfold INT_MAX in *; simpl; lia). split; [lia|exact Hr].
  - destruct (methodDispatcher E H argv magic q) as [[res q1]|] eqn:Hd; simpl in Hp;
      [|discriminate].
    injection Hp as <-. apply methodDispatcher_registry in Hd as (_ & Hn & _ & Hr).
    rewrite Hn. split; [lia|exact Hr].
Qed.

Lemma performAll_counter E H calls :
  ∀ q q', registry_wf q → nextBindingId q + Z.of_nat (length calls) <= INT_MAX →
          performAll E H calls q = Some q' →
          registry_wf q'
          ∧ nextBindingId q <= nextBindingId q' <= nextBindingId q + Z.of_nat (length calls)
          ∧ refs q' = refs q.
Proof.
  induction calls as [|c rest IH]; intros q q' Hwf Hlen; simpl.
  - intros [= <-]. split_and!; [assumption|lia|lia|reflexivity].
  - destruct (perform E H c q) as [q1|] eqn:Hp; simpl; [|discriminate].
    simpl length in Hlen.
    destruct (perform_counter E H c q q1 Hwf ltac:(lia) Hp) as (Hwf1 & Hn1 & Hr1).
    intros Hrest. destruct (IH q1 q' Hwf1 ltac:(lia) Hrest) as (Hwf' & Hn' & Hr').
    split_and!; [assumption|lia|simpl length; lia|congruence].
Qed.

Lemma nativeCreate_registry v :
  let q := Java_io_ton_walletkit_quickjs_QuickJs_nativeCreate v in
  registry_wf q ∧ nextBindingId q = 1
  ∧ ∃ hq, quickJsExceptionClass (refs q)
          = Some {| handle := hq; target := JClass "io/ton/walletkit/quickjs/QuickJsException" |}.
Proof.
  pose proof (cacheJavaReferences_spec v) as Hspec. cbv zeta in Hspec.
  unfold Java_io_ton_walletkit_quickjs_QuickJs_nativeCreate, registry_wf.
  destruct (cacheJavaReferences v) as [r v1]. cbn [fst snd] in Hspec.
  destruct Hspec as (_ & _ & _ & Hq). cbn [refs bindings nextBindingId].
  split_and!; [lia| |reflexivity|exact Hq].
  intros k [b Hk]. rewrite lookup_empty in Hk. discriminate.
Qed.

(** C3: in a context made by [nativeCreate] the counter starts at 1.  Take
    any run of registrations and script calls, a registration, any
    further run, and a second registration (the counter staying below
    [INT_MAX]).  The counter never goes down.  If the second registration
    raises nothing, it has stored its binding under the value the counter
    had, which is also the binding's [id] and the identifier the
    registering thread holds when it returns, and advanced the counter
    by one; this identifier is positive, greater than every identifier in
    the registry, greater than the identifier of the first registration
    if that one stored a binding, and greater than the identifier the
    first registration spent even if its binding was removed again by the
    rollback.  And when two threads run their registrations on the same
    context, their blocks interleaved in any order, the identifiers they
    hold are different, whatever point each has reached. *)
Theorem C3_identifiers_increase (E : Engine) (H : Host) (v : JavaVM)
    (calls1 calls2 : list BridgeCall)
    (f1 : EngineFaults) (o1 m1 : option string) (me1 i1 : jobject)
    (p1 : option (list jobject)) (r1 : jobject)
    (f2 : EngineFaults) (o2 m2 : option string) (me2 i2 : jobject)
    (p2 : option (list jobject)) (r2 : jobject)
    (qa qb : QuickJsContext) :
  let qa' := Java_io_ton_walletkit_quickjs_QuickJs_nativeRegister f1 o1 m1 me1 i1 p1 r1 qa in
  let qb' := Java_io_ton_walletkit_quickjs_QuickJs_nativeRegister f2 o2 m2 me2 i2 p2 r2 qb in
  Z.of_nat (length calls1 + length calls2) + 4 <= INT_MAX →
  performAll E H calls1 (Java_io_ton_walletkit_quickjs_QuickJs_nativeCreate v) = Some qa →
  performAll E H calls2 (returnToJava qa') = Some qb →
  nextBindingId (Java_io_ton_walletkit_quickjs_QuickJs_nativeCreate v) = 1
  ∧ (1 <= nextBindingId qa ∧ nextBindingId qa <= nextBindingId qa'
     ∧ nextBindingId qa' <= nextBindingId qb ∧ nextBindingId qb <= nextBindingId qb')
  ∧ (pendingException (vm qb') = None →
     ∃ b, bindings qb' !! nextBindingId qb = Some b
          ∧ id b = nextBindingId qb
          ∧ nextBindingId qb' = nextBindingId qb + 1
          ∧ registerAlone (Called f2 o2 m2 me2 i2 p2 r2) qb = (Returned (Some (id b)), qb')
          ∧ 0 < id b
          ∧ (∀ k, is_Some (bindings qb !! k) → k < id b)
          ∧ (∀ b1, bindings qa' !! nextBindingId qa = Some b1 →
                   id b1 = nextBindingId qa ∧ id b1 < id b)
          ∧ (nextBindingId qa' ≠ nextBindingId qa → nextBindingId qa < id b))
  ∧ (∀ schedule env1 env2 x y,
       let M := runSchedule schedule
                  {| shared := qb;
                     first := {| env := env1; state := Called f1 o1 m1 me1 i1 p1 r1 |};
                     second := {| env := env2; state := Called f2 o2 m2 me2 i2 p2 r2 |} |} in
       identifierOf (state (first M)) = Some x →
       identifierOf (state (second M)) = Some y →
       x ≠ y ∧ nextBindingId qb <= x < nextBindingId (shared M)
       ∧ nextBindingId qb <= y < nextBindingId (shared M)).
Proof.
  intros qa' qb' Hlen Hrun1 Hrun2.
  destruct (nativeCreate_registry v) as (Hwf0 & Hn0 & hq & Hcls0).
  rewrite Nat2Z.inj_add in Hlen.
  destruct (performAll_counter E H calls1 _ qa Hwf0 ltac:(rewrite Hn0; lia) Hrun1)
    as (Hwfa & Hna & Hra).
  rewrite Hn0 in Hna.
  assert (Hstep1 : perform E H (Register f1 o1 m1 me1 i1 p1 r1) qa = Some (returnToJava qa'))
    by reflexivity.
  destruct (perform_counter E H _ qa _ Hwfa ltac:(lia) Hstep1) as (Hwfa' & Hna' & Hra').
  change (nextBindingId (returnToJava qa')) with (nextBindingId qa') in Hna'.
  destruct (performAll_counter E H calls2 _ qb Hwfa'
              ltac:(change (nextBindingId (returnToJava qa')) with (nextBindingId qa'); lia)
              Hrun2) as (Hwfb & Hnb & Hrb).
  change (nextBindingId (returnToJava qa')) with (nextBindingId qa') in Hnb.
  assert (Hstep2 : perform E H (Register f2 o2 m2 me2 i2 p2 r2) qb = Some (returnToJava qb'))
    by reflexivity.
  destruct (perform_counter E H _ qb _ Hwfb ltac:(lia) Hstep2) as (_ & Hnb' & _).
  change (nextBindingId (returnToJava qb')) with (nextBindingId qb') in Hnb'.
  split_and!; try lia.
  - intros Hok.
    assert (Hcls : quickJsExceptionClass (refs qb)
                   = Some {| handle := hq;
                             target := JClass "io/ton/walletkit/quickjs/QuickJsException" |}).
    { rewrite Hrb. change (refs (returnToJava qa')) with (refs qa').
      change (refs qa') with (refs (returnToJava qa')). rewrite Hra', Hra. exact Hcls0. }
    destruct (register_outcome f2 o2 m2 me2 i2 p2 r2 qb (registry_wf_fresh qb Hwfb))
      as [(_ & _ & _ & Hraise)
         |(_ & Hn & b & _ & _ & Hid & _ & _ & Hb & _)].
    { exfalso. exact (Hraise _ _ Hcls Hok). }
    fold qb' in Hn, Hb.
    rewrite wrap_id in Hn by (unfold INT_MAX in *; simpl; lia).
    exists b. split_and!.
    + rewrite Hb. apply lookup_insert_eq.
    + exact Hid.
    + exact Hn.
    + destruct (nativeRegister_blocks f2 o2 m2 me2 i2 p2 r2 qb) as [Hsnd _].
      fold qb' in Hsnd.
      destruct (registerAlone_identifier f2 o2 m2 me2 i2 p2 r2 qb) as [Hfst|[_ Hsame]].
      * rewrite Hid. rewrite <- Hsnd, <- Hfst. apply surjective_pairing.
      * rewrite Hsnd in Hsame. lia.
    + lia.
    + intros k Hk. destruct Hwfb as [_ Hkeys]. specialize (Hkeys k Hk). lia.
    + intros b1 Hb1.
      destruct (register_outcome f1 o1 m1 me1 i1 p1 r1 qa (registry_wf_fresh qa Hwfa))
        as [(Hsame & _)
           |(_ & Hn1 & b' & _ & _ & Hid1 & _ & _ & Hb' & _)].
      * fold qa' in Hsame. rewrite Hsame, (registry_wf_fresh qa Hwfa) in Hb1. discriminate.
      * fold qa' in Hn1, Hb'. rewrite Hb', lookup_insert_eq in Hb1. injection Hb1 as <-.
        rewrite wrap_id in Hn1 by (unfold INT_MAX in *; simpl; lia).
        split; [exact Hid1|lia].
    + intros Hmoved.
      destruct (register_counter f1 o1 m1 me1 i1 p1 r1 qa) as (_ & [(Hn1 & _)|(Hn1 & _)]);
        fold qa' in Hn1; [congruence|].
      rewrite wrap_id in Hn1 by (unfold INT_MAX in *; simpl; lia). lia.
  - intros schedule env1 env2 x y M Hx Hy.
    assert (Hinv : identifier_inv (nextBindingId qb) M).
    { apply runSchedule_inv; [unfold INT_MAX in *; lia|lia|].
      unfold identifier_inv. simpl. split_and!; [lia|discriminate..]. }
    destruct Hinv as (_ & Ha & Hb & Hab).
    split_and!; [exact (Hab x y Hx Hy)|apply (Ha x Hx)..|apply (Hb y Hy)|apply (Hb y Hy)].
Qed.

Lemma C3_identifiers_increase_witness :
  (∃ b, bindings (Java_io_ton_walletkit_quickjs_QuickJs_nativeRegister noFaults
                    (Some "Printer"%string) (Some "log"%string) (methodRef 2)
                    (Some {| handle := 7; target := JInstance 1 |})
                    (Some [classRef "java/lang/String"]) (classRef "void") sampleMiddle)
          !! nextBindingId sampleMiddle = Some b
        ∧ id b = nextBindingId sampleMiddle
        ∧ 0 < id b)
  ∧ identifierOf (state (first (runSchedule sampleSchedule sampleMachine))) = Some 3
  ∧ identifierOf (state (second (runSchedule sampleSchedule sampleMachine))) = Some 2
  ∧ (3 : Z) ≠ 2.
Proof.
  destruct (C3_identifiers_increase sampleEngine sampleHost sampleVM
              [] [Invoke [JS_NewInt32 2; JS_NewInt32 3] 1]
              noFaults (Some "Calculator"%string) (Some "add"%string) (methodRef 0) None
              (Some [classRef "int"; classRef "int"]) (classRef "int")
              noFaults (Some "Printer"%string) (Some "log"%string) (methodRef 2)
              (Some {| handle := 7; target := JInstance 1 |})
              (Some [classRef "java/lang/String"]) (classRef "void")
              sampleContext sampleMiddle) as (_ & _ & Hreg & Hrace).
  - vm_compute. discriminate.
  - vm_compute. reflexivity.
  - vm_compute. reflexivity.
  - assert (Hx : identifierOf (state (first (runSchedule sampleSchedule sampleMachine)))
                 = Some 3) by (vm_compute; reflexivity).
    assert (Hy : identifierOf (state (second (runSchedule sampleSchedule sampleMachine)))
                 = Some 2) by (vm_compute; reflexivity).
    destruct Hreg as (b & Hb & Hid & _ & _ & Hpos & _); [vm_compute; reflexivity|].
    destruct (Hrace sampleSchedule sampleVM sampleVM 3 2 Hx Hy) as (Hne & _).
    split_and!; [exists b; split_and!; assumption|exact Hx|exact Hy|exact Hne].
Defined.

(** On the sample: both threads run to their return, and the registry
    holds the bindings 1, 2 and 3. *)
Example sample_race :
  state (first (runSchedule (sampleSchedule ++ [false; true; true]) sampleMachine))
  = Returned (Some 3)
  ∧ state (second (runSchedule (sampleSchedule ++ [false; true; true]) sampleMachine))
    = Returned (Some 2)
  ∧ fst <$> map_to_list
              (bindings (shared (runSchedule (sampleSchedule ++ [false; true; true])
                                   sampleMachine)))
    = [3; 2; 1].
Proof. vm_compute. repeat split. Qed.
